(** * Dynamic SQL query analyzer: extraction, probing and timeline engine

    A shallow embedding of [sql_analyzer.py] (the terminal analyzer) and of
    the analysis entry point of [sql_gui_analyzer.py] (the desktop
    front-end), with the properties of its natural-language specification.

    Conventions of the embedding.
    - A Python [str] is a [string]; each [ascii] stands for the character
      with that code point, so the embedding is exact on texts whose
      characters have code points below 256.  The character classes of the
      [re] module ([\s], [\w], [\b], [IGNORECASE]) are written out for that
      range.
    - A duration is a float in the source; it is a rational [Q] here.  The
      source only subtracts two clock readings, divides once by a positive
      integer, compares, and tests for zero.
    - The database connection, the clocks and [stdout] are threaded through
      a state-and-exception monad [M].
    - The optional package [sqlparse] is a parameter: whether it is
      installed, and on which texts its parser raises. *)

From Stdlib Require Import ZArith QArith Lia Lqa.
From Stdlib Require Import Ascii String Numbers.DecimalString.
From Stdlib Require Import Sorting.Sorted.
From stdpp Require Import base option list sorting strings gmap.

Local Open Scope string_scope.
Local Open Scope list_scope.

(* ===================================================================== *)
(** ** Characters and strings as Python sees them *)
(* ===================================================================== *)

Module PyStr.

Definition code (c : ascii) : nat := nat_of_ascii c.

Definition between (lo hi n : nat) : bool := (lo <=? n)%nat && (n <=? hi)%nat.

(** [str.isspace] and the [\s] class of [re], on code points below 256:
    TAB..CR, FS..US, SPACE, NEL and NBSP. *)
Definition is_space (c : ascii) : bool :=
  let n := code c in
  between 9 13 n || between 28 32 n || (n =? 133)%nat || (n =? 160)%nat.

(** The [\w] class of [re] on code points below 256: ASCII letters, digits
    and underscore, and the Latin-1 letters and numeric characters. *)
Definition is_word (c : ascii) : bool :=
  let n := code c in
  between 48 57 n || between 65 90 n || (n =? 95)%nat || between 97 122 n
  || (n =? 170)%nat || between 178 179 n || (n =? 181)%nat
  || between 185 186 n || between 188 190 n
  || between 192 214 n || between 216 246 n || between 248 255 n.

Definition is_upper_ascii (c : ascii) : bool := between 65 90 (code c).
Definition is_lower_ascii (c : ascii) : bool := between 97 122 (code c).

Definition to_lower_ascii (c : ascii) : ascii :=
  if is_upper_ascii c then ascii_of_nat (code c + 32) else c.

(** One pattern letter under [re.IGNORECASE].  The pattern letters of this
    program are the ASCII letters of SELECT, FROM and JOIN; below code
    point 256 only their two ASCII forms match. *)
Definition ci_eqb (p c : ascii) : bool :=
  Ascii.eqb (to_lower_ascii p) (to_lower_ascii c).

(** A literal pattern word matched case-insensitively at the head of [s];
    the rest of [s] when it matches. *)
Fixpoint lit_ci (p s : string) : option string :=
  match p with
  | EmptyString => Some s
  | String a p' =>
      match s with
      | EmptyString => None
      | String c s' => if ci_eqb a c then lit_ci p' s' else None
      end
  end.

(** A literal pattern word matched exactly at the head of [s]. *)
Fixpoint lit (p s : string) : option string :=
  match p with
  | EmptyString => Some s
  | String a p' =>
      match s with
      | EmptyString => None
      | String c s' => if Ascii.eqb a c then lit p' s' else None
      end
  end.

(** The longest prefix of characters satisfying [f], and what follows. *)
Fixpoint span (f : ascii -> bool) (s : string) : string * string :=
  match s with
  | EmptyString => (EmptyString, EmptyString)
  | String c s' =>
      if f c then let '(a, b) := span f s' in (String c a, b)
      else (EmptyString, s)
  end.

Fixpoint drop (n : nat) (s : string) : string :=
  match n, s with
  | O, _ => s
  | S n', EmptyString => EmptyString
  | S n', String _ s' => drop n' s'
  end.

(** [s[a:b]] for [0 <= a] and [0 <= b]. *)
Definition slice (a b : nat) (s : string) : string := substring a (b - a) s.

(** [s[:n]]. *)
Definition prefix (n : nat) (s : string) : string := substring 0 n s.

Fixpoint lstrip_by (f : ascii -> bool) (s : string) : string :=
  match s with
  | EmptyString => EmptyString
  | String c s' => if f c then lstrip_by f s' else s
  end.

Fixpoint rstrip_by (f : ascii -> bool) (s : string) : string :=
  match s with
  | EmptyString => EmptyString
  | String c s' =>
      match rstrip_by f s' with
      | EmptyString => if f c then EmptyString else String c EmptyString
      | r => String c r
      end
  end.

(** [s.strip()] *)
Definition strip (s : string) : string := rstrip_by is_space (lstrip_by is_space s).

Definition is_semicolon (c : ascii) : bool := Ascii.eqb c ";".
Definition is_paren (c : ascii) : bool := Ascii.eqb c "(" || Ascii.eqb c ")".

(** [s.rstrip(';')] and [s.strip('()')] *)
Definition rstrip_semicolon (s : string) : string := rstrip_by is_semicolon s.
Definition strip_parens (s : string) : string := rstrip_by is_paren (lstrip_by is_paren s).

Fixpoint last_char (s : string) : option ascii :=
  match s with
  | EmptyString => None
  | String c EmptyString => Some c
  | String _ s' => last_char s'
  end.

Definition first_char (s : string) : option ascii :=
  match s with
  | EmptyString => None
  | String c _ => Some c
  end.

(** No opening parenthesis occurs in [s]. *)
Fixpoint open_free (s : string) : bool :=
  match s with
  | EmptyString => true
  | String c s' => negb (Ascii.eqb c "(") && open_free s'
  end.

(** No parenthesis occurs in [s]. *)
Fixpoint paren_free (s : string) : bool :=
  match s with
  | EmptyString => true
  | String c s' => negb (is_paren c) && paren_free s'
  end.

(** [str(n)] for a non-negative integer. *)
Definition of_nat (n : nat) : string := NilZero.string_of_uint (Nat.to_uint n).

(** [s.upper()].  Below code point 256 the letters a-z and the Latin-1
    lower-case letters map to their capitals, the sharp s becomes SS; the
    capitals of the micro sign and of y-diaeresis lie above 255 and those
    two characters are kept: like their capitals they are word characters
    and differ from every letter of JOIN, the only use made of the
    upper-cased text. *)
Definition upper_char (c : ascii) : string :=
  let n := code c in
  if between 97 122 n || between 224 246 n || between 248 254 n
  then String (ascii_of_nat (n - 32)) EmptyString
  else if (n =? 223)%nat then "SS"
  else String c EmptyString.

Fixpoint upper (s : string) : string :=
  match s with
  | EmptyString => EmptyString
  | String c s' => upper_char c +:+ upper s'
  end.

End PyStr.

(* ===================================================================== *)
(** ** The regular expressions of the program *)
(* ===================================================================== *)

Module Re.
Import PyStr.

(** A pattern anchored at the head of the remaining text: given the
    character before the position (for [\b]) and the remaining text, the
    length of the match and the text of group 1. *)
Definition matcher := option ascii -> string -> option (nat * string).

(** [\b] just before a pattern that starts with a word character: the
    previous character is absent or is not a word character. *)
Definition boundary_before (prev : option ascii) : bool :=
  match prev with
  | None => true
  | Some c => negb (is_word c)
  end.

(** [\b] just after a pattern that ends with a word character. *)
Definition boundary_after (rest : string) : bool :=
  match rest with
  | EmptyString => true
  | String c _ => negb (is_word c)
  end.

(** [\(\s*SELECT] with [IGNORECASE].  The greedy [\s*] takes every
    white-space character; giving some back cannot help, since S is not
    white space. *)
Definition open_select : matcher := fun _ s =>
  match s with
  | String c s1 =>
      if Ascii.eqb c "(" then
        let '(ws, s2) := span is_space s1 in
        match lit_ci "SELECT" s2 with
        | Some _ => Some (1 + String.length ws + 6, EmptyString)
        | None => None
        end
      else None
  | EmptyString => None
  end.

(** [\(\s*SELECT\b] with [IGNORECASE]. *)
Definition open_select_word : matcher := fun _ s =>
  match s with
  | String c s1 =>
      if Ascii.eqb c "(" then
        let '(ws, s2) := span is_space s1 in
        match lit_ci "SELECT" s2 with
        | Some rest =>
            if boundary_after rest
            then Some (1 + String.length ws + 6, EmptyString) else None
        | None => None
        end
      else None
  | EmptyString => None
  end.

(** [\bJOIN\b], case-sensitive (it is applied to upper-cased text). *)
Definition join_word : matcher := fun prev s =>
  if boundary_before prev then
    match lit "JOIN" s with
    | Some rest => if boundary_after rest then Some (4, EmptyString) else None
    | None => None
    end
  else None.

Definition is_token_char (c : ascii) : bool :=
  negb (is_space c || Ascii.eqb c "," || Ascii.eqb c ";").

(** [\b<kw>\s+([^\s,;]+)] with [IGNORECASE], for a four-letter keyword.
    Both greedy runs are maximal: the token cannot start with white space,
    so giving back white space cannot help. *)
Definition keyword_token (kw : string) : matcher := fun prev s =>
  if boundary_before prev then
    match lit_ci kw s with
    | Some s1 =>
        let '(ws, s2) := span is_space s1 in
        let '(tok, _) := span is_token_char s2 in
        match ws, tok with
        | EmptyString, _ => None
        | _, EmptyString => None
        | _, _ =>
            Some (String.length kw + String.length ws + String.length tok, tok)
        end
    | None => None
    end
  else None.

(** [pattern.finditer(s)]: the non-overlapping matches from left to
    right, each as (start, length, group 1).  [i] is the index of the head
    of [s], [prev] the character before it, [skip] the number of
    characters still covered by the previous match.  Every pattern of the
    program matches at least one character. *)
Fixpoint finditer_from (m : matcher) (prev : option ascii) (s : string)
    (i skip : nat) : list (nat * nat * string) :=
  match s with
  | EmptyString => []
  | String c s' =>
      match skip with
      | S k => finditer_from m (Some c) s' (S i) k
      | O =>
          match m prev s with
          | Some (n, g) => (i, n, g) :: finditer_from m (Some c) s' (S i) (n - 1)
          | None => finditer_from m (Some c) s' (S i) 0
          end
      end
  end.

Definition finditer (m : matcher) (s : string) : list (nat * nat * string) :=
  finditer_from m None s 0 0.

End Re.

(* ===================================================================== *)
(** ** Exceptions and the optional parser package *)
(* ===================================================================== *)

(** The classes of exception the program distinguishes.  Its handlers are
    [except sqlite3.DatabaseError] and [except Exception]; every class below
    is an [Exception]. *)
Inductive exn_class : Type :=
| DatabaseError        (* sqlite3.DatabaseError and its subclasses *)
| IndexError
| ZeroDivisionError
| OtherException.      (* any other class: raised by the driver or by a package *)

(** An exception: its class and [str(e)]. *)
Record exn : Type := Exn { exn_cls : exn_class; exn_msg : string }.

Definition is_database_error (e : exn) : bool :=
  match exn_cls e with DatabaseError => true | _ => false end.

Inductive outcome (A : Type) : Type :=
| Ret (a : A)
| Raise (e : exn).
Arguments Ret {A} a.
Arguments Raise {A} e.

(** The optional package [sqlparse] (lines 26-31 of [sql_analyzer.py]):
    whether its import succeeded and, for a text, the exception that
    [sqlparse.parse] raises on it, if it raises one.  The statements that
    [parse] returns are only walked over; nothing of them is kept. *)
Class SqlParse : Type := {
  HAS_SQLPARSE : bool;
  sqlparse_parse : string -> option exn
}.

(* ===================================================================== *)
(** ** Token and pattern extractor *)
(* ===================================================================== *)

(** The iteration order of a Python [set] of strings is not fixed by the
    language; [list(s)] and [next(iter(s))] see the elements of [s], each
    once, in an order of the interpreter's choosing.  In CPython that order
    follows the hash values of the strings, which are salted anew for every
    run of the interpreter: one run is one [SetOrder]. *)
Class SetOrder := {
  set_iter : gset string -> list string;
  set_iter_perm : forall X : gset string, set_iter X ≡ₚ elements X
}.

(** One interpreter: iteration in the order of [elements]. *)
#[global] Program Instance elements_order : SetOrder := {| set_iter X := elements X |}.
Next Obligation. reflexivity. Qed.

(** Another interpreter: iteration in the opposite order. *)
Definition reversed_order : SetOrder :=
  {| set_iter X := reverse (elements X);
     set_iter_perm X := reverse_Permutation (elements X) |}.

Module Extractor.
Import PyStr Re.

(** [count_joins_and_subqueries(sql)] *)
Definition count_joins_and_subqueries (sql : string) : nat * nat :=
  let sql_up := upper sql in
  let join_count := List.length (finditer join_word sql_up) in
  let subquery_count := List.length (finditer open_select_word sql) in
  (join_count, subquery_count).

(** [re.sub(r',$', '', t)]: [$] stands at the end of the text and just
    before a newline that ends the text. *)
Fixpoint sub_trailing_comma (t : string) : string :=
  match t with
  | EmptyString => EmptyString
  | String c r =>
      if Ascii.eqb c ","
      then match r with
           | EmptyString => EmptyString
           | String "010" EmptyString => r
           | _ => String c (sub_trailing_comma r)
           end
      else String c (sub_trailing_comma r)
  end.

(** [re.split(r'\s+AS\s+|\s+', t, flags=re.IGNORECASE)[0]]: both
    alternatives start with white space, so the first piece is the text
    before the first white-space character. *)
Definition split_first (t : string) : string :=
  fst (span (fun c => negb (is_space c)) t).

(** [clean_table_token(token)] *)
Definition clean_table_token (token : string) : string :=
  let t := strip token in
  let t := sub_trailing_comma t in
  let t := split_first t in
  strip_parens t.

(** One loop [for match in re.finditer(...)] of [extract_table_names]:
    the cleaned group 1 of every match is added to [tables]. *)
Definition add_tokens (kw : string) (sql : string) (tables : gset string) : gset string :=
  foldl (fun acc m => {[ clean_table_token (snd m) ]} ∪ acc) tables
        (finditer (keyword_token kw) sql).

(** The [if HAS_SQLPARSE:] block of [extract_table_names]: the call
    [sqlparse.parse(sql)], then the loops over the statements and their
    tokens, which read [token.ttype] and [str(token)] and record nothing.
    The block has no result; it raises what [parse] raises. *)
Definition sqlparse_block `{SqlParse} (sql : string) : option exn :=
  if HAS_SQLPARSE then sqlparse_parse sql else None.

(** [extract_table_names(sql)]: the names come from the two
    regular-expression passes, which run once the [sqlparse] block is
    through. *)
Definition extract_table_names `{SqlParse} `{SetOrder} (sql : string)
    : outcome (list string) :=
  let tables : gset string := ∅ in
  match sqlparse_block sql with
  | Some e => Raise e
  | None =>
      let tables := add_tokens "FROM" sql tables in
      let tables := add_tokens "JOIN" sql tables in
      Ret (set_iter tables)
  end.

(** The [while i < len(sql)] loop of [extract_subqueries]: [s] is
    [sql[i:]]; the index of the parenthesis that brings [depth] back to
    0, if there is one. *)
Fixpoint find_close (s : string) (i : nat) (depth : Z) : option nat :=
  match s with
  | EmptyString => None
  | String c s' =>
      if Ascii.eqb c "(" then find_close s' (S i) (depth + 1)
      else if Ascii.eqb c ")" then
        let depth := (depth - 1)%Z in
        if (depth =? 0)%Z then Some i else find_close s' (S i) depth
      else find_close s' (S i) depth
  end.

(** The body of the [for m in pattern.finditer(sql)] loop. *)
Definition fragment_at (sql : string) (start : nat) : list string :=
  match find_close (drop start sql) start 0 with
  | Some i => [slice start (i + 1) sql]
  | None => []
  end.

(** [extract_subqueries(sql)] *)
Definition extract_subqueries (sql : string) : list string :=
  flat_map (fun m => fragment_at sql (fst (fst m))) (finditer open_select sql).

End Extractor.

Import PyStr Re Extractor.


(* ===================================================================== *)
(** ** Exceptions, the connection and the monad of effects *)
(* ===================================================================== *)

(** A result row; column 1 of a [PRAGMA table_info] row is the column name. *)
Definition row : Type := list string.

(** What the program asks of its environment: a database behind an open
    connection, two clocks, and [str] on a result row.
    [run_statement sql] is [cur.execute(sql)] followed by [cur.fetchall()]. *)
Class Engine : Type := {
  world : Type;
  run_statement : string -> world -> (list row + exn) * world;
  perf_counter : world -> Q * world;
  wall_clock : world -> Q * world;
  str_row : row -> string
}.

Section Monad.
Context `{Engine}.

Record state : Type := State { conn : world; stdout : list string }.

Definition M (A : Type) : Type := state -> outcome A * state.

Definition ret {A} (a : A) : M A := fun st => (Ret a, st).

Definition raise {A} (e : exn) : M A := fun st => (Raise e, st).

Definition bind {A B} (m : M A) (k : A -> M B) : M B := fun st =>
  match m st with
  | (Ret a, st') => k a st'
  | (Raise e, st') => (Raise e, st')
  end.

(** A call that touches neither the connection nor the output. *)
Definition lift {A} (o : outcome A) : M A := fun st => (o, st).

(** [try: m  except Exception as e: h e] *)
Definition try_except {A} (m : M A) (h : exn -> M A) : M A := fun st =>
  match m st with
  | (Ret a, st') => (Ret a, st')
  | (Raise e, st') => h e st'
  end.

(** [try: m  except sqlite3.DatabaseError as e: h e] *)
Definition try_except_database {A} (m : M A) (h : exn -> M A) : M A := fun st =>
  match m st with
  | (Ret a, st') => (Ret a, st')
  | (Raise e, st') => if is_database_error e then h e st' else (Raise e, st')
  end.

(** [print(line)] *)
Definition print (line : string) : M unit := fun st =>
  (Ret tt, {| conn := conn st; stdout := stdout st ++ [line] |}).

(** [cur.execute(sql)] then [cur.fetchall()] *)
Definition execute_fetchall (sql : string) : M (list row) := fun st =>
  match run_statement sql (conn st) with
  | (inl rows, w) => (Ret rows, {| conn := w; stdout := stdout st |})
  | (inr e, w) => (Raise e, {| conn := w; stdout := stdout st |})
  end.

(** [time.perf_counter()] *)
Definition perf_counter_now : M Q := fun st =>
  let '(t, w) := perf_counter (conn st) in
  (Ret t, {| conn := w; stdout := stdout st |}).

(** [time.time()] *)
Definition time_now : M Q := fun st =>
  let '(t, w) := wall_clock (conn st) in
  (Ret t, {| conn := w; stdout := stdout st |}).

(** [a / b] for a float [a] and an integer [b]. *)
Definition truediv (a : Q) (b : Z) : M Q :=
  if (b =? 0)%Z then raise (Exn ZeroDivisionError "float division by zero")
  else ret (a / inject_Z b)%Q.

End Monad.

Declare Scope monad_scope.
Delimit Scope monad_scope with monad.
Notation "x <- m ;; k" := (bind m (fun x => k))
  (at level 100, m at next level, right associativity) : monad_scope.
Notation "m ;;; k" := (bind m (fun _ => k))
  (at level 100, right associativity) : monad_scope.
Local Open Scope monad_scope.

(* ===================================================================== *)
(** ** Steps and reports *)
(* ===================================================================== *)

Inductive step_type : Type :=
| explain_step | table_scan | join | subquery | query.

(** The named tuple [Step]. *)
Record Step : Type := mkStep {
  name : string;
  type : step_type;
  duration_s : option Q;
  detail : string
}.

(** A Python [dict] with string keys, in insertion order. *)
Definition dict (V : Type) : Type := list (string * V).

(** [d[k] = v]: an existing key keeps its place. *)
Fixpoint dict_set {V} (k : string) (v : V) (d : dict V) : dict V :=
  match d with
  | [] => [(k, v)]
  | (k', v') :: d' =>
      if String.eqb k k' then (k', v) :: d' else (k', v') :: dict_set k v d'
  end.

(** The [report] dictionary of [analyze_query]. *)
Record Report : Type := mkReport {
  join_count : nat;
  subquery_count : nat;
  tables : list string;
  explain : list row;
  full_query_duration_s : option Q;
  timeline : list Step;
  bottlenecks : list Step;
  table_costs : dict (option Q);
  join_costs : dict (option Q);
  subquery_costs : dict (option Q)
}.

(** [d or 0.0] for a duration [d] that may be [None]. *)
Definition or_zero (d : option Q) : Q :=
  match d with
  | Some q => if Qeq_bool q 0 then 0%Q else q
  | None => 0%Q
  end.

(** The sort key of [analyze_query]:
    [s['duration_s'] if s['duration_s'] is not None else 0.0]. *)
Definition sort_key (s : Step) : Q :=
  match duration_s s with
  | Some q => q
  | None => 0%Q
  end.

(** [sorted(l, key=sort_key, reverse=True)].  Python's sort is stable, also
    under [reverse=True]: elements with equal keys keep their order.  It is
    embedded as the insertion sort with that behaviour. *)
Fixpoint insert_desc (x : Step) (l : list Step) : list Step :=
  match l with
  | [] => [x]
  | y :: l' =>
      if Qle_bool (sort_key y) (sort_key x) then x :: y :: l'
      else y :: insert_desc x l'
  end.

Fixpoint sorted_desc (l : list Step) : list Step :=
  match l with
  | [] => []
  | x :: l' => insert_desc x (sorted_desc l')
  end.

(** [step['duration_s'] and step['duration_s'] > 0] *)
Definition is_bottleneck (s : Step) : bool :=
  match duration_s s with
  | Some q => negb (Qeq_bool q 0) && negb (Qle_bool q 0)
  | None => false
  end.

(** The bottleneck loop of [analyze_query] over [timeline_sorted[:5]]. *)
Definition select_bottlenecks (timeline_sorted : list Step) : list Step :=
  List.filter is_bottleneck (take 5 timeline_sorted).

(** A timeline in descending order of the sort key. *)
Definition descending (l : list Step) : Prop :=
  StronglySorted (fun a b => (sort_key b <= sort_key a)%Q) l.

(** A step with a measured duration that is strictly positive. *)
Definition positive_duration (s : Step) : bool :=
  match duration_s s with
  | Some q => negb (Qle_bool q 0)
  | None => false
  end.

(** The steps whose sort key equals [q]. *)
Definition with_key (q : Q) (l : list Step) : list Step :=
  List.filter (fun s => Qeq_bool (sort_key s) q) l.

(* ===================================================================== *)
(** ** Probe runner, plan introspection and cost estimation
       ([sql_analyzer.py]) *)
(* ===================================================================== *)

(** The second component of what [time_query] returns: the rows of the last
    timed execution ([None] when the loop ran no statement), or the text of
    the error. *)
Inductive payload : Type :=
| Results (rows : option (list row))
| ErrorText (msg : string).

Section Analyzer.
Context `{Engine} `{SqlParse} `{SetOrder}.
Import PyStr Extractor.

(** [explain_query_plan(conn, sql)] *)
Definition explain_query_plan (sql : string) : M (list row) :=
  try_except_database
    (execute_fetchall ("EXPLAIN QUERY PLAN " +:+ sql))
    (fun e => print ("EXPLAIN failed: " +:+ exn_msg e) ;;; ret []).

(** The timed loop [for _ in range(iterations)] of [time_query];
    [results] is the variable of that name. *)
Fixpoint run_iterations (n : nat) (sql : string) (results : option (list row))
    : M (option (list row)) :=
  match n with
  | O => ret results
  | S n' => rows <- execute_fetchall sql ;; run_iterations n' sql (Some rows)
  end.

(** [time_query(conn, sql, warmup, iterations)] *)
Definition time_query (sql : string) (warmup : bool) (iterations : Z)
    : M (option Q * payload) :=
  (if warmup
   then try_except (execute_fetchall sql ;;; ret tt) (fun _ => ret tt)
   else ret tt) ;;;
  start <- perf_counter_now ;;
  timed <- try_except
             (results <- run_iterations (Z.to_nat iterations) sql None ;;
              ret (inl results))
             (fun e => ret (inr (exn_msg e))) ;;
  match timed with
  | inr msg => ret (None, ErrorText msg)
  | inl results =>
      stop <- perf_counter_now ;;
      let elapsed := (stop - start)%Q in
      per_iter <- truediv elapsed (Z.max 1 iterations) ;;
      ret (Some per_iter, Results results)
  end.

(** The call [time_query(conn, sql)] with the defaults
    [warmup=True, iterations=1]. *)
Definition time_query_default (sql : string) : M (option Q * payload) :=
  time_query sql true 1.

(** The loop of [estimate_table_costs] over the tables still to visit. *)
Fixpoint estimate_table_costs_loop (ts : list string) (costs : dict (option Q))
    : M (dict (option Q)) :=
  match ts with
  | [] => ret costs
  | t :: ts' =>
      costs <- try_except
                 (let sql := "SELECT COUNT(*) FROM " +:+ t in
                  r <- time_query_default sql ;;
                  match fst r with
                  | None => ret (dict_set t None costs)
                  | Some dur => ret (dict_set t (Some dur) costs)
                  end)
                 (fun _ => ret (dict_set t None costs)) ;;
      estimate_table_costs_loop ts' costs
  end.

(** [estimate_table_costs(conn, tables)] *)
Definition estimate_table_costs (tables : list string) : M (dict (option Q)) :=
  estimate_table_costs_loop tables [].

(** [[r[1] for r in rows]] *)
Fixpoint column_names (rows : list row) : M (list string) :=
  match rows with
  | [] => ret []
  | r :: rows' =>
      match r !! 1%nat with
      | Some c => cs <- column_names rows' ;; ret (c :: cs)
      | None => raise (Exn IndexError "tuple index out of range")
      end
  end.

(** Truth value of an optional string: [None] and the empty string are
    false. *)
Definition truthy (s : option string) : bool :=
  match s with
  | Some EmptyString => false
  | Some _ => true
  | None => false
  end.

(** The statement [estimate_join_cost] builds once the two column lists
    are known.  [next(iter(common))] is the first element in the
    iteration order of the set, which has one exactly when [common] is
    not empty. *)
Definition join_probe_sql (base_left base_right : string)
    (join_condition : option string) (left_cols right_cols : list string) : string :=
  let common : gset string := list_to_set left_cols ∩ list_to_set right_cols in
  let cond :=
    if truthy join_condition then join_condition
    else match set_iter common with
         | c :: _ => Some (base_left +:+ "." +:+ c +:+ " = " +:+ base_right +:+ "." +:+ c)
         | [] => None
         end in
  if truthy cond
  then "SELECT COUNT(*) FROM " +:+ base_left +:+ " JOIN " +:+ base_right
       +:+ " ON " +:+ default EmptyString cond
  else "SELECT COUNT(*) FROM " +:+ base_left +:+ ", " +:+ base_right +:+ " LIMIT 1000".

(** The [try] block of [estimate_join_cost] that reads the two column
    lists; any exception leaves both empty. *)
Definition table_columns (base_left base_right : string)
    : M (list string * list string) :=
  try_except
    (lrows <- execute_fetchall ("PRAGMA table_info(" +:+ base_left +:+ ")") ;;
     left_cols <- column_names lrows ;;
     rrows <- execute_fetchall ("PRAGMA table_info(" +:+ base_right +:+ ")") ;;
     right_cols <- column_names rrows ;;
     ret (left_cols, right_cols))
    (fun _ => ret ([], [])).

(** [estimate_join_cost(conn, left_table, right_table, join_condition)] *)
Definition estimate_join_cost (left_table right_table : string)
    (join_condition : option string) : M (option Q) :=
  cols <- table_columns left_table right_table ;;
  let sql := join_probe_sql left_table right_table join_condition (fst cols) (snd cols) in
  r <- time_query_default sql ;;
  ret (fst r).

(** [tables[i]] *)
Definition index (tables : list string) (i : nat) : M string :=
  match tables !! i with
  | Some t => ret t
  | None => raise (Exn IndexError "list index out of range")
  end.

(** The name of a join step: the two tables around the two characters with
    code points 226 and 168 that the source file holds there. *)
Definition join_step_name (left right : string) : string :=
  "Join " +:+ left +:+ String " " (String "226" (String "168" (String " " EmptyString)))
  +:+ right.

(** The loop [for j in range(i+1, len(tables))] of [analyze_query];
    the accumulator is ([join_costs], [timeline]). *)
Fixpoint join_inner_loop (tables : list string) (i : nat) (js : list nat)
    (acc : dict (option Q) * list Step) : M (dict (option Q) * list Step) :=
  match js with
  | [] => ret acc
  | j :: js' =>
      left <- index tables i ;;
      right <- index tables j ;;
      dur <- estimate_join_cost left right None ;;
      let key := left +:+ "<> " +:+ right in
      join_inner_loop tables i js'
        (dict_set key dur (fst acc),
         snd acc ++ [mkStep (join_step_name left right) join (Some (or_zero dur))
                            "pairwise join COUNT(*)"])
  end.

(** The loop [for i in range(len(tables))]. *)
Fixpoint join_outer_loop (tables : list string) (rows_i : list nat)
    (acc : dict (option Q) * list Step) : M (dict (option Q) * list Step) :=
  match rows_i with
  | [] => ret acc
  | i :: rest_i =>
      acc <- join_inner_loop tables i
               (seq (i + 1) (List.length tables - (i + 1))) acc ;;
      join_outer_loop tables rest_i acc
  end.

(** The removal of the surrounding parentheses of a fragment:
    [ssql = sub.strip()], then [ssql[1:-1]] when [ssql[0] == '('] and
    [ssql[-1] == ')']. *)
Definition strip_outer_parens (sub : string) : M string :=
  let ssql := strip sub in
  match first_char ssql with
  | None => raise (Exn IndexError "string index out of range")
  | Some c =>
      if Ascii.eqb c "(" && bool_decide (last_char ssql = Some ")"%char)
      then ret (slice 1 (String.length ssql - 1) ssql)
      else ret ssql
  end.

(** The loop [for idx, sub in enumerate(subqueries, start=1)];
    the accumulator is ([subq_costs], [timeline]). *)
Fixpoint subquery_loop (idx : nat) (subs : list string)
    (acc : dict (option Q) * list Step) : M (dict (option Q) * list Step) :=
  match subs with
  | [] => ret acc
  | sub :: subs' =>
      ssql <- strip_outer_parens sub ;;
      r <- time_query_default ssql ;;
      let dur := fst r in
      subquery_loop (S idx) subs'
        (dict_set ("subquery_" +:+ of_nat idx) dur (fst acc),
         snd acc ++ [mkStep ("Subquery " +:+ of_nat idx) subquery (Some (or_zero dur))
                            (prefix 200 ssql)])
  end.

(** The steps appended by the loop [for row in report['explain']]. *)
Definition explain_steps (rows : list row) : list Step :=
  map (fun r => mkStep (str_row r) explain_step (Some 0%Q) (str_row r)) rows.

(** The steps appended by the loop [for t, d in table_costs.items()]. *)
Definition table_steps (costs : dict (option Q)) : list Step :=
  map (fun td => mkStep ("Table scan: " +:+ fst td) table_scan
                        (Some (or_zero (snd td))) "COUNT(*) estimate") costs.

(** [analyze_query(conn, sql)], returning with the report the list
    [timeline] as it stands just before it is sorted. *)
Definition analyze_query_timeline (sql : string) : M (Report * list Step) :=
  let sql := rstrip_semicolon (strip sql) in
  let '(join_count, subquery_count) := count_joins_and_subqueries sql in
  tables <- lift (extract_table_names sql) ;;
  explain <- explain_query_plan sql ;;
  print "Timing full query..." ;;;
  full <- time_query sql true 1 ;;
  let full_dur := fst full in
  let timeline := [] in
  let timeline := timeline ++ explain_steps explain in
  print "Estimating per-table costs..." ;;;
  table_costs <- estimate_table_costs tables ;;
  let timeline := timeline ++ table_steps table_costs in
  joined <- (if (2 <=? List.length tables)%nat
             then print "Estimating join costs (pairwise)..." ;;;
                  join_outer_loop tables (seq 0 (List.length tables)) ([], timeline)
             else ret ([], timeline)) ;;
  let '(join_costs, timeline) := joined in
  let subqueries := extract_subqueries sql in
  subq <- (match subqueries with
           | [] => ret ([], timeline)
           | _ => print "Timing subqueries..." ;;;
                  subquery_loop 1 subqueries ([], timeline)
           end) ;;
  let '(subq_costs, timeline) := subq in
  let timeline := timeline ++ [mkStep "Full query execution" query
                                      (Some (or_zero full_dur)) (prefix 400 sql)] in
  let timeline_sorted := sorted_desc timeline in
  let bottlenecks := select_bottlenecks timeline_sorted in
  ret (mkReport join_count subquery_count tables explain full_dur
                timeline_sorted bottlenecks table_costs join_costs subq_costs,
       timeline).

(** [analyze_query(conn, sql)] *)
Definition analyze_query (sql : string) : M Report :=
  r <- analyze_query_timeline sql ;; ret (fst r).

End Analyzer.

(* ===================================================================== *)
(** ** The analysis of the desktop front-end ([sql_gui_analyzer.py]) *)
(* ===================================================================== *)

(** What [analyze_sql] leaves behind: an error dialog, or the data from
    which its reports are rendered. *)
Inductive gui_outcome : Type :=
| ShowError (title message : string)
| Analysed (tables : list string) (explain_rows : list row) (exec_time : option Q)
           (timeline_sorted bottlenecks : list Step).

Module Gui.
Section Gui.
Context `{Engine} `{SetOrder}.

(** [<kw>\s+([^\s;]+)] with [IGNORECASE]: no word boundary, and a token
    that stops at white space and semicolons only. *)
Definition keyword_token (kw : string) : matcher := fun _ s =>
  match lit_ci kw s with
  | Some s1 =>
      let '(ws, s2) := span is_space s1 in
      let '(tok, _) := span (fun c => negb (is_space c || Ascii.eqb c ";")) s2 in
      match ws, tok with
      | EmptyString, _ => None
      | _, EmptyString => None
      | _, _ => Some (String.length kw + String.length ws + String.length tok, tok)
      end
  | None => None
  end.

(** [extract_tables(sql)] *)
Definition extract_tables (sql : string) : list string :=
  let tables : gset string := ∅ in
  let tables := list_to_set (map snd (finditer (keyword_token "FROM") sql)) ∪ tables in
  let tables := list_to_set (map snd (finditer (keyword_token "JOIN") sql)) ∪ tables in
  set_iter tables.

(** [explain_query(conn, sql)] *)
Definition explain_query (sql : string) : M (list row) :=
  try_except
    (execute_fetchall ("EXPLAIN QUERY PLAN " +:+ sql))
    (fun e => ret [["EXPLAIN FAILED"; exn_msg e]]).

(** [time_query(conn, sql)] *)
Definition time_query (sql : string) : M (option Q * option string) :=
  start <- time_now ;;
  try_except
    (execute_fetchall sql ;;;
     stop <- time_now ;;
     ret (Some (stop - start)%Q, None))
    (fun e => ret (None, Some (exn_msg e))).

(** The body shared by [table_scan_time] and [join_cost]: the time of one
    statement, 0 when anything fails. *)
Definition statement_time (sql : string) : M Q :=
  try_except
    (start <- time_now ;;
     execute_fetchall sql ;;;
     stop <- time_now ;;
     ret (stop - start)%Q)
    (fun _ => ret 0%Q).

(** [table_scan_time(conn, table)] *)
Definition table_scan_time (table : string) : M Q :=
  statement_time ("SELECT COUNT(*) FROM " +:+ table).

(** [join_cost(conn, t1, t2)] *)
Definition join_cost (t1 t2 : string) : M Q :=
  statement_time ("SELECT COUNT(*) FROM " +:+ t1 +:+ ", " +:+ t2 +:+ " LIMIT 2000").

(** The name of a join step; the source has the character U+2A1D between
    the tables, written here as its three UTF-8 bytes. *)
Definition join_step_name (t1 t2 : string) : string :=
  "Join " +:+ t1
  +:+ String " " (String "226" (String "168" (String "157" (String " " EmptyString))))
  +:+ t2.

(** The steps of the front-end have no detail. *)
Definition step (name : string) (type : step_type) (duration : Q) : Step :=
  mkStep name type (Some duration) EmptyString.

Fixpoint table_loop (ts : list string) (timeline : list Step) : M (list Step) :=
  match ts with
  | [] => ret timeline
  | t :: ts' =>
      d <- table_scan_time t ;;
      table_loop ts' (timeline ++ [step ("Table scan: " +:+ t) table_scan d])
  end.

Fixpoint join_inner_loop (tables : list string) (i : nat) (js : list nat)
    (timeline : list Step) : M (list Step) :=
  match js with
  | [] => ret timeline
  | j :: js' =>
      t1 <- index tables i ;;
      t2 <- index tables j ;;
      d <- join_cost t1 t2 ;;
      join_inner_loop tables i js' (timeline ++ [step (join_step_name t1 t2) join d])
  end.

Fixpoint join_outer_loop (tables : list string) (rows_i : list nat)
    (timeline : list Step) : M (list Step) :=
  match rows_i with
  | [] => ret timeline
  | i :: rest_i =>
      timeline <- join_inner_loop tables i
                    (seq (i + 1) (List.length tables - (i + 1))) timeline ;;
      join_outer_loop tables rest_i timeline
  end.

(** [analyze_sql()], on the text of the input box, up to the selection of
    the bottlenecks.  The two counts of joins and subqueries, which only go
    into the rendered report, are left out.  When the query failed with an
    empty error text the source goes on with a null [exec_time] and stops
    with a [TypeError] before it shows anything, in the sort or in the
    formatting of the report. *)
Definition analyze_sql (text : string) : M gui_outcome :=
  let sql := strip text in
  match sql with
  | EmptyString => ret (ShowError "Error" "Please enter SQL query.")
  | _ =>
      let tables := extract_tables sql in
      explain_rows <- explain_query sql ;;
      timed <- time_query sql ;;
      let '(exec_time, error) := timed in
      if truthy error
      then ret (ShowError "SQL Error" (default EmptyString error))
      else
        timeline <- table_loop tables [] ;;
        timeline <- join_outer_loop tables (seq 0 (List.length tables)) timeline ;;
        match exec_time with
        | None => raise (Exn OtherException "TypeError")
        | Some t =>
            let timeline := timeline ++ [step "Full query execution" query t] in
            let timeline_sorted := sorted_desc timeline in
            let bottlenecks := take 5 timeline_sorted in
            ret (Analysed tables explain_rows exec_time timeline_sorted bottlenecks)
        end
  end.

End Gui.
End Gui.

(* ===================================================================== *)
(** ** Vocabulary of the specification *)
(* ===================================================================== *)

(** The query text [analyze_query] works on: [sql.strip().rstrip(';')]. *)
Definition normalized (sql : string) : string := rstrip_semicolon (strip sql).

(** The pairs [(i, j)] with [i < j < n] for the rows [i] of [rows_i], in the
    order of the two nested loops: by [i], then by [j]. *)
Definition pairs_for (n : nat) (rows_i : list nat) : list (nat * nat) :=
  flat_map (fun i => map (pair i) (seq (i + 1) (n - (i + 1)))) rows_i.

(** All the pairs [(i, j)] with [i < j < n], in that order. *)
Definition pair_indices (n : nat) : list (nat * nat) := pairs_for n (seq 0 n).

(** The join step and the key of [join_costs] for the tables at the
    positions [ij], given the duration [d] measured for them. *)
Definition join_step (tables : list string) (ij : nat * nat) (d : option Q) : Step :=
  mkStep (join_step_name (nth (fst ij) tables EmptyString) (nth (snd ij) tables EmptyString))
         join (Some (or_zero d)) "pairwise join COUNT(*)".

Definition join_entry (tables : list string) (ij : nat * nat) (d : option Q)
    : string * option Q :=
  (nth (fst ij) tables EmptyString +:+ "<> " +:+ nth (snd ij) tables EmptyString, d).

(** [enumerate(subqueries, start=1)] *)
Definition numbered (subs : list string) : list (nat * string) :=
  zip (seq 1 (List.length subs)) subs.

(** A fragment without its first and last character. *)
Definition inner_text (f : string) : string := slice 1 (String.length f - 1) f.

(** The subquery step and the entry of [subquery_costs] for the numbered
    fragment [k], given the duration [d] measured for it. *)
Definition subquery_step (k : nat * string) (d : option Q) : Step :=
  mkStep ("Subquery " +:+ of_nat (fst k)) subquery (Some (or_zero d))
         (prefix 200 (inner_text (snd k))).

Definition subquery_entry (k : nat * string) (d : option Q) : string * option Q :=
  ("subquery_" +:+ of_nat (fst k), d).

(** The step of one row of the plan. *)
Definition plan_step `{Engine} (r : row) : Step :=
  mkStep (str_row r) explain_step (Some 0%Q) (str_row r).

(** The step of the table [t], given the duration [d] measured for it. *)
Definition table_step (t : string) (d : option Q) : Step :=
  mkStep ("Table scan: " +:+ t) table_scan (Some (or_zero d)) "COUNT(*) estimate".

(** The step of the full query over the text [q], given its duration. *)
Definition full_step (q : string) (d : option Q) : Step :=
  mkStep "Full query execution" query (Some (or_zero d)) (prefix 400 q).

(** The dictionary obtained by assigning the entries in order. *)
Definition assign_all {V} (d : dict V) (kvs : list (string * V)) : dict V :=
  foldl (fun d kv => dict_set (fst kv) (snd kv) d) d kvs.

(** What one analysis of [sql] produces: the report [r] and the timeline
    [pre] before sorting, in terms of the durations measured for the
    tables ([tds]), the table pairs ([jds]) and the fragments ([sds]). *)
Definition analysis_shape `{Engine} `{SqlParse} `{SetOrder} (sql : string) (r : Report)
    (pre : list Step) : Prop :=
  let q := normalized sql in
  let subs := extract_subqueries q in
  let pairs := pair_indices (List.length (tables r)) in
  exists tds jds sds : list (option Q),
    List.length tds = List.length (tables r)
    /\ List.length jds = List.length pairs
    /\ List.length sds = List.length subs
    /\ extract_table_names q = Ret (tables r)
    /\ table_costs r = zip (tables r) tds
    /\ join_costs r = assign_all [] (zip_with (join_entry (tables r)) pairs jds)
    /\ subquery_costs r = assign_all [] (zip_with subquery_entry (numbered subs) sds)
    /\ pre = map plan_step (explain r)
             ++ zip_with table_step (tables r) tds
             ++ zip_with (join_step (tables r)) pairs jds
             ++ zip_with subquery_step (numbered subs) sds
             ++ [full_step q (full_query_duration_s r)]
    /\ timeline r = sorted_desc pre
    /\ bottlenecks r = select_bottlenecks (timeline r).

(** The optional package [sqlparse] is missing, or it parses the text that
    the analysis of [sql] works on. *)
Definition parses `{SqlParse} (sql : string) : Prop :=
  sqlparse_block (normalized sql) = None.

(** The nested query of the specification. *)
Definition nested_query : string := "(SELECT x FROM (SELECT y FROM t))".

(** The plan statement of [sql], run in world [w], yields rows or raises a
    [sqlite3.DatabaseError]. *)
Definition plan_readable `{Engine} (sql : string) (w : world) : Prop :=
  match fst (run_statement ("EXPLAIN QUERY PLAN " +:+ normalized sql) w) with
  | inl _ => True
  | inr e => is_database_error e = true
  end.


(** [[r[1] for r in rows]] when every row has a column 1. *)
Definition names_of (rows : list row) : list string := map (fun r => nth 1 r EmptyString) rows.

(** [n] executions of [sql] in a row, all successful, from world [w] to
    world [w']; [last] is the result of the last one ([first] when
    [n = 0]). *)
Inductive runs `{Engine} (sql : string)
  : nat -> world -> option (list row) -> world -> option (list row) -> Prop :=
| runs_done w first : runs sql 0 w first w first
| runs_step n w first rows w1 w' last :
    run_statement sql w = (inl rows, w1) ->
    runs sql n w1 (Some rows) w' last ->
    runs sql (S n) w first w' last.

(** Fewer than [n] successful executions of [sql] from world [w], then one
    that fails with [e], leaving world [w']. *)
Inductive fails_within `{Engine} (sql : string) : nat -> world -> exn -> world -> Prop :=
| fails_now n w e w' :
    run_statement sql w = (inr e, w') -> fails_within sql (S n) w e w'
| fails_later n w rows w1 e w' :
    run_statement sql w = (inl rows, w1) ->
    fails_within sql n w1 e w' ->
    fails_within sql (S n) w e w'.

(** The world after the warm-up execution of [time_query], whose rows and
    errors are discarded. *)
Definition after_warmup `{Engine} (warmup : bool) (sql : string) (w : world) : world :=
  if warmup then snd (run_statement sql w) else w.

(* ===================================================================== *)
(** ** The report printer of the terminal analyzer and the PDF writer of
       the desktop front-end *)
(* ===================================================================== *)

(** The formatting built into Python that the reports rely on:
    [f"{d:.6f}"] and [str(d)] for a float, [str(l)] for a list of
    strings. *)
Class Formatting : Type := {
  fixed6 : Q -> string;
  str_float : Q -> string;
  str_strings : list string -> string
}.

(** The value of the [type] field of a step. *)
Definition type_name (t : step_type) : string :=
  match t with
  | explain_step => "explain_step"
  | table_scan => "table_scan"
  | join => "join"
  | subquery => "subquery"
  | query => "query"
  end.

Fixpoint spaces (n : nat) : string :=
  match n with
  | O => EmptyString
  | S n' => String " " (spaces n')
  end.

(** [f"{s:<n>s}"]: [s] padded with spaces on the right up to width [n]. *)
Definition pad (n : nat) (s : string) : string := s +:+ spaces (n - String.length s).

(** [f"{d:.6f}"] for a duration that may be [None]. *)
Definition format_duration `{Formatting} (d : option Q) : outcome string :=
  match d with
  | Some q => Ret (fixed6 q)
  | None =>
      Raise (Exn OtherException
               "TypeError: unsupported format string passed to NoneType.__format__")
  end.

(** [str(d)] for a duration that may be [None]. *)
Definition str_duration `{Formatting} (d : option Q) : string :=
  match d with
  | Some q => str_float q
  | None => "None"
  end.

Section Printer.
Context `{Engine} `{Formatting}.

(** The loop of [print_report] over the first ten steps. *)
Fixpoint print_timeline (steps : list Step) : M unit :=
  match steps with
  | [] => ret tt
  | step :: steps' =>
      let dur := duration_s step in
      match format_duration dur with
      | Raise e => raise e
      | Ret shown =>
          print (" - " +:+ pad 10 (type_name (type step)) +:+ " | "
                 +:+ pad 60 (prefix 60 (name step)) +:+ " | " +:+ shown +:+ "s") ;;;
          print_timeline steps'
      end
  end.

(** The loop of [print_report] over the bottlenecks. *)
Fixpoint print_bottlenecks (steps : list Step) : M unit :=
  match steps with
  | [] => ret tt
  | b :: steps' =>
      match format_duration (duration_s b) with
      | Raise e => raise e
      | Ret shown =>
          print (" * " +:+ type_name (type b) +:+ " - " +:+ prefix 80 (name b)
                 +:+ " : " +:+ shown +:+ "s") ;;;
          print_bottlenecks steps'
      end
  end.

(** The loop of [print_report] over the plan rows. *)
Fixpoint print_rows (rows : list row) : M unit :=
  match rows with
  | [] => ret tt
  | r :: rows' => print ("   " +:+ str_row r) ;;; print_rows rows'
  end.

Definition newline : string := String "010" EmptyString.

(** [print_report(report)] *)
Definition print_report (report : Report) : M unit :=
  print (newline +:+ "=== SQL ANALYSIS REPORT ===") ;;;
  print ("Join count: " +:+ of_nat (join_count report)) ;;;
  print ("Subquery count: " +:+ of_nat (subquery_count report)) ;;;
  print ("Tables: " +:+ str_strings (tables report)) ;;;
  print ("Full query duration (s): " +:+ str_duration (full_query_duration_s report)) ;;;
  print (newline +:+ "Top timeline steps (sorted by measured duration):") ;;;
  print_timeline (take 10 (timeline report)) ;;;
  print (newline +:+ "Bottlenecks:") ;;;
  print_bottlenecks (bottlenecks report) ;;;
  print (newline +:+ "EXPLAIN QUERY PLAN (raw):") ;;;
  print_rows (explain report) ;;;
  print (newline +:+ "(Report also saved to sql_analysis_report.json)").

End Printer.

(** What [generate_pdf] asks of the canvas, in order. *)
Inductive canvas_op : Type :=
| SetFont (font : string) (size : Z)
| DrawString (x y : Q) (text : string)
| ShowPage
| Save.

(** [text.split("\n")]: the pieces between the newlines, [cur] being the
    piece read so far. *)
Fixpoint split_lines_from (cur : string) (text : string) : list string :=
  match text with
  | EmptyString => [cur]
  | String c text' =>
      if Ascii.eqb c "010" then cur :: split_lines_from EmptyString text'
      else split_lines_from (cur +:+ String c EmptyString) text'
  end.

Definition split_lines (text : string) : list string := split_lines_from EmptyString text.

Section Pdf.
Context `{Engine} `{Formatting}.

(** The page height of the canvas: the second component of [letter]. *)
Variable height : Q.

(** The three loops of [generate_pdf]: one line per element, formatted by
    [fmt], drawn 15 points below the previous one; a new page is started
    when [y] is below 40, and [refont] tells whether the loop sets the font
    again on the new page. *)
Fixpoint draw_items {A} (fmt : A -> outcome string) (refont : bool) (y : Q)
    (items : list A) : outcome (list canvas_op) :=
  match items with
  | [] => Ret []
  | item :: items' =>
      match fmt item with
      | Raise e => Raise e
      | Ret line =>
          let break := negb (Qle_bool 40 y) in
          let y' := if break then (height - 50)%Q else y in
          match draw_items fmt refont (y' - 15)%Q items' with
          | Raise e => Raise e
          | Ret ops =>
              Ret ((if break
                    then ShowPage :: (if refont then [SetFont "Helvetica" 9] else [])
                    else [])
                   ++ DrawString 50 y' line :: ops)
          end
      end
  end.

(** The line of the timeline page for one step:
    [f"{t['type']} | {t['name']} | {t['duration']:.6f}s"]. *)
Definition timeline_line (t : Step) : outcome string :=
  match format_duration (duration_s t) with
  | Ret shown => Ret (type_name (type t) +:+ " | " +:+ name t +:+ " | " +:+ shown +:+ "s")
  | Raise e => Raise e
  end.

(** [generate_pdf(report_text, timeline, explain_rows)]: the operations on
    the canvas, up to [c.save()]. *)
Definition generate_pdf (report_text : string) (timeline : list Step)
    (explain_rows : list row) : outcome (list canvas_op) :=
  match draw_items Ret true (height - 50 - 40)%Q (split_lines report_text) with
  | Raise e => Raise e
  | Ret text_ops =>
      match draw_items timeline_line true (height - 80)%Q timeline with
      | Raise e => Raise e
      | Ret timeline_ops =>
          match draw_items (fun r => Ret (str_row r)) false (height - 80)%Q explain_rows with
          | Raise e => Raise e
          | Ret explain_ops =>
              Ret ([SetFont "Helvetica-Bold" 16;
                    DrawString 50 (height - 50)%Q "SQL Query Analysis Report";
                    SetFont "Helvetica" 9]
                   ++ text_ops
                   ++ [ShowPage; SetFont "Helvetica-Bold" 12;
                       DrawString 50 (height - 50)%Q "Execution Timeline (Sorted)";
                       SetFont "Helvetica" 9]
                   ++ timeline_ops
                   ++ [ShowPage; SetFont "Helvetica-Bold" 12;
                       DrawString 50 (height - 50)%Q "EXPLAIN QUERY PLAN";
                       SetFont "Helvetica" 9]
                   ++ explain_ops
                   ++ [Save])
          end
      end
  end.

End Pdf.

(* ===================================================================== *)
(** ** The rows of the sample database ([create_sample_db] of
       [sql_analyzer.py]) *)
(* ===================================================================== *)

(** The tuples that [create_sample_db] hands to [executemany]. *)
Definition customer_row : Type := nat * string * string.
Definition product_row : Type := nat * string * Q.
Definition order_row : Type := nat * nat * string * Q.
Definition item_row : Type := nat * nat * nat * nat * Q.

(** [range(a, b)] *)
Definition range (a b : nat) : list nat := seq a (b - a).

(** [f"{n:02d}"] *)
Definition two_digits (n : nat) : string :=
  if (n <? 10)%nat then "0" +:+ of_nat n else of_nat n.

(** [5.0 + (i % 20) * 1.5]; all these values are multiples of one half, and
    rounding them to two decimals changes nothing. *)
Definition listed_price (i : nat) : Q := (5 + inject_Z (Z.of_nat (i mod 20)) * (3 # 2))%Q.

Definition seed_customers : list customer_row :=
  map (fun i => (i, "Cust_" +:+ of_nat i, "City_" +:+ of_nat ((i mod 10) + 1)))
      (range 1 201).

Definition seed_products : list product_row :=
  map (fun i => (i, "Prod_" +:+ of_nat i, listed_price i)) (range 1 501).

(** The loop [for j in range((cust % 5) + 1)]; the state is the list
    [orders] and the counter [oid]. *)
Fixpoint orders_inner (cust : nat) (js : list nat) (acc : list order_row * nat)
    : list order_row * nat :=
  match js with
  | [] => acc
  | j :: js' =>
      let '(orders, oid) := acc in
      orders_inner cust js'
        (orders ++ [(oid, cust, "2025-11-" +:+ two_digits ((j mod 28) + 1), 0%Q)], S oid)
  end.

(** The loop [for cust in range(1, 201)]. *)
Fixpoint orders_outer (custs : list nat) (acc : list order_row * nat)
    : list order_row * nat :=
  match custs with
  | [] => acc
  | cust :: custs' =>
      orders_outer custs' (orders_inner cust (range 0 ((cust mod 5) + 1)) acc)
  end.

(** The list [orders] and the value of [oid] after the loops. *)
Definition seed_orders_state : list order_row * nat :=
  orders_outer (range 1 201) ([], 1%nat).

Definition seed_orders : list order_row := fst seed_orders_state.

Section SeedItems.

(** [random.randint(lo, hi)] after [random.seed(42)]: the result of the call
    number [k], counting from 0. *)
Variable randint : nat -> nat -> nat -> nat.

(** The state of the two loops: the list [order_items], the counter
    [oitem_id] and the number of calls of [randint] so far. *)
Definition items_state : Type := list item_row * nat * nat.

(** The loop [for k in range(1, (order % 6) + 1)]. *)
Fixpoint items_inner (order : nat) (ks : list nat) (s : items_state) : items_state :=
  match ks with
  | [] => s
  | _ :: ks' =>
      let '(order_items, oitem_id, calls) := s in
      let pid := randint calls 1 500 in
      let qty := randint (S calls) 1 5 in
      let price := listed_price pid in
      items_inner order ks'
        (order_items ++ [(oitem_id, order, pid, qty, price)], S oitem_id, S (S calls))
  end.

(** The loop [for order in range(1, oid)]. *)
Fixpoint items_outer (orders : list nat) (s : items_state) : items_state :=
  match orders with
  | [] => s
  | order :: orders' =>
      items_outer orders' (items_inner order (range 1 ((order mod 6) + 1)) s)
  end.

Definition seed_order_items : list item_row :=
  fst (fst (items_outer (range 1 (snd seed_orders_state)) ([], 1%nat, 0%nat))).

End SeedItems.

(** The fields of the rows. *)
Definition order_id (o : order_row) : nat := fst (fst (fst o)).
Definition order_customer (o : order_row) : nat := snd (fst (fst o)).
Definition item_id (i : item_row) : nat := fst (fst (fst (fst i))).
Definition item_order (i : item_row) : nat := snd (fst (fst (fst i))).
Definition item_product (i : item_row) : nat := snd (fst (fst i)).
Definition item_quantity (i : item_row) : nat := snd (fst i).
Definition item_price (i : item_row) : Q := snd i.

(** The number of elements of [l] whose field [f] is [x]. *)
Definition count_by {A} (f : A -> nat) (x : nat) (l : list A) : nat :=
  List.length (List.filter (fun a => (f a =? x)%nat) l).

(** An item refers to a product of the sample and carries its price. *)
Definition item_sound (i : item_row) : Prop :=
  (1 <= item_product i <= 500)%nat
  /\ (1 <= item_quantity i <= 5)%nat
  /\ item_price i = listed_price (item_product i).

(* ===================================================================== *)
(** ** More vocabulary *)
(* ===================================================================== *)

(** Every character of [s] satisfies [f]. *)
Fixpoint all_chars (f : ascii -> bool) (s : string) : bool :=
  match s with
  | EmptyString => true
  | String c s' => f c && all_chars f s'
  end.

(** The parenthesis depth after reading [s], starting from depth [d]. *)
Fixpoint paren_depth (s : string) (d : Z) : Z :=
  match s with
  | EmptyString => d
  | String c s' =>
      paren_depth s' (if Ascii.eqb c "(" then d + 1
                      else if Ascii.eqb c ")" then d - 1 else d)%Z
  end.

(** The character is not an opening parenthesis. *)
Definition not_open (c : ascii) : bool := negb (Ascii.eqb c "(").

(** The opening marker of a subquery stands at position [i] of [sql]: an
    opening parenthesis, any white space and the word SELECT in any mix of
    cases. *)
Definition marker_at (sql : string) (i : nat) : bool :=
  match open_select None (drop i sql) with
  | Some _ => true
  | None => false
  end.

(** The piece [sql[i:j+1]] is closed: the parenthesis depth, 0 before the
    piece, is positive after each of its proper non-empty prefixes and is
    back to 0 at its end. *)
Definition closed_piece (sql : string) (i j : nat) : bool :=
  let piece := slice i (j + 1) sql in
  (i <? j)%nat && (j <? String.length sql)%nat
  && (paren_depth piece 0 =? 0)%Z
  && forallb (fun k => (0 <? paren_depth (prefix k piece) 0)%Z) (seq 1 (j - i)).

Definition same_type (a b : step_type) : bool :=
  match a, b with
  | explain_step, explain_step | table_scan, table_scan | join, join
  | subquery, subquery | query, query => true
  | _, _ => false
  end.

(** The number of steps of type [t] in a timeline. *)
Definition count_type (t : step_type) (l : list Step) : nat :=
  List.length (List.filter (fun s => same_type (type s) t) l).

(** The duration [d] is what one call of [time_query] on the count
    statement of table [t] returned. *)
Definition counted `{Engine} (t : string) (d : option Q) : Prop :=
  exists st0 p st1,
    time_query ("SELECT COUNT(*) FROM " +:+ t) true 1 st0 = (Ret (d, p), st1).

(** The step has a measured or coerced duration, not a null one. *)
Definition has_duration (s : Step) : Prop := duration_s s <> None.

(** The canvas operation draws text inside the page margins. *)
Definition inside_margins (height : Q) (op : canvas_op) : Prop :=
  match op with
  | DrawString x y _ => (x == 50 /\ 40 <= y /\ y <= height - 50)%Q
  | _ => True
  end.

Definition is_draw (op : canvas_op) : bool :=
  match op with
  | DrawString _ _ _ => true
  | _ => false
  end.

(* ===================================================================== *)
(** ** A small concrete engine *)
(* ===================================================================== *)

(** A database with the tables [customers] and [orders] of the sample data,
    answering a fixed list of statements.  The world is the clock, in
    milliseconds: a statement costs its listed time, a failing one and a
    clock reading cost one millisecond. *)
Module Sample.

Definition statements : list (string * (list row * Z)) :=
  [ ("SELECT COUNT(*) FROM customers", ([["200"]], 20%Z));
    ("SELECT COUNT(*) FROM orders", ([["1000"]], 50%Z));
    ("PRAGMA table_info(customers)",
      ([["0"; "customer_id"; "INTEGER"]; ["1"; "name"; "TEXT"]; ["2"; "city"; "TEXT"]], 1%Z));
    ("PRAGMA table_info(orders)",
      ([["0"; "order_id"; "INTEGER"]; ["1"; "customer_id"; "INTEGER"];
        ["2"; "order_date"; "TEXT"]; ["3"; "total"; "REAL"]], 1%Z));
    ("PRAGMA table_info(products)",
      ([["0"; "product_id"; "INTEGER"]; ["1"; "price"; "REAL"]], 1%Z));
    ("PRAGMA table_info(ghosts)", ([], 1%Z));
    ("SELECT COUNT(*) FROM products", ([["500"]], 30%Z));
    ("SELECT COUNT(*) FROM customers JOIN orders ON customers.customer_id = orders.customer_id",
      ([["1000"]], 300%Z));
    ("SELECT COUNT(*) FROM orders JOIN customers ON orders.customer_id = customers.customer_id",
      ([["1000"]], 300%Z));
    ("SELECT COUNT(*) FROM customers, products LIMIT 1000", ([["100000"]], 700%Z));
    ("SELECT AVG(total) FROM orders", ([["41.5"]], 60%Z));
    ("SELECT name FROM customers", ([["Cust_1"]; ["Cust_2"]], 25%Z));
    ("EXPLAIN QUERY PLAN SELECT name FROM customers", ([["2"; "0"; "0"; "SCAN customers"]], 1%Z));
    ("SELECT name FROM customers WHERE customer_id IN (SELECT customer_id FROM orders)",
      ([["Cust_1"]], 90%Z));
    ("EXPLAIN QUERY PLAN SELECT name FROM customers WHERE customer_id IN (SELECT customer_id FROM orders)",
      ([["2"; "0"; "0"; "SCAN customers"]; ["4"; "0"; "0"; "LIST SUBQUERY 1"]], 1%Z));
    ("SELECT customer_id FROM orders", ([["1"]; ["2"]], 40%Z));
    ("SELECT 1", ([["1"]], 0%Z)) ].

Fixpoint lookup_statement (sql : string) (l : list (string * (list row * Z)))
    : option (list row * Z) :=
  match l with
  | [] => None
  | (s, r) :: l' => if String.eqb sql s then Some r else lookup_statement sql l'
  end.

Definition run (sql : string) (w : Z) : (list row + exn) * Z :=
  match lookup_statement sql statements with
  | Some (rows, cost) => (inl rows, (w + cost)%Z)
  | None => (inr (Exn DatabaseError ("cannot run: " +:+ sql)), (w + 1)%Z)
  end.

Definition clock (w : Z) : Q * Z := (w # 1000, (w + 1)%Z).

Fixpoint join_cells (r : row) : string :=
  match r with
  | [] => EmptyString
  | [c] => c
  | c :: r' => c +:+ ", " +:+ join_cells r'
  end.

#[global] Instance engine : Engine := {|
  world := Z;
  run_statement := run;
  perf_counter := clock;
  wall_clock := clock;
  str_row r := "(" +:+ join_cells r +:+ ")"
|}.

(** The sample run has no [sqlparse] package: the import of line 28 fails. *)
#[global] Instance no_sqlparse : SqlParse := {|
  HAS_SQLPARSE := false;
  sqlparse_parse _ := None
|}.

Definition start : state := {| conn := 0%Z; stdout := [] |}.

(** A ranked timeline of three steps. *)
Definition ranked : list Step :=
  [ mkStep "Full query execution" query (Some (2 # 10)) "SELECT 1";
    mkStep "Table scan: t" table_scan (Some (1 # 10)) "COUNT(*) estimate";
    mkStep "Table scan: u" table_scan (Some 0%Q) "COUNT(*) estimate" ].

(** A query with two plan rows, two tables, one pair of tables and one
    fragment; its two plan steps tie at duration 0. *)
Definition nested : string :=
  "SELECT name FROM customers WHERE customer_id IN (SELECT customer_id FROM orders);".

End Sample.

(** A plain rendering of numbers and lists. *)
Module Plain.

Definition show (q : Q) : string :=
  of_nat (Z.to_nat (Qnum q)) +:+ "/" +:+ of_nat (Pos.to_nat (Qden q)).

#[global] Instance formatting : Formatting := {|
  fixed6 := show;
  str_float := show;
  str_strings l := "[" +:+ Sample.join_cells l +:+ "]"
|}.

End Plain.

(** An installation of [sqlparse] under an interpreter whose recursion
    limit lets the package group [limit] levels of parentheses: on a text
    nested deeper, [sqlparse.parse] raises its [SQLParseError]. *)
Module Nesting.

(** The deepest nesting of parentheses in [s], from depth [d]. *)
Fixpoint max_depth (s : string) (d best : nat) : nat :=
  match s with
  | EmptyString => best
  | String c s' =>
      if Ascii.eqb c "(" then max_depth s' (S d) (Nat.max best (S d))
      else if Ascii.eqb c ")" then max_depth s' (Nat.pred d) best
      else max_depth s' d best
  end.

Definition sqlparse (limit : nat) : SqlParse := {|
  HAS_SQLPARSE := true;
  sqlparse_parse sql :=
    if (limit <? max_depth sql 0 0)%nat
    then Some (Exn OtherException "Maximum recursion depth exceeded")
    else None
|}.

End Nesting.

(** A driver out of memory: every statement raises [MemoryError()], whose
    text is empty. *)
Module Mute.

Definition run (sql : string) (w : Z) : (list row + exn) * Z :=
  (inr (Exn OtherException EmptyString), w).

Definition engine : Engine := {|
  world := Z;
  run_statement := run;
  perf_counter := Sample.clock;
  wall_clock := Sample.clock;
  str_row r := "(" +:+ Sample.join_cells r +:+ ")"
|}.

End Mute.

(* ===================================================================== *)
(** ** Facts about strings *)
(* ===================================================================== *)

Module StrFacts.
Import PyStr.

Lemma str_app_cons (x : ascii) (a b : string) : String x a +:+ b = String x (a +:+ b).
Proof. reflexivity. Qed.

Lemma str_app_nil_l (b : string) : EmptyString +:+ b = b.
Proof. reflexivity. Qed.

Lemma substring_0_0 (s : string) : substring 0 0 s = EmptyString.
Proof. by destruct s. Qed.

Lemma substring_0_S (c : ascii) (n : nat) (s : string) :
  substring 0 (S n) (String c s) = String c (substring 0 n s).
Proof. reflexivity. Qed.

Lemma substring_drop (n m : nat) (s : string) :
  substring n m s = substring 0 m (drop n s).
Proof.
  revert s; induction n as [|n IH]; intros s; [done|].
  destruct s as [|c s]; simpl; [by destruct m | apply IH].
Qed.

Lemma substring_0_app (a b : string) :
  substring 0 (String.length a) (a +:+ b) = a.
Proof.
  induction a as [|c a IH]; rewrite ?str_app_cons, ?str_app_nil_l; simpl; [apply substring_0_0 | congruence].
Qed.

Lemma substring_0_length (a : string) : substring 0 (String.length a) a = a.
Proof. induction a as [|c a IH]; rewrite ?str_app_cons, ?str_app_nil_l; simpl; [done | congruence]. Qed.

Lemma str_drop_app (a b : string) : drop (String.length a) (a +:+ b) = b.
Proof. induction a as [|c a IH]; rewrite ?str_app_cons, ?str_app_nil_l; simpl; [done | apply IH]. Qed.

Lemma str_app_assoc (a b c : string) : (a +:+ b) +:+ c = a +:+ (b +:+ c).
Proof. induction a as [|x a IH]; rewrite ?str_app_cons, ?str_app_nil_l; simpl; [done | congruence]. Qed.

Lemma str_app_length (a b : string) :
  String.length (a +:+ b) = (String.length a + String.length b)%nat.
Proof. induction a as [|x a IH]; rewrite ?str_app_cons, ?str_app_nil_l; simpl; [done | congruence]. Qed.

Lemma str_app_empty_r (a : string) : a +:+ EmptyString = a.
Proof. induction a as [|x a IH]; rewrite ?str_app_cons, ?str_app_nil_l; simpl; [done | congruence]. Qed.

Lemma rstrip_by_keep (f : ascii -> bool) (s : string) (c : ascii) :
  f c = false -> rstrip_by f (s +:+ String c EmptyString) = s +:+ String c EmptyString.
Proof.
  intros Hc. induction s as [|x s IH]; rewrite ?str_app_cons, ?str_app_nil_l; simpl.
  - by rewrite Hc.
  - rewrite IH. by destruct s.
Qed.

Lemma last_char_snoc (s : string) (c : ascii) :
  last_char (s +:+ String c EmptyString) = Some c.
Proof.
  induction s as [|x s IH]; rewrite ?str_app_cons, ?str_app_nil_l; simpl; [done|].
  rewrite IH. by destruct s.
Qed.

End StrFacts.

(* ===================================================================== *)
(** ** Facts about the extractor *)
(* ===================================================================== *)

Module ExtractorFacts.
Import PyStr Re Extractor StrFacts.

Lemma open_select_head (prev : option ascii) (s : string) (r : nat * string) :
  open_select prev s = Some r -> exists s', s = String "(" s'.
Proof.
  destruct s as [|c s]; simpl; [done|].
  destruct (Ascii.eqb_spec c "(") as [->|]; [eauto | done].
Qed.

(** Every element of [finditer] is a match of the pattern at its
    position. *)
Lemma finditer_from_In (m : matcher) (s : string) :
  forall prev i0 skip i n g,
    In (i, n, g) (finditer_from m prev s i0 skip) ->
    (i0 <= i)%nat /\ exists p, m p (drop (i - i0) s) = Some (n, g).
Proof.
  induction s as [|c s IH]; intros prev i0 skip i n g; simpl; [done|].
  assert (Hstep : forall p k, In (i, n, g) (finditer_from m p s (S i0) k) ->
                    (i0 <= i)%nat /\ exists p, m p (drop (i - i0) (String c s)) = Some (n, g)).
  { intros p k Hin. destruct (IH _ _ _ _ _ _ Hin) as [Hle [q Hq]].
    split; [lia|]. exists q. replace (i - i0)%nat with (S (i - S i0)) by lia. done. }
  destruct skip as [|k]; [|by apply Hstep].
  destruct (m prev (String c s)) as [[n' g']|] eqn:Hm; [|by apply Hstep].
  intros [Heq|Hin]; [|by eapply Hstep].
  inversion Heq; subst. split; [lia|].
  exists prev. by rewrite Nat.sub_diag.
Qed.

(** Every match of [\(\s*SELECT] starts at an opening parenthesis. *)
Lemma finditer_open_select_head (sql : string) (i n : nat) (g : string) :
  In (i, n, g) (finditer open_select sql) ->
  exists r, drop i sql = String "(" r.
Proof.
  intros Hin. destruct (finditer_from_In _ _ _ _ _ _ _ _ Hin) as [_ [p Hp]].
  rewrite Nat.sub_0_r in Hp. by eapply open_select_head.
Qed.

(** The scan of [extract_subqueries] stops at a closing parenthesis. *)
Lemma find_close_spec (s : string) :
  forall i d j, find_close s i d = Some j ->
    (i <= j)%nat /\ exists pre, substring 0 (S j - i) s = pre +:+ ")".
Proof.
  induction s as [|c s IH]; intros i d j; simpl; [done|].
  assert (Hstep : forall d', find_close s (S i) d' = Some j ->
             (i <= j)%nat /\ exists pre, substring 0 (S j - i) (String c s) = pre +:+ ")").
  { intros d' Hf. destruct (IH _ _ _ Hf) as [Hle [pre Hpre]].
    split; [lia|]. exists (String c pre).
    replace (S j - i)%nat with (S (S j - S i)) by lia.
    by rewrite substring_0_S, Hpre. }
  destruct (Ascii.eqb c "("); [by apply Hstep|].
  destruct (Ascii.eqb_spec c ")") as [->|]; [|by apply Hstep].
  destruct (d - 1 =? 0)%Z; [|by apply Hstep].
  intros [= <-]. split; [lia|]. exists EmptyString.
  replace (S i - i)%nat with 1%nat by lia. simpl. by rewrite substring_0_0.
Qed.

(** A fragment cut at an opening parenthesis is a parenthesised text. *)
Lemma fragment_at_shape (sql : string) (start : nat) (r f : string) :
  drop start sql = String "(" r ->
  In f (fragment_at sql start) ->
  exists inner, f = String "(" (inner +:+ ")").
Proof.
  unfold fragment_at. intros Hd. rewrite Hd. simpl.
  destruct (find_close r (S start) (0 + 1)) as [i|] eqn:Hf; [|done].
  intros [<-|[]].
  destruct (find_close_spec _ _ _ _ Hf) as [Hle [pre Hpre]].
  exists pre. unfold slice. rewrite substring_drop, Hd.
  replace (i + 1 - start)%nat with (S (S i - S start)) by lia.
  by rewrite substring_0_S, Hpre.
Qed.

Lemma extract_subqueries_shape (sql f : string) :
  In f (extract_subqueries sql) -> exists inner, f = String "(" (inner +:+ ")").
Proof.
  unfold extract_subqueries. rewrite in_flat_map.
  intros [[[i n] g] [Hin Hf]]. simpl in Hf.
  destruct (finditer_open_select_head _ _ _ _ Hin) as [r Hr].
  by eapply fragment_at_shape.
Qed.

Lemma strip_parenthesised (inner : string) :
  strip (String "(" (inner +:+ ")")) = String "(" (inner +:+ ")").
Proof.
  unfold strip. simpl lstrip_by.
  change (String "(" (inner +:+ ")")) with (String "(" inner +:+ ")").
  by apply rstrip_by_keep.
Qed.

Lemma slice_inner (inner : string) :
  slice 1 (String.length (String "(" (inner +:+ ")")) - 1) (String "(" (inner +:+ ")"))
  = inner.
Proof.
  unfold slice. simpl. rewrite str_app_length. simpl.
  replace (String.length inner + 1 - 0 - 1)%nat with (String.length inner) by lia.
  apply substring_0_app.
Qed.

(** *** Texts without parentheses between the markers *)

Lemma paren_free_open_free (s : string) : paren_free s = true -> open_free s = true.
Proof.
  induction s as [|c s IH]; simpl; [done|].
  unfold is_paren. destruct (Ascii.eqb c "("); simpl; [done|].
  intros [_ Hs]%andb_prop. auto.
Qed.

Lemma open_free_app (a b : string) :
  open_free a = true -> open_free b = true -> open_free (a +:+ b) = true.
Proof.
  intros Ha Hb. induction a as [|c a IH]; rewrite ?str_app_cons, ?str_app_nil_l; [done|].
  simpl in *. apply andb_prop in Ha as [-> Ha]. simpl. auto.
Qed.

Lemma find_close_app_free (a t : string) (i : nat) (d : Z) :
  paren_free a = true ->
  find_close (a +:+ t) i d = find_close t (i + String.length a) d.
Proof.
  revert i. induction a as [|c a IH]; intros i Ha; rewrite ?str_app_cons, ?str_app_nil_l.
  - simpl. f_equal. lia.
  - simpl in Ha. apply andb_prop in Ha as [Hc Ha].
    unfold is_paren in Hc. apply negb_true_iff, orb_false_elim in Hc as [Ho Hcl].
    simpl. rewrite Ho, Hcl, IH by done. f_equal. lia.
Qed.

Lemma find_close_marker (x : string) (i : nat) (d : Z) :
  find_close ("(SELECT" +:+ x) i d = find_close x (i + 7) (d + 1).
Proof.
  rewrite !str_app_cons, str_app_nil_l. simpl. f_equal. lia.
Qed.

Lemma find_close_closing (x : string) (i : nat) (d : Z) :
  find_close (String ")" x) i d
  = if (d - 1 =? 0)%Z then Some i else find_close x (S i) (d - 1).
Proof. reflexivity. Qed.

Lemma finditer_open_select_prev (s : string) :
  forall p p' i k,
    finditer_from open_select p s i k = finditer_from open_select p' s i k.
Proof.
  induction s as [|c s IH]; intros p p' i k; [done|].
  cbn [finditer_from]. destruct k as [|k]; [|done].
  change (open_select p (String c s)) with (open_select p' (String c s)).
  done.
Qed.

Lemma finditer_open_select_free (a t : string) (p : option ascii) (i : nat) :
  open_free a = true ->
  finditer_from open_select p (a +:+ t) i 0
  = finditer_from open_select p t (i + String.length a) 0.
Proof.
  revert p i. induction a as [|c a IH]; intros p i Ha; rewrite ?str_app_cons, ?str_app_nil_l.
  - simpl. f_equal. lia.
  - simpl in Ha. apply andb_prop in Ha as [Hc Ha]. apply negb_true_iff in Hc.
    cbn [finditer_from].
    assert (Hm : open_select p (String c (a +:+ t)) = None)
      by (unfold open_select; by rewrite Hc).
    rewrite Hm, (finditer_open_select_prev _ _ p), IH by done.
    simpl. f_equal. lia.
Qed.

Lemma finditer_open_select_none (a : string) (p : option ascii) (i : nat) :
  open_free a = true -> finditer_from open_select p a i 0 = [].
Proof.
  intros Ha. rewrite <- (str_app_empty_r a), finditer_open_select_free by done.
  reflexivity.
Qed.

Lemma finditer_open_select_marker (x : string) (p : option ascii) (i : nat) :
  finditer_from open_select p ("(SELECT" +:+ x) i 0
  = (i, 7%nat, EmptyString) :: finditer_from open_select p x (i + 7) 0.
Proof.
  rewrite !str_app_cons, str_app_nil_l. cbn [finditer_from].
  change (open_select p _) with (Some (7%nat, EmptyString)).
  cbn [finditer_from Nat.sub]. f_equal.
  rewrite (finditer_open_select_prev _ _ p). f_equal. lia.
Qed.

End ExtractorFacts.

(* ===================================================================== *)
(** ** Subquery fragments *)
(* ===================================================================== *)

Section Fragments.
Import PyStr Re Extractor StrFacts ExtractorFacts.

(** C4, as stated, fails: on [(SELECT x FROM (SELECT y FROM t))] the
    extraction emits two fragments, the outer expression and then the
    inner subquery, not exactly one. *)
Lemma nested_query_not_single_fragment :
  extract_subqueries nested_query = [nested_query; "(SELECT y FROM t)"]
  /\ ~ (exists f, extract_subqueries nested_query = [f]).
Proof.
  assert (E : extract_subqueries nested_query = [nested_query; "(SELECT y FROM t)"])
    by reflexivity.
  split; [exact E|]. intros [f Hf]. rewrite E in Hf. discriminate.
Qed.

(** The fragments in their order, for the simplest nesting: a subquery
    nested in another one, in capitals, with no further parentheses
    around.  The extraction emits the outer expression in full and then the
    inner subquery as a second fragment. *)
Theorem nested_subquery_two_fragments (a b c : string) :
  paren_free a = true -> paren_free b = true -> paren_free c = true ->
  extract_subqueries ("(SELECT" +:+ a +:+ ("(SELECT" +:+ b +:+ ")") +:+ c +:+ ")")
  = [ "(SELECT" +:+ a +:+ ("(SELECT" +:+ b +:+ ")") +:+ c +:+ ")";
      "(SELECT" +:+ b +:+ ")" ].
Proof.
  intros Ha Hb Hc.
  set (inner := "(SELECT" +:+ b +:+ ")").
  set (outer := "(SELECT" +:+ a +:+ inner +:+ c +:+ ")").
  assert (Hinner : inner +:+ c +:+ ")" = "(SELECT" +:+ b +:+ String ")" (c +:+ ")")).
  { unfold inner. by rewrite !str_app_assoc. }
  assert (Htail : open_free (b +:+ String ")" (c +:+ ")")) = true).
  { apply open_free_app; [by apply paren_free_open_free|].
    simpl. change (String ")" EmptyString) with (")" : string).
    apply open_free_app; [by apply paren_free_open_free | done]. }
  assert (Hlen : String.length outer
                 = (7 + String.length a + 7 + String.length b + 1 + String.length c + 1)%nat).
  { unfold outer. rewrite Hinner.
    rewrite !str_app_cons, !str_app_nil_l. simpl. rewrite str_app_length. simpl.
    rewrite str_app_length. simpl. rewrite str_app_length. simpl. lia. }
  (* the two matches of the opening marker *)
  assert (Hm : finditer open_select outer
               = [(0%nat, 7%nat, EmptyString); ((7 + String.length a)%nat, 7%nat, EmptyString)]).
  { unfold finditer, outer.
    rewrite finditer_open_select_marker.
    rewrite finditer_open_select_free by by apply paren_free_open_free.
    rewrite Hinner, finditer_open_select_marker.
    by rewrite finditer_open_select_none. }
  (* the scan from the outer marker *)
  assert (Ho : fragment_at outer 0 = [outer]).
  { unfold fragment_at. simpl drop. unfold outer at 1.
    rewrite find_close_marker, find_close_app_free by done.
    rewrite Hinner, find_close_marker, find_close_app_free by done.
    rewrite find_close_closing. simpl Z.eqb. cbv iota.
    rewrite find_close_app_free by done.
    rewrite find_close_closing. simpl Z.eqb. cbv iota.
    unfold slice.
    replace (S (0 + 7 + String.length a + 7 + String.length b) + String.length c + 1 - 0)%nat
      with (String.length outer) by lia.
    by rewrite substring_0_length. }
  (* the scan from the inner marker *)
  assert (Hi : fragment_at outer (7 + String.length a) = [inner]).
  { unfold fragment_at.
    assert (Hd : drop (7 + String.length a) outer = inner +:+ c +:+ ")").
    { unfold outer. rewrite !str_app_cons, str_app_nil_l. simpl. apply str_drop_app. }
    rewrite Hd, Hinner.
    rewrite find_close_marker, find_close_app_free by done.
    rewrite find_close_closing. simpl Z.eqb. cbv iota.
    unfold slice. rewrite substring_drop, Hd.
    replace (7 + String.length a + 7 + String.length b + 1 - (7 + String.length a))%nat
      with (String.length inner).
    - apply (f_equal (fun x => [x])), substring_0_app.
    - unfold inner. rewrite !str_app_cons, str_app_nil_l. simpl. rewrite str_app_length. simpl. lia. }
  unfold extract_subqueries. rewrite Hm. cbn [flat_map fst].
  by rewrite Ho, Hi.
Qed.

Lemma nested_subquery_two_fragments_witness :
  extract_subqueries "(SELECT x FROM (SELECT y FROM t))"
  = ["(SELECT x FROM (SELECT y FROM t))"; "(SELECT y FROM t)"].
Proof.
  exact (nested_subquery_two_fragments " x FROM " " y FROM t" EmptyString
           eq_refl eq_refl eq_refl).
Defined.

Context `{Engine}.

(** C9: every fragment returned by [extract_subqueries] is non-empty,
    starts with an opening and ends with a closing parenthesis; the
    stripping step of [analyze_query] therefore never indexes an empty
    string, raises nothing, and returns the fragment without exactly its
    outer pair of parentheses. *)
Theorem fragments_parenthesised (sql f : string) (st : state) :
  In f (extract_subqueries sql) ->
  exists inner,
    f = "(" +:+ inner +:+ ")"
    /\ f <> EmptyString
    /\ first_char f = Some "("%char
    /\ last_char f = Some ")"%char
    /\ strip_outer_parens f st = (Ret inner, st).
Proof.
  intros Hin. destruct (extract_subqueries_shape _ _ Hin) as [inner ->].
  assert (Hlast : last_char (String "(" (inner +:+ ")")) = Some ")"%char)
    by apply (last_char_snoc (String "(" inner)).
  exists inner. split; [done|]. split; [done|]. split; [done|]. split; [exact Hlast|].
  unfold strip_outer_parens. rewrite strip_parenthesised.
  cbn [first_char]. rewrite Hlast.
  rewrite bool_decide_eq_true_2 by done. cbn [Ascii.eqb Bool.eqb andb].
  by rewrite slice_inner.
Qed.

End Fragments.

Lemma fragments_parenthesised_witness :
  In "(SELECT y FROM t)" (extract_subqueries "SELECT a FROM (SELECT y FROM t)")
  /\ exists inner,
    "(SELECT y FROM t)" = "(" +:+ inner +:+ ")"
    /\ "(SELECT y FROM t)" <> EmptyString
    /\ first_char "(SELECT y FROM t)" = Some "("%char
    /\ last_char "(SELECT y FROM t)" = Some ")"%char
    /\ strip_outer_parens "(SELECT y FROM t)" Sample.start = (Ret inner, Sample.start).
Proof.
  assert (Hin : In "(SELECT y FROM t)" (extract_subqueries "SELECT a FROM (SELECT y FROM t)"))
    by (left; reflexivity).
  split; [exact Hin|].
  exact (fragments_parenthesised _ _ _ Hin).
Defined.


(* ===================================================================== *)
(** ** The sort of the timeline and the bottleneck selection *)
(* ===================================================================== *)

Section Ranking.

Lemma insert_desc_perm (x : Step) (l : list Step) : insert_desc x l ≡ₚ x :: l.
Proof.
  induction l as [|y l IH]; simpl; [done|].
  destruct (Qle_bool (sort_key y) (sort_key x)); [done|].
  rewrite IH. apply Permutation_swap.
Qed.

Lemma sorted_desc_perm (l : list Step) : sorted_desc l ≡ₚ l.
Proof.
  induction l as [|x l IH]; simpl; [done|].
  by rewrite insert_desc_perm, IH.
Qed.

Lemma insert_desc_descending (x : Step) (l : list Step) :
  descending l -> descending (insert_desc x l).
Proof.
  unfold descending. induction 1 as [|y l Hl IH Hy]; simpl.
  - repeat constructor.
  - destruct (Qle_bool (sort_key y) (sort_key x)) eqn:Hle.
    + apply Qle_bool_iff in Hle.
      constructor; [by constructor|].
      constructor; [done|].
      eapply Forall_impl; [exact Hy|]. simpl. intros z Hz. by eapply Qle_trans.
    + constructor; [done|].
      assert (Hxy : (sort_key x <= sort_key y)%Q).
      { apply Qlt_le_weak, Qnot_le_lt. intros Hc.
        apply Qle_bool_iff in Hc. congruence. }
      eapply Permutation_Forall; [symmetry; apply insert_desc_perm|].
      by constructor.
Qed.

Lemma sorted_desc_descending (l : list Step) : descending (sorted_desc l).
Proof.
  induction l as [|x l IH]; simpl; [constructor | by apply insert_desc_descending].
Qed.



Lemma is_bottleneck_positive (s : Step) : is_bottleneck s = positive_duration s.
Proof.
  unfold is_bottleneck, positive_duration. destruct (duration_s s) as [q|]; [|done].
  destruct (Qle_bool q 0) eqn:Hle; [by rewrite andb_false_r|].
  rewrite andb_true_r. apply negb_true_iff.
  destruct (Qeq_bool q 0) eqn:He; [|done].
  apply Qeq_bool_iff in He.
  assert (Hc : Qle_bool q 0 = true) by (apply Qle_bool_iff; rewrite He; apply Qle_refl).
  congruence.
Qed.

Lemma positive_duration_key (s : Step) :
  positive_duration s = true <-> (0 < sort_key s)%Q.
Proof.
  unfold positive_duration, sort_key. destruct (duration_s s) as [q|].
  - rewrite negb_true_iff. split.
    + intros Hn. apply Qnot_le_lt. intros Hc. apply Qle_bool_iff in Hc. congruence.
    + intros Hlt. destruct (Qle_bool q 0) eqn:Hle; [|done].
      apply Qle_bool_iff in Hle. exfalso. by eapply Qlt_not_le.
  - split; [done|]. intros Hc. by apply Qlt_irrefl in Hc.
Qed.

Lemma filter_none {A} (f : A -> bool) (l : list A) :
  (forall y, In y l -> f y = false) -> List.filter f l = [].
Proof.
  induction l as [|x l IH]; simpl; [done|]. intros Hf.
  rewrite (Hf x) by auto. apply IH. auto.
Qed.

(** In a descending timeline the positive steps come first. *)
Lemma descending_filter_take (n : nat) (l : list Step) :
  descending l ->
  List.filter positive_duration (take n l) = take n (List.filter positive_duration l).
Proof.
  unfold descending. intros Hl. revert n.
  induction Hl as [|x l Hl IH Hx]; intros n; [by destruct n|].
  destruct n as [|n]; simpl; [by destruct (positive_duration x)|].
  destruct (positive_duration x) eqn:Hp; simpl; [by rewrite IH|].
  assert (Hnone : forall m, List.filter positive_duration (take m l) = []).
  { intros m. apply filter_none. intros y Hy.
    assert (Hin : In y l).
    { apply list_elem_of_In. eapply subseteq_take. by apply list_elem_of_In. }
    rewrite List.Forall_forall in Hx. specialize (Hx _ Hin).
    destruct (positive_duration y) eqn:Hpy; [|done].
    apply positive_duration_key in Hpy.
    assert (Hpx : positive_duration x = true).
    { apply positive_duration_key. by eapply Qlt_le_trans. }
    congruence. }
  rewrite Hnone. rewrite <- (firstn_all l) at 1. change firstn with (@take Step).
  by rewrite Hnone.
Qed.

(** The selection of the terminal analyzer does what C3 says: on a sorted
    timeline it returns at most 5 entries, each with a non-null duration
    strictly greater than 0; it returns as many as there are
    positive-duration steps when these are fewer than 5. *)
Theorem bottleneck_selection (tl : list Step) :
  descending tl ->
  (List.length (select_bottlenecks tl) <= 5)%nat
  /\ List.Forall (fun s => exists q, duration_s s = Some q /\ (0 < q)%Q)
                 (select_bottlenecks tl)
  /\ List.length (select_bottlenecks tl)
     = Nat.min 5 (List.length (List.filter positive_duration tl)).
Proof.
  intros Hd. unfold select_bottlenecks. split; [|split].
  - etrans; [apply List.filter_length_le|]. rewrite length_take. lia.
  - apply List.Forall_forall. intros s [_ Hs]%List.filter_In.
    rewrite is_bottleneck_positive in Hs.
    pose proof (proj1 (positive_duration_key s) Hs) as Hk.
    unfold positive_duration, sort_key in *.
    destruct (duration_s s) as [q|]; [eauto | done].
  - rewrite (List.filter_ext _ _ is_bottleneck_positive).
    rewrite descending_filter_take by done. apply length_take.
Qed.

End Ranking.

Lemma bottleneck_selection_witness :
  (List.length (select_bottlenecks Sample.ranked) <= 5)%nat
  /\ List.Forall (fun s => exists q, duration_s s = Some q /\ (0 < q)%Q)
                 (select_bottlenecks Sample.ranked)
  /\ List.length (select_bottlenecks Sample.ranked)
     = Nat.min 5 (List.length (List.filter positive_duration Sample.ranked)).
Proof.
  apply (bottleneck_selection Sample.ranked).
  unfold descending, Sample.ranked.
  repeat (constructor; simpl); unfold Qle; simpl; lia.
Defined.

(* ===================================================================== *)
(** ** Facts about the monad and the probe runner *)
(* ===================================================================== *)

Section ProbeFacts.
Context `{Engine}.

Lemma bind_ret {A B} (m : M A) (k : A -> M B) (st st' : state) (a : A) :
  m st = (Ret a, st') -> bind m k st = k a st'.
Proof. unfold bind. by intros ->. Qed.

Lemma bind_raise {A B} (m : M A) (k : A -> M B) (st st' : state) (e : exn) :
  m st = (Raise e, st') -> bind m k st = (Raise e, st').
Proof. unfold bind. by intros ->. Qed.

Lemma run_iterations_runs (sql : string) (n : nat) :
  forall w first w' last out,
    runs sql n w first w' last ->
    run_iterations n sql first (State w out) = (Ret last, State w' out).
Proof.
  induction n as [|n IH]; intros w first w' last out Hr; inversion Hr; subst; [done|].
  simpl. unfold bind, execute_fetchall. simpl.
  match goal with Hs : run_statement _ _ = _ |- _ => rewrite Hs end.
  by apply IH.
Qed.

Lemma run_iterations_fails (sql : string) (n : nat) :
  forall w first e w' out,
    fails_within sql n w e w' ->
    run_iterations n sql first (State w out) = (Raise e, State w' out).
Proof.
  induction n as [|n IH]; intros w first e w' out Hf; inversion Hf; subst.
  - simpl. unfold bind, execute_fetchall. simpl.
    match goal with Hs : run_statement _ _ = _ |- _ => by rewrite Hs end.
  - simpl. unfold bind, execute_fetchall. simpl.
    match goal with Hs : run_statement _ _ = _ |- _ => rewrite Hs end.
    by apply IH.
Qed.

(** The timed loop either completes or fails at some execution. *)
Lemma runs_or_fails (sql : string) (n : nat) (w : world) (first : option (list row)) :
  (exists w' last, runs sql n w first w' last)
  \/ (exists e w', fails_within sql n w e w').
Proof.
  revert w first. induction n as [|n IH]; intros w first.
  - left. eexists _, _. constructor.
  - destruct (run_statement sql w) as [[rows|e] w1] eqn:Hs.
    + destruct (IH w1 (Some rows)) as [(w' & last & Hr)|(e & w' & Hf)].
      * left. eexists _, _. by econstructor.
      * right. eexists _, _. by eapply fails_later.
    + right. eexists _, _. by eapply fails_now.
Qed.

(** The warm-up of [time_query] changes the world only. *)
Lemma warmup_step (sql : string) (warmup : bool) (st : state) :
  (if warmup
   then try_except (execute_fetchall sql ;;; ret tt) (fun _ => ret tt)
   else ret tt) st
  = (Ret tt, State (after_warmup warmup sql (conn st)) (stdout st)).
Proof.
  unfold after_warmup. destruct warmup; [|by destruct st].
  unfold try_except, bind, execute_fetchall, ret.
  by destruct (run_statement sql (conn st)) as [[rows|e] w].
Qed.

Lemma max_1_nonzero (iterations : Z) : (Z.max 1 iterations =? 0)%Z = false.
Proof. apply Z.eqb_neq. lia. Qed.

(** [time_query] when the timed loop completes. *)
Lemma time_query_success (sql : string) (warmup : bool) (iterations : Z) (st : state)
    (w3 : world) (results : option (list row)) :
  let w1 := after_warmup warmup sql (conn st) in
  let t0 := fst (perf_counter w1) in
  let w2 := snd (perf_counter w1) in
  runs sql (Z.to_nat iterations) w2 None w3 results ->
  time_query sql warmup iterations st
  = (Ret (Some ((fst (perf_counter w3) - t0) / inject_Z (Z.max 1 iterations))%Q,
          Results results),
     State (snd (perf_counter w3)) (stdout st)).
Proof.
  intros w1 t0 w2 Hr. unfold time_query.
  erewrite bind_ret by apply warmup_step.
  unfold bind at 1. unfold perf_counter_now at 1. simpl conn.
  fold w1. destruct (perf_counter w1) as [t0' w2'] eqn:Hp. simpl in t0, w2.
  subst t0 w2. simpl stdout.
  unfold bind at 1, try_except. unfold bind at 1.
  rewrite (run_iterations_runs _ _ _ _ _ _ _ Hr). unfold ret at 1.
  unfold bind at 1, perf_counter_now. simpl conn.
  destruct (perf_counter w3) as [t1 w4]. simpl.
  unfold truediv. rewrite max_1_nonzero. reflexivity.
Qed.

(** [time_query] when an execution of the timed loop fails. *)
Lemma time_query_failure (sql : string) (warmup : bool) (iterations : Z) (st : state)
    (e : exn) (w3 : world) :
  let w1 := after_warmup warmup sql (conn st) in
  let w2 := snd (perf_counter w1) in
  fails_within sql (Z.to_nat iterations) w2 e w3 ->
  time_query sql warmup iterations st
  = (Ret (None, ErrorText (exn_msg e)), State w3 (stdout st)).
Proof.
  intros w1 w2 Hf. unfold time_query.
  erewrite bind_ret by apply warmup_step.
  unfold bind at 1. unfold perf_counter_now at 1. simpl conn.
  fold w1. destruct (perf_counter w1) as [t0' w2'] eqn:Hp. simpl in w2.
  subst w2. simpl stdout.
  unfold bind at 1, try_except. unfold bind at 1.
  rewrite (run_iterations_fails _ _ _ _ _ _ _ Hf). reflexivity.
Qed.

(** [time_query] raises nothing and prints nothing. *)
Lemma time_query_returns (sql : string) (warmup : bool) (iterations : Z) (st : state) :
  exists d p w, time_query sql warmup iterations st = (Ret (d, p), State w (stdout st)).
Proof.
  destruct (runs_or_fails sql (Z.to_nat iterations)
              (snd (perf_counter (after_warmup warmup sql (conn st)))) None)
    as [(w' & last & Hr)|(e & w' & Hf)].
  - eexists _, _, _. by apply time_query_success.
  - eexists _, _, _. by apply time_query_failure.
Qed.

End ProbeFacts.

(* ===================================================================== *)
(** ** The contract of [time_query] *)
(* ===================================================================== *)

Section TimeQuery.
Context `{Engine}.

(** C7, amended: [time_query] first executes the statement once, rows and
    errors discarded, when [warmup] is set; it then reads the monotonic
    clock, executes the statement [iterations] times, reads the clock
    again and returns the elapsed time divided by [max(1, iterations)],
    which is [iterations] whenever [iterations >= 1], with the rows of the
    last execution.  If an execution of the timed loop fails, it returns a
    null duration with the error text.  One of the two always happens. *)
Theorem time_query_contract (sql : string) (warmup : bool) (iterations : Z) (st : state) :
  let w1 := after_warmup warmup sql (conn st) in
  let t0 := fst (perf_counter w1) in
  let w2 := snd (perf_counter w1) in
  (forall w3 results,
      runs sql (Z.to_nat iterations) w2 None w3 results ->
      time_query sql warmup iterations st
      = (Ret (Some ((fst (perf_counter w3) - t0) / inject_Z (Z.max 1 iterations))%Q,
              Results results),
         State (snd (perf_counter w3)) (stdout st)))
  /\ (forall e w3,
      fails_within sql (Z.to_nat iterations) w2 e w3 ->
      time_query sql warmup iterations st
      = (Ret (None, ErrorText (exn_msg e)), State w3 (stdout st)))
  /\ ((1 <= iterations)%Z -> Z.max 1 iterations = iterations)
  /\ ((exists w3 results, runs sql (Z.to_nat iterations) w2 None w3 results)
      \/ (exists e w3, fails_within sql (Z.to_nat iterations) w2 e w3)).
Proof.
  intros w1 t0 w2. split; [|split; [|split]].
  - intros w3 results Hr. by apply time_query_success.
  - intros e w3 Hf. by apply time_query_failure.
  - lia.
  - apply runs_or_fails.
Qed.

(** C10: for every iteration count the divisor [max(1, iterations)] is
    not zero and [time_query] raises nothing; with [iterations <= 0] the
    timed loop executes no statement, so the second clock reading follows
    the first one directly, and the duration returned is the elapsed time
    divided by 1. *)
Theorem time_query_no_division_by_zero (sql : string) (warmup : bool)
    (iterations : Z) (st : state) :
  let w1 := after_warmup warmup sql (conn st) in
  let t0 := fst (perf_counter w1) in
  let w2 := snd (perf_counter w1) in
  Z.max 1 iterations <> 0%Z
  /\ (exists d p w,
        time_query sql warmup iterations st = (Ret (d, p), State w (stdout st)))
  /\ ((iterations <= 0)%Z ->
      time_query sql warmup iterations st
      = (Ret (Some ((fst (perf_counter w2) - t0) / inject_Z 1)%Q, Results None),
         State (snd (perf_counter w2)) (stdout st))).
Proof.
  intros w1 t0 w2. split; [lia|]. split; [apply time_query_returns|].
  intros Hle.
  assert (Hr : runs sql (Z.to_nat iterations) w2 None w2 None).
  { replace (Z.to_nat iterations) with 0%nat by lia. constructor. }
  rewrite (time_query_success _ _ _ _ _ _ Hr).
  by replace (Z.max 1 iterations) with 1%Z by lia.
Qed.

End TimeQuery.

(** C7, as stated, fails for an iteration count below 1: with 0 or -2
    iterations the duration returned is the elapsed time divided by 1, not
    by the iteration count. *)
Lemma time_query_not_divided_by_iterations :
  let elapsed := ((1 # 1000) - (0 # 1000))%Q in
  time_query "SELECT 1" false (-2) Sample.start
  = (Ret (Some (elapsed / inject_Z 1)%Q, Results None), State 2%Z [])
  /\ ~ (elapsed / inject_Z 1 == elapsed / inject_Z (-2))%Q
  /\ time_query "SELECT 1" false 0 Sample.start
     = (Ret (Some (elapsed / inject_Z 1)%Q, Results None), State 2%Z [])
  /\ ~ (elapsed / inject_Z 1 == elapsed / inject_Z 0)%Q.
Proof.
  repeat split; try reflexivity; intros Hc; vm_compute in Hc; discriminate.
Qed.

Lemma time_query_contract_witness :
  time_query "SELECT 1" true 2 Sample.start
  = (Ret (Some (((1 # 1000) - (0 # 1000)) / inject_Z 2)%Q, Results (Some [["1"]])),
     State 2%Z [])
  /\ time_query "SELECT nope" true 3 Sample.start
     = (Ret (None, ErrorText "cannot run: SELECT nope"), State 3%Z [])
  /\ Z.max 1 2 = 2%Z.
Proof.
  split; [|split].
  - apply (proj1 (time_query_contract "SELECT 1" true 2 Sample.start)).
    eapply runs_step; [reflexivity|]. eapply runs_step; [reflexivity|]. constructor.
  - apply (proj1 (proj2 (time_query_contract "SELECT nope" true 3 Sample.start))
             (Exn DatabaseError "cannot run: SELECT nope") 3%Z).
    apply fails_now. reflexivity.
  - apply (proj1 (proj2 (proj2 (time_query_contract "SELECT 1" true 2 Sample.start)))). lia.
Defined.

Lemma time_query_no_division_by_zero_witness :
  time_query "SELECT 1" true 0 Sample.start
  = (Ret (Some (((1 # 1000) - (0 # 1000)) / inject_Z 1)%Q, Results None), State 2%Z []).
Proof.
  apply (proj2 (proj2 (time_query_no_division_by_zero "SELECT 1" true 0 Sample.start))). lia.
Defined.

(* ===================================================================== *)
(** ** Facts about the cost estimator and the loops of the analysis *)
(* ===================================================================== *)

Section LoopFacts.
Context `{Engine} `{parser : SqlParse} `{SetOrder}.
Import StrFacts ExtractorFacts.

Lemma print_eq (line : string) (st : state) :
  print line st = (Ret tt, State (conn st) (stdout st ++ [line])).
Proof. reflexivity. Qed.

Lemma time_query_total (sql : string) (warmup : bool) (iterations : Z) (st : state) :
  exists r st', time_query sql warmup iterations st = (Ret r, st').
Proof.
  destruct (time_query_returns sql warmup iterations st) as (d & p & w & Ht).
  eauto.
Qed.

Lemma table_columns_total (l r : string) (st : state) :
  exists cols st', table_columns l r st = (Ret cols, st').
Proof.
  unfold table_columns, try_except.
  match goal with |- context [match ?m st with _ => _ end] => destruct (m st) as [[a|e] st'] end;
    unfold ret; eauto.
Qed.

Lemma estimate_join_cost_total (l r : string) (c : option string) (st : state) :
  exists d st', estimate_join_cost l r c st = (Ret d, st').
Proof.
  unfold estimate_join_cost.
  destruct (table_columns_total l r st) as (cols & st1 & Hc).
  erewrite bind_ret by exact Hc.
  destruct (time_query_total (join_probe_sql l r c (fst cols) (snd cols)) true 1 st1)
    as (rt & st2 & Ht).
  unfold time_query_default. erewrite bind_ret by exact Ht.
  unfold ret. eauto.
Qed.

(** One pass of the loop of [estimate_table_costs] records a duration,
    possibly null, for its table. *)
Lemma estimate_table_costs_loop_spec (ts : list string) :
  forall costs st,
    exists ds st',
      List.length ds = List.length ts
      /\ estimate_table_costs_loop ts costs st
         = (Ret (assign_all costs (zip ts ds)), st').
Proof.
  induction ts as [|t ts IH]; intros costs st.
  - exists [], st. done.
  - simpl.
    destruct (time_query_total ("SELECT COUNT(*) FROM " +:+ t) true 1 st)
      as ([d p] & st1 & Ht).
    assert (Hbody :
      try_except
        (r <- time_query_default ("SELECT COUNT(*) FROM " +:+ t) ;;
         match fst r with
         | None => ret (dict_set t None costs)
         | Some dur => ret (dict_set t (Some dur) costs)
         end)
        (fun _ => ret (dict_set t None costs)) st
      = (Ret (dict_set t d costs), st1)).
    { unfold try_except, time_query_default. erewrite bind_ret by exact Ht.
      simpl. by destruct d. }
    erewrite bind_ret by exact Hbody.
    destruct (IH (dict_set t d costs) st1) as (ds & st' & Hlen & Hloop).
    exists (d :: ds), st'. split; [simpl; lia|]. by rewrite Hloop.
Qed.

Lemma index_lt (tables : list string) (i : nat) (st : state) :
  (i < List.length tables)%nat -> index tables i st = (Ret (nth i tables EmptyString), st).
Proof.
  intros Hi. unfold index.
  destruct (tables !! i) as [t|] eqn:Ht.
  - by rewrite (nth_lookup_Some _ _ EmptyString _ Ht).
  - apply lookup_ge_None in Ht. lia.
Qed.

Lemma join_inner_loop_spec (tables : list string) (i : nat) (js : list nat) :
  (i < List.length tables)%nat ->
  List.Forall (fun j => (j < List.length tables)%nat) js ->
  forall acc st,
    exists ds st',
      List.length ds = List.length js
      /\ join_inner_loop tables i js acc st
         = (Ret (assign_all (fst acc) (zip_with (join_entry tables) (map (pair i) js) ds),
                 snd acc ++ zip_with (join_step tables) (map (pair i) js) ds), st').
Proof.
  intros Hi. induction 1 as [|j js Hj Hjs IH]; intros acc st.
  - exists [], st. simpl. rewrite app_nil_r. by destruct acc.
  - simpl.
    erewrite bind_ret by (by apply index_lt).
    erewrite bind_ret by (by apply index_lt).
    destruct (estimate_join_cost_total (nth i tables EmptyString) (nth j tables EmptyString) None st)
      as (d & st1 & Hd).
    erewrite bind_ret by exact Hd.
    edestruct IH as (ds & st' & Hlen & Hloop). rewrite Hloop.
    exists (d :: ds), st'. split; [simpl; lia|].
    simpl. by rewrite <- app_assoc.
Qed.

Lemma join_outer_loop_spec (tables : list string) (rows_i : list nat) :
  List.Forall (fun i => (i < List.length tables)%nat) rows_i ->
  forall acc st,
    exists ds st',
      List.length ds = List.length (pairs_for (List.length tables) rows_i)
      /\ join_outer_loop tables rows_i acc st
         = (Ret (assign_all (fst acc)
                   (zip_with (join_entry tables) (pairs_for (List.length tables) rows_i) ds),
                 snd acc ++ zip_with (join_step tables)
                              (pairs_for (List.length tables) rows_i) ds), st').
Proof.
  induction 1 as [|i rows_i Hi Hrows IH]; intros acc st.
  - exists [], st. simpl. rewrite app_nil_r. by destruct acc.
  - simpl.
    edestruct (join_inner_loop_spec tables i
                 (seq (i + 1) (List.length tables - (i + 1))) Hi) as (d1 & st1 & Hl1 & H1).
    { apply List.Forall_forall. intros j Hj%in_seq. lia. }
    erewrite bind_ret by exact H1.
    edestruct IH as (d2 & st' & Hl2 & H2). rewrite H2.
    exists (d1 ++ d2), st'. split.
    + unfold pairs_for in *. simpl. rewrite !length_app, Hl1, Hl2, length_map. done.
    + unfold pairs_for in *. simpl. rewrite !zip_with_app by (by rewrite Hl1, length_map).
      unfold assign_all. by rewrite foldl_app, <- app_assoc.
Qed.

Lemma strip_outer_parens_parenthesised (f inner : string) (st : state) :
  f = String "(" (inner +:+ ")") ->
  strip_outer_parens f st = (Ret (inner_text f), st).
Proof.
  intros ->.
  assert (Hlast : last_char (String "(" (inner +:+ ")")) = Some ")"%char)
    by apply (last_char_snoc (String "(" inner)).
  unfold strip_outer_parens, inner_text. rewrite strip_parenthesised.
  cbn [first_char]. rewrite Hlast.
  rewrite bool_decide_eq_true_2 by done. reflexivity.
Qed.

Lemma subquery_loop_spec (subs : list string) :
  List.Forall (fun f => exists inner, f = String "(" (inner +:+ ")")) subs ->
  forall idx acc st,
    exists ds st',
      List.length ds = List.length subs
      /\ subquery_loop idx subs acc st
         = (Ret (assign_all (fst acc)
                   (zip_with subquery_entry (zip (seq idx (List.length subs)) subs) ds),
                 snd acc ++ zip_with subquery_step
                              (zip (seq idx (List.length subs)) subs) ds), st').
Proof.
  induction 1 as [|f subs [inner Hf] Hsubs IH]; intros idx acc st.
  - exists [], st. simpl. rewrite app_nil_r. by destruct acc.
  - simpl.
    erewrite bind_ret by (by eapply strip_outer_parens_parenthesised).
    destruct (time_query_total (inner_text f) true 1 st) as (r & st1 & Ht).
    unfold time_query_default. erewrite bind_ret by exact Ht.
    edestruct IH as (ds & st' & Hlen & Hloop). rewrite Hloop.
    exists (fst r :: ds), st'. split; [simpl; lia|].
    simpl. by rewrite <- app_assoc.
Qed.

(** Assigning to keys that are all new and distinct appends the entries. *)
Lemma dict_set_new {V} (k : string) (v : V) (d : dict V) :
  ~ In k (map fst d) -> dict_set k v d = d ++ [(k, v)].
Proof.
  induction d as [|[k' v'] d IH]; simpl; [done|]. intros Hk.
  destruct (String.eqb_spec k k') as [->|]; [tauto|].
  rewrite IH; [done | tauto].
Qed.

Lemma assign_all_new {V} (ts : list string) :
  NoDup ts ->
  forall (vs : list V) (d : dict V),
    (forall t, In t ts -> ~ In t (map fst d)) ->
    assign_all d (zip ts vs) = d ++ zip ts vs.
Proof.
  induction 1 as [|t ts Ht Hts IH]; intros vs d Hd; simpl.
  - by rewrite app_nil_r.
  - destruct vs as [|v vs]; simpl; [by rewrite app_nil_r|].
    rewrite dict_set_new by (apply Hd; by left).
    rewrite IH.
    + by rewrite <- app_assoc.
    + intros t' Ht'. rewrite map_app, in_app_iff. simpl.
      intros [Hin|[<-|[]]].
      * by apply (Hd t'); [right|].
      * apply Ht. by apply list_elem_of_In.
Qed.

Lemma extract_table_names_NoDup (q : string) (ts : list string) :
  extract_table_names q = Ret ts -> NoDup ts.
Proof.
  unfold extract_table_names. destruct (sqlparse_block q); [done|].
  intros [= <-]. rewrite set_iter_perm. apply NoDup_elements.
Qed.

Lemma extract_table_names_parsed (q : string) :
  sqlparse_block q = None -> exists ts, extract_table_names q = Ret ts.
Proof. unfold extract_table_names. intros ->. eauto. Qed.

Lemma extract_table_names_raises (q : string) (e : exn) :
  sqlparse_block q = Some e -> extract_table_names q = Raise e.
Proof. unfold extract_table_names. by intros ->. Qed.

Lemma table_steps_zip (ts : list string) (ds : list (option Q)) :
  table_steps (zip ts ds) = zip_with table_step ts ds.
Proof.
  unfold table_steps. revert ds.
  induction ts as [|t ts IH]; intros [|d ds]; simpl; [done..|]. by rewrite IH.
Qed.

Lemma estimate_table_costs_spec (ts : list string) (st : state) :
  NoDup ts ->
  exists ds st',
    List.length ds = List.length ts
    /\ estimate_table_costs ts st = (Ret (zip ts ds), st').
Proof.
  intros Hts. unfold estimate_table_costs.
  destruct (estimate_table_costs_loop_spec ts [] st) as (ds & st' & Hlen & Hloop).
  exists ds, st'. split; [done|].
  rewrite Hloop, assign_all_new; [done | done |]. intros t _ [].
Qed.

Lemma pair_indices_small (n : nat) : (n < 2)%nat -> pair_indices n = [].
Proof.
  intros Hn. destruct n as [|[|n]]; [done | done | lia].
Qed.

(** The block of [analyze_query] that estimates the joins. *)
Lemma join_block_spec (tables : list string) (tl : list Step) (st : state) :
  exists ds st',
    List.length ds = List.length (pair_indices (List.length tables))
    /\ (if (2 <=? List.length tables)%nat
        then print "Estimating join costs (pairwise)..." ;;;
             join_outer_loop tables (seq 0 (List.length tables)) ([], tl)
        else ret ([], tl)) st
       = (Ret (assign_all [] (zip_with (join_entry tables)
                                (pair_indices (List.length tables)) ds),
               tl ++ zip_with (join_step tables)
                       (pair_indices (List.length tables)) ds), st').
Proof.
  destruct (2 <=? List.length tables)%nat eqn:Hn.
  - erewrite bind_ret by apply print_eq.
    edestruct (join_outer_loop_spec tables (seq 0 (List.length tables)))
      as (ds & st' & Hlen & Hloop).
    { apply List.Forall_forall. intros i Hi%in_seq. lia. }
    exists ds, st'. split; [exact Hlen|]. rewrite Hloop. reflexivity.
  - apply Nat.leb_gt in Hn. rewrite pair_indices_small by done.
    exists [], st. simpl. by rewrite app_nil_r.
Qed.

(** The block of [analyze_query] that times the fragments. *)
Lemma subquery_block_spec (q : string) (tl : list Step) (st : state) :
  exists ds st',
    List.length ds = List.length (extract_subqueries q)
    /\ (match extract_subqueries q with
        | [] => ret ([], tl)
        | _ => print "Timing subqueries..." ;;;
               subquery_loop 1 (extract_subqueries q) ([], tl)
        end) st
       = (Ret (assign_all [] (zip_with subquery_entry (numbered (extract_subqueries q)) ds),
               tl ++ zip_with subquery_step (numbered (extract_subqueries q)) ds), st').
Proof.
  assert (Hall : List.Forall (fun f => exists inner, f = String "(" (inner +:+ ")"))
                   (extract_subqueries q)).
  { apply List.Forall_forall. intros f Hf. by apply extract_subqueries_shape in Hf. }
  destruct (extract_subqueries q) as [|f subs] eqn:Hs.
  - exists [], st. simpl. by rewrite app_nil_r.
  - erewrite bind_ret by apply print_eq.
    edestruct (subquery_loop_spec (f :: subs) Hall 1) as (ds & st' & Hlen & Hloop).
    exists ds, st'. split; [exact Hlen|]. rewrite Hloop. reflexivity.
Qed.

(** [analyze_query] once the plan has been read: every later stage returns,
    and the report and the timeline have the shape [analysis_shape]. *)
Lemma analyze_query_timeline_spec (sql : string) (st st1 : state) (rows : list row) :
  parses sql ->
  explain_query_plan (normalized sql) st = (Ret rows, st1) ->
  exists r pre st' p st2,
    analyze_query_timeline sql st = (Ret (r, pre), st')
    /\ explain r = rows
    /\ time_query (normalized sql) true 1
         (State (conn st1) (stdout st1 ++ ["Timing full query..."]))
       = (Ret (full_query_duration_s r, p), st2)
    /\ analysis_shape sql r pre.
Proof.
  intros Hparse Hexp. unfold analyze_query_timeline.
  change (rstrip_semicolon (strip sql)) with (normalized sql).
  unfold parses in Hparse.
  set (q := normalized sql) in *.
  destruct (count_joins_and_subqueries q) as [jc sc].
  destruct (extract_table_names_parsed q Hparse) as [ts Hts].
  rewrite Hts. unfold bind at 1, lift.
  erewrite bind_ret by exact Hexp.
  erewrite bind_ret by apply print_eq.
  destruct (time_query_total q true 1
              (State (conn st1) (stdout st1 ++ ["Timing full query..."])))
    as ([fd p] & st2 & Hfull).
  erewrite bind_ret by exact Hfull.
  erewrite bind_ret by apply print_eq.
  edestruct (estimate_table_costs_spec ts)
    as (tds & st3 & Htl & Htc); [by eapply extract_table_names_NoDup|].
  erewrite bind_ret by exact Htc.
  edestruct (join_block_spec ts) as (jds & st4 & Hjl & Hjc).
  erewrite bind_ret by exact Hjc.
  edestruct (subquery_block_spec q) as (sds & st5 & Hsl & Hsc).
  cbv beta iota.
  erewrite bind_ret by exact Hsc.
  cbv beta iota. unfold ret.
  eexists _, _, _, p, st2. split; [reflexivity|].
  split; [reflexivity|]. split; [exact Hfull|].
  exists tds, jds, sds. simpl.
  repeat split; try done.
  rewrite table_steps_zip. by rewrite <- !app_assoc.
Qed.

(** An exception of the [sqlparse] block leaves [analyze_query] at once. *)
Lemma analyze_query_timeline_parse_error (sql : string) (st : state) (e : exn) :
  sqlparse_block (normalized sql) = Some e ->
  analyze_query_timeline sql st = (Raise e, st).
Proof.
  intros Hparse. unfold analyze_query_timeline.
  change (rstrip_semicolon (strip sql)) with (normalized sql).
  destruct (count_joins_and_subqueries (normalized sql)) as [jc sc].
  by rewrite (extract_table_names_raises _ _ Hparse).
Qed.

Lemma analyze_query_timeline_raise (sql : string) (st st1 : state) (e : exn) :
  parses sql ->
  explain_query_plan (normalized sql) st = (Raise e, st1) ->
  analyze_query_timeline sql st = (Raise e, st1).
Proof.
  intros Hparse Hexp. unfold analyze_query_timeline.
  change (rstrip_semicolon (strip sql)) with (normalized sql).
  destruct (count_joins_and_subqueries (normalized sql)) as [jc sc].
  destruct (extract_table_names_parsed _ Hparse) as [ts Hts].
  rewrite Hts. unfold bind at 1, lift.
  by erewrite bind_raise by exact Hexp.
Qed.

(** What [explain_query_plan] does with the outcome of its statement. *)
Lemma explain_query_plan_rows (sql : string) (st : state) (rows : list row) (w : world) :
  run_statement ("EXPLAIN QUERY PLAN " +:+ sql) (conn st) = (inl rows, w) ->
  explain_query_plan sql st = (Ret rows, State w (stdout st)).
Proof.
  intros Hr. unfold explain_query_plan, try_except_database, execute_fetchall.
  by rewrite Hr.
Qed.

Lemma explain_query_plan_database_error (sql : string) (st : state) (e : exn) (w : world) :
  run_statement ("EXPLAIN QUERY PLAN " +:+ sql) (conn st) = (inr e, w) ->
  is_database_error e = true ->
  explain_query_plan sql st
  = (Ret [], State w (stdout st ++ ["EXPLAIN failed: " +:+ exn_msg e])).
Proof.
  intros Hr He. unfold explain_query_plan, try_except_database, execute_fetchall.
  rewrite Hr, He. reflexivity.
Qed.

Lemma explain_query_plan_other_error (sql : string) (st : state) (e : exn) (w : world) :
  run_statement ("EXPLAIN QUERY PLAN " +:+ sql) (conn st) = (inr e, w) ->
  is_database_error e = false ->
  explain_query_plan sql st = (Raise e, State w (stdout st)).
Proof.
  intros Hr He. unfold explain_query_plan, try_except_database, execute_fetchall.
  rewrite Hr, He. reflexivity.
Qed.

End LoopFacts.

(* ===================================================================== *)
(** ** The analysis as a whole *)
(* ===================================================================== *)

Section Analysis.
Context `{Engine} `{parser : SqlParse} `{SetOrder}.

Lemma plan_readable_returns (sql : string) (st : state) :
  plan_readable sql (conn st) ->
  exists rows st1, explain_query_plan (normalized sql) st = (Ret rows, st1).
Proof.
  unfold plan_readable.
  destruct (run_statement ("EXPLAIN QUERY PLAN " +:+ normalized sql) (conn st))
    as [[rows|e] w] eqn:Hr; simpl; intros He.
  - eexists _, _. by apply explain_query_plan_rows.
  - eexists _, _. by apply explain_query_plan_database_error.
Qed.


(** Every step that [analyze_query] creates has a non-null duration. *)
Lemma shape_durations (sql : string) (r : Report) (pre : list Step) :
  analysis_shape sql r pre ->
  List.Forall (fun s => exists q, duration_s s = Some q) pre.
Proof.
  intros (tds & jds & sds & _ & _ & _ & _ & _ & _ & _ & -> & _).
  repeat apply Forall_app_2.
  - apply List.Forall_forall. intros s (x & <- & _)%in_map_iff. simpl. eauto.
  - apply List.Forall_forall. intros s Hs.
    apply list_elem_of_In, elem_of_zip_with in Hs as (t & d & -> & _). simpl. eauto.
  - apply List.Forall_forall. intros s Hs.
    apply list_elem_of_In, elem_of_zip_with in Hs as (ij & d & -> & _). simpl. eauto.
  - apply List.Forall_forall. intros s Hs.
    apply list_elem_of_In, elem_of_zip_with in Hs as (k & d & -> & _). simpl. eauto.
  - repeat constructor. simpl. eauto.
Qed.

Lemma shape_full_step (sql : string) (r : Report) (pre : list Step) :
  analysis_shape sql r pre ->
  In (full_step (normalized sql) (full_query_duration_s r)) (timeline r).
Proof.
  intros (tds & jds & sds & _ & _ & _ & _ & _ & _ & _ & -> & -> & _).
  apply list_elem_of_In. rewrite sorted_desc_perm.
  apply list_elem_of_In. rewrite !in_app_iff. simpl. tauto.
Qed.


(** C1 fails on [analyze_query]: when every execution of the query fails,
    the analysis is not aborted.  It returns a report whose full-query
    duration is null and whose timeline holds the full-query step with
    duration 0.0. *)
Theorem analyze_query_reports_failed_query (sql : string) (st : state) :
  (forall w, exists e w', run_statement (normalized sql) w = (inr e, w')) ->
  parses sql ->
  plan_readable sql (conn st) ->
  exists r st',
    analyze_query sql st = (Ret r, st')
    /\ full_query_duration_s r = None
    /\ In (full_step (normalized sql) None) (timeline r)
    /\ duration_s (full_step (normalized sql) None) = Some 0%Q.
Proof.
  intros Hfail Hparse Hplan.
  destruct (plan_readable_returns _ _ Hplan) as (rows & st1 & Hexp).
  destruct (analyze_query_timeline_spec _ _ _ _ Hparse Hexp)
    as (r & pre & st' & p & st2 & Hrun & _ & Hfull & Hshape).
  exists r, st'. unfold analyze_query. erewrite bind_ret by exact Hrun.
  split; [reflexivity|].
  assert (Hnull : full_query_duration_s r = None).
  { edestruct Hfail as (e & w' & He).
    erewrite time_query_failure in Hfull by (apply fails_now; exact He).
    congruence. }
  split; [exact Hnull|]. split; [|reflexivity].
  rewrite <- Hnull. by eapply shape_full_step.
Qed.


(** C8 fails on both analyzers.  When the plan statement fails with a
    [sqlite3.DatabaseError], [explain_query_plan] prints the error as a
    warning and returns the empty sequence, and the analysis goes on to
    return its report with an empty plan, as claimed.  But a failure of any
    other exception class is not caught: it leaves [explain_query_plan] and
    then [analyze_query], which returns no report.  And the front-end's
    [explain_query], which catches every failure, returns one row holding
    the error text instead of the empty sequence, and logs nothing. *)
Theorem explain_failure_outcomes (q : string) (st : state) (e : exn) (w : world) :
  run_statement ("EXPLAIN QUERY PLAN " +:+ q) (conn st) = (inr e, w) ->
  (is_database_error e = true ->
     explain_query_plan q st
     = (Ret [], State w (stdout st ++ ["EXPLAIN failed: " +:+ exn_msg e]))
     /\ forall sql, normalized sql = q -> parses sql ->
          exists r pre st',
            analyze_query_timeline sql st = (Ret (r, pre), st')
            /\ analyze_query sql st = (Ret r, st')
            /\ explain r = []
            /\ analysis_shape sql r pre)
  /\ (is_database_error e = false ->
        explain_query_plan q st = (Raise e, State w (stdout st))
        /\ forall sql, normalized sql = q -> parses sql ->
             analyze_query sql st = (Raise e, State w (stdout st)))
  /\ Gui.explain_query q st
     = (Ret [["EXPLAIN FAILED"; exn_msg e]], State w (stdout st)).
Proof.
  intros Hr. split; [|split].
  - intros He.
    pose proof (explain_query_plan_database_error _ _ _ _ Hr He) as Hexp.
    split; [exact Hexp|]. intros sql <- Hparse.
    destruct (analyze_query_timeline_spec _ _ _ _ Hparse Hexp)
      as (r & pre & st' & p & st2 & Hrun & Hrows & _ & Hshape).
    exists r, pre, st'. split; [exact Hrun|].
    split; [|by split].
    unfold analyze_query. by erewrite bind_ret by exact Hrun.
  - intros He.
    pose proof (explain_query_plan_other_error _ _ _ _ Hr He) as Hexp.
    split; [exact Hexp|]. intros sql <- Hparse.
    unfold analyze_query.
    by erewrite bind_raise by (apply analyze_query_timeline_raise; eassumption).
  - unfold Gui.explain_query, try_except, execute_fetchall. by rewrite Hr.
Qed.






End Analysis.

(* ===================================================================== *)
(** ** The probe of the join estimate *)
(* ===================================================================== *)

Section JoinProbe.
Context `{Engine} `{SetOrder}.
Import StrFacts.

Lemma column_names_wide (rows : list row) (st : state) :
  List.Forall (fun r => (2 <= List.length r)%nat) rows ->
  column_names rows st = (Ret (names_of rows), st).
Proof.
  induction 1 as [|r rows Hr Hrows IH]; simpl; [done|].
  destruct r as [|c0 [|c1 r]]; simpl in Hr; [lia | lia |].
  simpl. erewrite bind_ret by exact IH. reflexivity.
Qed.

Lemma table_columns_read (l r : string) (st : state) (lrows rrows : list row)
    (w1 w2 : world) :
  run_statement ("PRAGMA table_info(" +:+ l +:+ ")") (conn st) = (inl lrows, w1) ->
  run_statement ("PRAGMA table_info(" +:+ r +:+ ")") w1 = (inl rrows, w2) ->
  List.Forall (fun row => (2 <= List.length row)%nat) lrows ->
  List.Forall (fun row => (2 <= List.length row)%nat) rrows ->
  table_columns l r st = (Ret (names_of lrows, names_of rrows), State w2 (stdout st)).
Proof.
  intros Hl Hr Hlw Hrw. unfold table_columns, try_except.
  unfold bind at 1. unfold execute_fetchall at 1. rewrite Hl.
  erewrite bind_ret by (by apply column_names_wide).
  unfold bind at 1. unfold execute_fetchall at 1. simpl conn. rewrite Hr.
  erewrite bind_ret by (by apply column_names_wide).
  reflexivity.
Qed.

Lemma set_iter_nonempty (X : gset string) :
  X <> ∅ -> exists c rest, set_iter X = c :: rest /\ c ∈ X.
Proof.
  intros HX. destruct (set_iter X) as [|c rest] eqn:Hs.
  - exfalso. apply HX. apply leibniz_equiv, elements_empty_inv.
    pose proof (set_iter_perm X) as Hp. rewrite Hs in Hp.
    apply Permutation_nil_l in Hp. by rewrite Hp.
  - exists c, rest. split; [done|].
    apply elem_of_elements. rewrite <- set_iter_perm, Hs. by left.
Qed.

Lemma set_iter_empty : set_iter (∅ : gset string) = [].
Proof.
  apply Permutation_nil_r. rewrite set_iter_perm. by rewrite elements_empty.
Qed.

Lemma truthy_condition (l c r : string) :
  truthy (Some (l +:+ "." +:+ c +:+ " = " +:+ r +:+ "." +:+ c)) = true.
Proof. by destruct l. Qed.

(** C5, amended: with no explicit join condition, [estimate_join_cost]
    times the statement [join_probe_sql] builds from the two column lists it
    read (both empty when the schema could not be read).  When the two sets
    of column names intersect, that statement is the join on one shared
    column, the first one in the interpreter's iteration order of the
    intersection; when they do not, it is the cross probe limited to 1000
    rows.  The column lists are the column 1 of the rows of
    [PRAGMA table_info]. *)
Theorem join_probe_statement (l r : string) (st : state) :
  exists lcols rcols st1,
    table_columns l r st = (Ret (lcols, rcols), st1)
    /\ (forall lrows rrows w1 w2,
          run_statement ("PRAGMA table_info(" +:+ l +:+ ")") (conn st) = (inl lrows, w1) ->
          run_statement ("PRAGMA table_info(" +:+ r +:+ ")") w1 = (inl rrows, w2) ->
          List.Forall (fun row => (2 <= List.length row)%nat) lrows ->
          List.Forall (fun row => (2 <= List.length row)%nat) rrows ->
          lcols = names_of lrows /\ rcols = names_of rrows
          /\ st1 = State w2 (stdout st))
    /\ estimate_join_cost l r None st
       = bind (time_query (join_probe_sql l r None lcols rcols) true 1)
              (fun res => ret (fst res)) st1
    /\ (forall common : gset string,
          common = list_to_set lcols ∩ list_to_set rcols ->
          (common <> ∅ ->
             exists c, c ∈ common /\ head (set_iter common) = Some c
               /\ join_probe_sql l r None lcols rcols
                  = "SELECT COUNT(*) FROM " +:+ l +:+ " JOIN " +:+ r +:+ " ON "
                    +:+ l +:+ "." +:+ c +:+ " = " +:+ r +:+ "." +:+ c)
          /\ (common = ∅ ->
                join_probe_sql l r None lcols rcols
                = "SELECT COUNT(*) FROM " +:+ l +:+ ", " +:+ r +:+ " LIMIT 1000")).
Proof.
  destruct (table_columns_total l r st) as ([lcols rcols] & st1 & Hc).
  exists lcols, rcols, st1. split; [exact Hc|]. split; [|split].
  - intros lrows rrows w1 w2 Hl Hr Hlw Hrw.
    rewrite (table_columns_read _ _ _ _ _ _ _ Hl Hr Hlw Hrw) in Hc.
    by inversion Hc.
  - unfold estimate_join_cost. by erewrite bind_ret by exact Hc.
  - intros common ->. unfold join_probe_sql. cbn [truthy]. split.
    + intros Hne. destruct (set_iter_nonempty _ Hne) as (c & rest & Hs & Hin).
      exists c. split; [done|]. rewrite Hs. split; [done|].
      by rewrite truthy_condition.
    + intros ->. by rewrite set_iter_empty.
Qed.

End JoinProbe.

(* ===================================================================== *)
(** ** The properties on the sample engine *)
(* ===================================================================== *)

(** The failing input of C1: the query [SELECT nope FROM customers] cannot
    run on the sample database, and [analyze_query] still returns a
    report. *)
Lemma analyze_query_reports_failed_query_witness :
  exists r st',
    analyze_query "SELECT nope FROM customers" Sample.start = (Ret r, st')
    /\ full_query_duration_s r = None
    /\ In (full_step "SELECT nope FROM customers" None) (timeline r)
    /\ duration_s (full_step "SELECT nope FROM customers" None) = Some 0%Q.
Proof.
  apply (analyze_query_reports_failed_query "SELECT nope FROM customers" Sample.start).
  - intros w. eexists _, _. reflexivity.
  - reflexivity.
  - reflexivity.
Defined.




(** The same analysis, computed: two plan steps, two table scans, one join,
    one subquery and the full query enter the timeline in that order; the
    sort moves the two plan steps, which tie at duration 0, to the end
    without swapping them. *)
Example nested_sample_order :
  exists r pre st',
    analyze_query_timeline Sample.nested Sample.start = (Ret (r, pre), st')
    /\ tables r = ["orders"; "customers"]
    /\ map type pre
       = [explain_step; explain_step; table_scan; table_scan; join; subquery; query]
    /\ map type (timeline r)
       = [join; query; table_scan; subquery; table_scan; explain_step; explain_step]
    /\ map name (with_key 0 pre)
       = ["(2, 0, 0, SCAN customers)"; "(4, 0, 0, LIST SUBQUERY 1)"]
    /\ map name (with_key 0 (timeline r))
       = ["(2, 0, 0, SCAN customers)"; "(4, 0, 0, LIST SUBQUERY 1)"].
Proof.
  eexists _, _, _. split; [vm_compute; reflexivity|].
  repeat split; reflexivity.
Qed.

(** The failing input of C8 on the terminal analyzer: a driver that is out
    of memory raises [MemoryError], which is not a [sqlite3.DatabaseError];
    the exception leaves [explain_query_plan] and [analyze_query], while
    the front-end's [explain_query] returns one row. *)
Lemma explain_failure_outcomes_witness :
  @explain_query_plan Mute.engine "SELECT 1" (@State Mute.engine 0%Z [])
  = (Raise (Exn OtherException EmptyString), @State Mute.engine 0%Z [])
  /\ @analyze_query Mute.engine _ _ "SELECT 1;" (@State Mute.engine 0%Z [])
     = (Raise (Exn OtherException EmptyString), @State Mute.engine 0%Z [])
  /\ @Gui.explain_query Mute.engine "SELECT 1" (@State Mute.engine 0%Z [])
     = (Ret [["EXPLAIN FAILED"; EmptyString]], @State Mute.engine 0%Z []).
Proof.
  destruct (@explain_failure_outcomes Mute.engine _ _ "SELECT 1" (@State Mute.engine 0%Z [])
              (Exn OtherException EmptyString) 0%Z eq_refl)
    as (_ & Hother & Hgui).
  destruct (Hother eq_refl) as [Hexp Hall].
  split; [exact Hexp|]. split; [|exact Hgui].
  apply Hall; reflexivity.
Defined.

(** C5, as stated, fails: the shared column is not fixed by the two sets of
    column names.  For the same two column lists, sharing [customer_id],
    [name] and [city], two runs of the interpreter with different iteration
    orders time two different statements. *)
Lemma join_column_not_fixed_by_column_sets :
  let lcols := ["customer_id"; "name"; "city"] in
  let rcols := ["order_id"; "customer_id"; "name"; "city"] in
  @join_probe_sql elements_order "customers" "orders" None lcols rcols
  = "SELECT COUNT(*) FROM customers JOIN orders ON customers.customer_id = orders.customer_id"
  /\ @join_probe_sql reversed_order "customers" "orders" None lcols rcols
     = "SELECT COUNT(*) FROM customers JOIN orders ON customers.name = orders.name"
  /\ @join_probe_sql elements_order "customers" "orders" None lcols rcols
     <> @join_probe_sql reversed_order "customers" "orders" None lcols rcols.
Proof.
  split; [vm_compute; reflexivity|]. split; [vm_compute; reflexivity|].
  vm_compute. discriminate.
Qed.

Lemma join_probe_statement_witness :
  join_probe_sql "customers" "orders" None
    (names_of [["0"; "customer_id"; "INTEGER"]; ["1"; "name"; "TEXT"]; ["2"; "city"; "TEXT"]])
    (names_of [["0"; "order_id"; "INTEGER"]; ["1"; "customer_id"; "INTEGER"];
               ["2"; "order_date"; "TEXT"]; ["3"; "total"; "REAL"]])
  = "SELECT COUNT(*) FROM customers JOIN orders ON customers.customer_id = orders.customer_id"
  /\ join_probe_sql "customers" "products" None
       (names_of [["0"; "customer_id"; "INTEGER"]; ["1"; "name"; "TEXT"]; ["2"; "city"; "TEXT"]])
       (names_of [["0"; "product_id"; "INTEGER"]; ["1"; "price"; "REAL"]])
     = "SELECT COUNT(*) FROM customers, products LIMIT 1000".
Proof.
  split.
  - destruct (join_probe_statement "customers" "orders" Sample.start)
      as (lcols & rcols & st1 & _ & Hread & _ & Hprobe).
    destruct (Hread _ _ 1%Z 2%Z eq_refl eq_refl) as (-> & -> & _);
      [repeat constructor; simpl; lia | repeat constructor; simpl; lia |].
    destruct (Hprobe _ eq_refl) as [Hjoin _].
    destruct Hjoin as (c & Hc & _ & ->).
    { intros He. assert (Hin : "customer_id" ∈ (∅ : gset string)).
      { rewrite <- He. apply elem_of_intersection.
        split; apply elem_of_list_to_set, list_elem_of_In; simpl; tauto. }
      by apply not_elem_of_empty in Hin. }
    apply elem_of_intersection in Hc as [Hl Hr].
    apply elem_of_list_to_set, list_elem_of_In in Hl, Hr. simpl in Hl, Hr.
    destruct Hl as [<-|[<-|[<-|[]]]]; destruct Hr as [Hr|[Hr|[Hr|[Hr|[]]]]];
      try discriminate Hr.
    reflexivity.
  - destruct (join_probe_statement "customers" "products" Sample.start)
      as (lcols & rcols & st1 & _ & Hread & _ & Hprobe).
    destruct (Hread _ _ 1%Z 2%Z eq_refl eq_refl) as (-> & -> & _);
      [repeat constructor; simpl; lia | repeat constructor; simpl; lia |].
    destruct (Hprobe _ eq_refl) as [_ Hcross].
    apply Hcross. apply leibniz_equiv, elem_of_equiv_empty. intros c Hc.
    apply elem_of_intersection in Hc as [Hl Hr].
    apply elem_of_list_to_set, list_elem_of_In in Hl, Hr. simpl in Hl, Hr.
    destruct Hl as [<-|[<-|[<-|[]]]]; destruct Hr as [Hr|[Hr|[]]]; discriminate Hr.
Defined.

(* ===================================================================== *)
(** ** The desktop front-end on the same inputs *)
(* ===================================================================== *)

Section GuiFacts.
Context `{Engine} `{SetOrder}.

Lemma gui_explain_query_total (sql : string) (st : state) :
  exists rows st', Gui.explain_query sql st = (Ret rows, st').
Proof.
  unfold Gui.explain_query, try_except.
  destruct (execute_fetchall _ st) as [[rows|e] st']; unfold ret; eauto.
Qed.

Lemma gui_time_query_failure (sql : string) (st : state) (e : exn) (w : world) :
  run_statement sql (snd (wall_clock (conn st))) = (inr e, w) ->
  Gui.time_query sql st = (Ret (None, Some (exn_msg e)), State w (stdout st)).
Proof.
  intros Hr. unfold Gui.time_query, bind at 1, time_now.
  destruct (wall_clock (conn st)) as [t0 w0]. simpl in Hr.
  unfold try_except, bind at 1, execute_fetchall. simpl conn. by rewrite Hr.
Qed.

(** The front-end stops with an error dialog when the query cannot run
    and the database gives an error text. *)
Lemma gui_analyze_sql_aborts (text : string) (st : state) :
  strip text <> EmptyString ->
  (forall w, exists e w', run_statement (strip text) w = (inr e, w') /\ exn_msg e <> EmptyString) ->
  exists msg st',
    Gui.analyze_sql text st = (Ret (ShowError "SQL Error" msg), st') /\ msg <> EmptyString.
Proof.
  intros Hne Hfail. unfold Gui.analyze_sql.
  destruct (strip text) as [|c sql] eqn:Hs; [done|].
  destruct (gui_explain_query_total (String c sql) st) as (rows & st1 & Hexp).
  erewrite bind_ret by exact Hexp.
  destruct (Hfail (snd (wall_clock (conn st1)))) as (e & w' & He & Hmsg).
  erewrite bind_ret by (apply gui_time_query_failure; exact He).
  exists (exn_msg e), (State w' (stdout st1)). split; [|done].
  cbv beta iota. unfold truthy. by destruct (exn_msg e).
Qed.

End GuiFacts.

(** On the sample database the front-end refuses the query that
    [analyze_query] reports on. *)
Example gui_refuses_failed_query :
  Gui.analyze_sql "SELECT nope FROM customers" Sample.start
  = (Ret (ShowError "SQL Error" "cannot run: SELECT nope FROM customers"),
     State 3%Z []).
Proof. reflexivity. Qed.

(** The front-end takes the first five steps as bottlenecks whatever their
    duration: here two of them have duration 0. *)
Example gui_bottlenecks_unfiltered :
  exists tables rows t timeline_sorted bottlenecks st',
    Gui.analyze_sql
      "SELECT name FROM customers WHERE customer_id IN (SELECT customer_id FROM orders)"
      Sample.start
    = (Ret (Analysed tables rows t timeline_sorted bottlenecks), st')
    /\ bottlenecks = timeline_sorted
    /\ In (Gui.step "Table scan: orders)" table_scan 0%Q) bottlenecks.
Proof.
  eexists _, _, _, _, _, _. split; [vm_compute; reflexivity|].
  split; [reflexivity|]. simpl. tauto.
Qed.

(* ===================================================================== *)
(** ** More about the extractor *)
(* ===================================================================== *)

Section ExtractorMore.
Import StrFacts ExtractorFacts.

Lemma substring_0_split (n : nat) (s : string) :
  (n <= String.length s)%nat -> s = substring 0 n s +:+ drop n s.
Proof.
  revert s. induction n as [|n IH]; intros s Hn.
  - by rewrite substring_0_0.
  - destruct s as [|c s]; simpl in Hn; [lia|].
    rewrite substring_0_S, str_app_cons. simpl drop. f_equal. apply IH. lia.
Qed.

Lemma drop_drop (a b : nat) (s : string) : drop b (drop a s) = drop (a + b) s.
Proof.
  revert s. induction a as [|a IH]; intros s; [done|].
  destruct s as [|c s]; simpl; [by destruct b | apply IH].
Qed.

Lemma drop_length (n : nat) (s : string) :
  String.length (drop n s) = (String.length s - n)%nat.
Proof.
  revert s. induction n as [|n IH]; intros s; simpl; [lia|].
  destruct s as [|c s]; simpl; [done | apply IH].
Qed.

Lemma substring_0_length_le (n : nat) (r : string) :
  (String.length (substring 0 n r) <= n)%nat.
Proof.
  revert r. induction n as [|n IH]; intros [|c r]; simpl; try lia.
  specialize (IH r). lia.
Qed.

Lemma substring_0_substring (k n : nat) (r : string) :
  (k <= n)%nat -> substring 0 k (substring 0 n r) = substring 0 k r.
Proof.
  revert r n. induction k as [|k IH]; intros r n Hk; [by rewrite !substring_0_0|].
  destruct n as [|n]; [lia|]. destruct r as [|c r]; [done|].
  rewrite !substring_0_S. f_equal. apply IH. lia.
Qed.

(** A slice inside the text splits it in three. *)
Lemma substring_split (a n : nat) (s : string) :
  (a + n <= String.length s)%nat ->
  s = substring 0 a s +:+ substring a n s +:+ drop (a + n) s.
Proof.
  intros Hle.
  rewrite (substring_0_split a s) at 1 by lia. f_equal.
  rewrite substring_drop, <- drop_drop.
  apply substring_0_split. rewrite drop_length. lia.
Qed.

(** The scan stops at the first position where the depth is back to 0:
    before it the depth stays positive. *)
Lemma find_close_balanced (s : string) :
  forall i d j,
    (1 <= d)%Z ->
    find_close s i d = Some j ->
    paren_depth (substring 0 (S j - i) s) d = 0%Z
    /\ (forall k, (k < S j - i)%nat -> (1 <= paren_depth (substring 0 k s) d)%Z)
    /\ (j - i < String.length s)%nat.
Proof.
  induction s as [|c s IH]; intros i d j Hd; cbn [find_close]; [done|].
  assert (Hstep : forall d' : Z,
            (1 <= d')%Z ->
            d' = (if Ascii.eqb c "(" then d + 1
                  else if Ascii.eqb c ")" then d - 1 else d)%Z ->
            find_close s (S i) d' = Some j ->
            paren_depth (substring 0 (S j - i) (String c s)) d = 0%Z
            /\ (forall k, (k < S j - i)%nat ->
                  (1 <= paren_depth (substring 0 k (String c s)) d)%Z)
            /\ (j - i < S (String.length s))%nat).
  { intros d' Hd' Heq Hf.
    destruct (IH _ _ _ Hd' Hf) as (Hz & Hpos & Hlen).
    destruct (find_close_spec _ _ _ _ Hf) as [Hle _].
    replace (S j - i)%nat with (S (S j - S i)) by lia.
    split; [|split; [|lia]].
    - rewrite substring_0_S. simpl. by rewrite <- Heq.
    - intros [|k] Hk; [by rewrite substring_0_0|].
      rewrite substring_0_S. simpl. rewrite <- Heq. apply Hpos. lia. }
  destruct (Ascii.eqb c "(") eqn:Ho; [apply Hstep; [lia | done]|].
  destruct (Ascii.eqb c ")") eqn:Hc; [|apply Hstep; [lia | done]].
  destruct (d - 1 =? 0)%Z eqn:Hz; [|apply Hstep; [lia | done]].
  intros [= <-]. apply Z.eqb_eq in Hz.
  replace (S i - i)%nat with 1%nat by lia.
  split; [|split; [|simpl; lia]].
  - rewrite substring_0_S, substring_0_0. simpl. by rewrite Ho, Hc.
  - intros k Hk. replace k with 0%nat by lia. by rewrite substring_0_0.
Qed.

Lemma paren_depth_open (x : string) (d : Z) :
  paren_depth (String "(" x) d = paren_depth x (d + 1).
Proof. reflexivity. Qed.

Lemma drop_cons_length (n : nat) (s r : string) (c : ascii) :
  drop n s = String c r -> (n + S (String.length r) = String.length s)%nat.
Proof.
  intros Hd. pose proof (drop_length n s) as Hl. rewrite Hd in Hl. simpl in Hl.
  destruct (decide (n < String.length s)%nat); [lia|].
  assert (String.length s - n = 0)%nat by lia. lia.
Qed.

Lemma fragment_at_balanced (sql : string) (start : nat) (r f : string) :
  drop start sql = String "(" r ->
  In f (fragment_at sql start) ->
  (exists pre post, sql = pre +:+ f +:+ post)
  /\ paren_depth f 0 = 0%Z
  /\ forall k, (0 < k < String.length f)%nat -> (0 < paren_depth (prefix k f) 0)%Z.
Proof.
  unfold fragment_at. intros Hd. rewrite Hd. simpl.
  destruct (find_close r (S start) (0 + 1)) as [i|] eqn:Hf; [|done].
  intros [<-|[]].
  destruct (find_close_spec _ _ _ _ Hf) as [Hle _].
  assert (H1 : (1 <= 0 + 1)%Z) by lia.
  destruct (find_close_balanced _ _ _ _ H1 Hf) as (Hz & Hpos & Hlen).
  pose proof (drop_cons_length _ _ _ _ Hd) as Hsl.
  assert (Hfrag : slice start (i + 1) sql = String "(" (substring 0 (S i - S start) r)).
  { unfold slice. rewrite substring_drop, Hd.
    replace (i + 1 - start)%nat with (S (S i - S start)) by lia.
    apply substring_0_S. }
  split; [|split].
  - exists (substring 0 start sql), (drop (start + (i + 1 - start)) sql).
    unfold slice. apply substring_split. lia.
  - rewrite Hfrag, paren_depth_open. exact Hz.
  - rewrite Hfrag. intros [|k] [Hk0 Hk]; [lia|]. unfold prefix.
    rewrite substring_0_S, paren_depth_open.
    assert (Hkk : (k < S i - S start)%nat).
    { pose proof (substring_0_length_le (S i - S start) r). cbn [String.length] in Hk. lia. }
    assert (Hpre : substring 0 k (substring 0 (S i - S start) r) = substring 0 k r)
      by (apply substring_0_substring; lia).
    rewrite Hpre. specialize (Hpos k Hkk). lia.
Qed.

(** X1.  Every fragment is a piece of the query text with balanced
    parentheses: the depth is back to 0 at its end and positive at every
    point inside it. *)
Theorem fragments_balanced_pieces (sql f : string) :
  In f (extract_subqueries sql) ->
  (exists pre post, sql = pre +:+ f +:+ post)
  /\ paren_depth f 0 = 0%Z
  /\ forall k, (0 < k < String.length f)%nat -> (0 < paren_depth (prefix k f) 0)%Z.
Proof.
  unfold extract_subqueries. rewrite in_flat_map.
  intros [[[i n] g] [Hin Hf]]. simpl in Hf.
  destruct (finditer_open_select_head _ _ _ _ Hin) as [r Hr].
  by eapply fragment_at_balanced.
Qed.

End ExtractorMore.

Lemma fragments_balanced_pieces_witness :
  (exists pre post, "SELECT a FROM (SELECT (y) FROM t) u" = pre +:+ "(SELECT (y) FROM t)" +:+ post)
  /\ paren_depth "(SELECT (y) FROM t)" 0 = 0%Z
  /\ forall k, (0 < k < String.length "(SELECT (y) FROM t)")%nat ->
       (0 < paren_depth (prefix k "(SELECT (y) FROM t)") 0)%Z.
Proof.
  apply (fragments_balanced_pieces "SELECT a FROM (SELECT (y) FROM t) u").
  left. reflexivity.
Defined.

Section ExtractorEdges.
Context `{parser : SqlParse} `{SetOrder}.
Import StrFacts ExtractorFacts.






(** *** Table tokens *)

Lemma all_chars_lstrip (P f : ascii -> bool) (s : string) :
  all_chars P s = true -> all_chars P (lstrip_by f s) = true.
Proof.
  induction s as [|c s IH]; [done|]. intros Hs. simpl.
  destruct (f c); [|done]. simpl in Hs. apply andb_prop in Hs as [_ Hs]. auto.
Qed.

Lemma all_chars_rstrip (P f : ascii -> bool) (s : string) :
  all_chars P s = true -> all_chars P (rstrip_by f s) = true.
Proof.
  induction s as [|c s IH]; [done|]. intros Hs. simpl in *.
  apply andb_prop in Hs as [Hc Hs]. specialize (IH Hs).
  destruct (rstrip_by f s) as [|c' r].
  - destruct (f c); simpl; [done | by rewrite Hc].
  - simpl. rewrite Hc. exact IH.
Qed.

Lemma all_chars_sub_trailing_comma (P : ascii -> bool) (s : string) :
  all_chars P s = true -> all_chars P (sub_trailing_comma s) = true.
Proof.
  induction s as [|c s IH]; [done|]. intros Hs.
  pose proof Hs as Hs'. simpl in Hs'. apply andb_prop in Hs' as [Hc Hr].
  cbn [sub_trailing_comma].
  assert (Hkeep : all_chars P (String c (sub_trailing_comma s)) = true)
    by (simpl; rewrite Hc; auto).
  destruct (Ascii.eqb c ","); [|done].
  destruct s as [|c1 s1]; [done|].
  destruct (Ascii.eqb_spec c1 "010") as [->|Hn].
  - destruct s1; [exact Hr | exact Hkeep].
  - destruct c1 as [[] [] [] [] [] [] [] []]; try exact Hkeep; by destruct Hn.
Qed.

Lemma all_chars_span (P f : ascii -> bool) (s : string) :
  all_chars P s = true ->
  all_chars P (fst (span f s)) = true /\ all_chars f (fst (span f s)) = true.
Proof.
  induction s as [|c s IH]; [done|]. intros Hs. simpl in *.
  apply andb_prop in Hs as [Hc Hs]. destruct (IH Hs) as [H1 H2].
  destruct (f c) eqn:Hf; [|done].
  destruct (span f s) as [a b]. simpl in *. by rewrite Hc, Hf, H1, H2.
Qed.

Lemma all_chars_true (s : string) : all_chars (fun _ => true) s = true.
Proof. induction s as [|c s IH]; [done | exact IH]. Qed.

Lemma first_char_lstrip (f : ascii -> bool) (s : string) (c : ascii) :
  first_char (lstrip_by f s) = Some c -> f c = false.
Proof.
  induction s as [|x s IH]; [done|]. simpl.
  destruct (f x) eqn:Hx; [exact IH|]. by intros [= <-].
Qed.

Lemma first_char_rstrip (f : ascii -> bool) (s : string) (c : ascii) :
  first_char (rstrip_by f s) = Some c -> first_char s = Some c.
Proof.
  destruct s as [|x s]; [done|]. simpl.
  destruct (rstrip_by f s); [destruct (f x)|]; by simpl.
Qed.

Lemma last_char_rstrip (f : ascii -> bool) (s : string) (c : ascii) :
  last_char (rstrip_by f s) = Some c -> f c = false.
Proof.
  induction s as [|x s IH]; [done|]. simpl.
  destruct (rstrip_by f s) as [|y r] eqn:Hr.
  - destruct (f x) eqn:Hx; [done|]. by intros [= <-].
  - intros Hl. apply IH. by destruct r.
Qed.

Lemma clean_table_token_facts (token : string) :
  all_chars (fun c => negb (is_space c)) (clean_table_token token) = true
  /\ (forall c, first_char (clean_table_token token) = Some c -> is_paren c = false)
  /\ (forall c, last_char (clean_table_token token) = Some c -> is_paren c = false)
  /\ (forall P, all_chars P token = true -> all_chars P (clean_table_token token) = true).
Proof.
  unfold clean_table_token, strip_parens, split_first. repeat split.
  - apply all_chars_rstrip, all_chars_lstrip.
    apply (all_chars_span (fun _ => true)), all_chars_true.
  - intros c Hc. apply first_char_rstrip in Hc. by apply first_char_lstrip in Hc.
  - intros c Hc. by apply last_char_rstrip in Hc.
  - intros P HP. apply all_chars_rstrip, all_chars_lstrip.
    apply all_chars_span, all_chars_sub_trailing_comma.
    unfold strip. by apply all_chars_rstrip, all_chars_lstrip.
Qed.

(** X3.  Whatever token it is given, [clean_table_token] returns a name
    without white space that neither starts nor ends with a parenthesis;
    it only removes characters, so a property of all the characters of the
    token holds of the name. *)
Theorem clean_table_token_shape (token : string) :
  all_chars (fun c => negb (is_space c)) (clean_table_token token) = true
  /\ (forall c, first_char (clean_table_token token) = Some c -> is_paren c = false)
  /\ (forall c, last_char (clean_table_token token) = Some c -> is_paren c = false)
  /\ (forall P, all_chars P token = true -> all_chars P (clean_table_token token) = true).
Proof. apply clean_table_token_facts. Qed.

Lemma keyword_token_group (kw : string) (p : option ascii) (s : string)
    (n : nat) (g : string) :
  Re.keyword_token kw p s = Some (n, g) -> all_chars is_token_char g = true.
Proof.
  unfold Re.keyword_token. destruct (boundary_before p); [|done].
  destruct (lit_ci kw s) as [s1|]; [|done].
  destruct (span is_space s1) as [ws s2].
  pose proof (all_chars_span (fun _ => true) is_token_char s2 (all_chars_true _)) as [_ Ht].
  destruct (span is_token_char s2) as [tok rest]. simpl in Ht.
  destruct ws; [done|]. destruct tok; [done|]. by intros [= _ <-].
Qed.

Lemma add_tokens_elem (kw sql : string) (X : gset string) (t : string) :
  t ∈ add_tokens kw sql X ->
  t ∈ X \/ exists m, In m (finditer (Re.keyword_token kw) sql) /\ t = clean_table_token (snd m).
Proof.
  unfold add_tokens. generalize (finditer (Re.keyword_token kw) sql) as l.
  intros l. revert X. induction l as [|m l IH]; intros X; simpl; [auto|].
  intros Ht. apply IH in Ht as [Ht|(m' & Hm' & ->)].
  - apply elem_of_union in Ht as [Ht%elem_of_singleton|Ht]; [|auto].
    right. exists m. auto.
  - right. exists m'. auto.
Qed.

(** X4.  The table names that [extract_table_names] returns are pairwise
    distinct; none holds white space, a comma or a semicolon, and none
    starts or ends with a parenthesis. *)
Theorem table_names_clean (sql : string) (names : list string) :
  extract_table_names sql = Ret names ->
  NoDup names
  /\ forall t, In t names ->
       all_chars is_token_char t = true
       /\ (forall c, first_char t = Some c -> is_paren c = false)
       /\ (forall c, last_char t = Some c -> is_paren c = false).
Proof.
  unfold extract_table_names. destruct (sqlparse_block sql); [done|].
  intros [= <-]. split.
  { rewrite set_iter_perm. apply NoDup_elements. }
  intros t Ht.
  apply list_elem_of_In in Ht. rewrite set_iter_perm in Ht.
  apply elem_of_elements in Ht.
  assert (Hm : exists kw m, In m (finditer (Re.keyword_token kw) sql)
                            /\ t = clean_table_token (snd m)).
  { apply add_tokens_elem in Ht as [Ht|(m & Hm & ->)]; [|eauto].
    apply add_tokens_elem in Ht as [Ht|(m & Hm & ->)]; [|eauto].
    by apply not_elem_of_empty in Ht. }
  destruct Hm as (kw & [[i n] g] & Hin & ->). simpl.
  destruct (finditer_from_In _ _ _ _ _ _ _ _ Hin) as [_ [p Hp]].
  apply keyword_token_group in Hp.
  destruct (clean_table_token_facts g) as (_ & Hf & Hl & Hall).
  split; [by apply Hall|]. by split.
Qed.

(** X5.  The text [analyze_query] works on, [sql.strip().rstrip(';')],
    never starts with white space and never ends with a semicolon. *)
Theorem normalized_edges (sql : string) :
  (forall c, first_char (normalized sql) = Some c -> is_space c = false)
  /\ last_char (normalized sql) <> Some ";"%char.
Proof.
  unfold normalized, rstrip_semicolon, strip. split.
  - intros c Hc. apply first_char_rstrip, first_char_rstrip in Hc.
    by apply first_char_lstrip in Hc.
  - intros Hc. by apply last_char_rstrip in Hc.
Qed.

End ExtractorEdges.


Lemma table_names_clean_witness :
  NoDup ["orders"; "customers"]
  /\ forall t, In t ["orders"; "customers"] ->
       all_chars is_token_char t = true
       /\ (forall c, first_char t = Some c -> is_paren c = false)
       /\ (forall c, last_char t = Some c -> is_paren c = false).
Proof.
  apply (table_names_clean "SELECT * FROM (customers) c JOIN orders, x").
  vm_compute. reflexivity.
Defined.

Lemma clean_table_token_shape_witness :
  all_chars (fun c => negb (is_space c)) (clean_table_token "(orders),") = true
  /\ first_char (clean_table_token "(orders),") = Some "o"%char
  /\ is_paren "o" = false
  /\ all_chars is_token_char (clean_table_token "(orders)") = true.
Proof.
  destruct (clean_table_token_shape "(orders),") as (Hs & Hf & _ & _).
  destruct (clean_table_token_shape "(orders)") as (_ & _ & _ & Hall).
  split; [exact Hs|]. split; [reflexivity|]. split; [by apply Hf|].
  by apply Hall.
Defined.

Lemma normalized_edges_witness :
  first_char (normalized "  SELECT 1 ;; ") = Some "S"%char
  /\ is_space "S" = false
  /\ last_char (normalized "  SELECT 1 ;; ") <> Some ";"%char.
Proof.
  destruct (normalized_edges "  SELECT 1 ;; ") as [Hf Hl].
  split; [reflexivity|]. split; [by apply Hf | exact Hl].
Defined.

(* ===================================================================== *)
(** ** More about the cost estimator *)
(* ===================================================================== *)

Section EstimatorMore.
Context `{Engine} `{SetOrder}.

Lemma estimate_table_costs_loop_counted (ts : list string) :
  forall costs st,
    exists ds st',
      Forall2 counted ts ds
      /\ estimate_table_costs_loop ts costs st
         = (Ret (assign_all costs (zip ts ds)), st').
Proof.
  induction ts as [|t ts IH]; intros costs st.
  - exists [], st. split; [constructor | done].
  - cbn [estimate_table_costs_loop].
    destruct (time_query_total ("SELECT COUNT(*) FROM " +:+ t) true 1 st)
      as ([d p] & st1 & Ht).
    assert (Hbody :
      try_except
        (r <- time_query_default ("SELECT COUNT(*) FROM " +:+ t) ;;
         match fst r with
         | None => ret (dict_set t None costs)
         | Some dur => ret (dict_set t (Some dur) costs)
         end)
        (fun _ => ret (dict_set t None costs)) st
      = (Ret (dict_set t d costs), st1)).
    { unfold try_except, time_query_default. erewrite bind_ret by exact Ht.
      simpl. by destruct d. }
    erewrite bind_ret by exact Hbody.
    destruct (IH (dict_set t d costs) st1) as (ds & st' & Hall & Hloop).
    exists (d :: ds), st'. split; [|by rewrite Hloop].
    constructor; [|exact Hall]. by exists st, p, st1.
Qed.

Lemma counted_failing (t : string) (d : option Q) :
  (forall w, exists e w', run_statement ("SELECT COUNT(*) FROM " +:+ t) w = (inr e, w')) ->
  counted t d -> d = None.
Proof.
  intros Hfail (st0 & p & st1 & Ht).
  edestruct Hfail as (e & w' & He).
  erewrite time_query_failure in Ht by (apply fails_now; exact He).
  congruence.
Qed.

Lemma counted_succeeding (t : string) (d : option Q) :
  (forall w, exists rows w', run_statement ("SELECT COUNT(*) FROM " +:+ t) w = (inl rows, w')) ->
  counted t d -> d <> None.
Proof.
  intros Hok (st0 & p & st1 & Ht).
  edestruct Hok as (rows & w' & Hr).
  erewrite time_query_success in Ht
    by (eapply runs_step; [exact Hr | constructor]).
  congruence.
Qed.

Lemma Forall2_zip_In {A B} (R : A -> B -> Prop) (l : list A) (k : list B) (x : A) (y : B) :
  Forall2 R l k -> In (x, y) (zip l k) -> R x y.
Proof.
  induction 1 as [|a b l k Hab Hlk IH]; simpl; [done|].
  intros [[= <- <-]|Hin]; auto.
Qed.

(** X6.  For distinct tables, [estimate_table_costs] raises nothing and
    returns exactly one entry per table, in the order of the tables.  A
    table whose count statement cannot run is mapped to null, a table whose
    count statement runs is mapped to a duration, whatever happens to the
    other tables. *)
Theorem table_costs_isolated (ts : list string) (st : state) :
  NoDup ts ->
  exists costs st',
    estimate_table_costs ts st = (Ret costs, st')
    /\ map fst costs = ts
    /\ forall t d, In (t, d) costs ->
         ((forall w, exists e w',
              run_statement ("SELECT COUNT(*) FROM " +:+ t) w = (inr e, w')) -> d = None)
         /\ ((forall w, exists rows w',
                run_statement ("SELECT COUNT(*) FROM " +:+ t) w = (inl rows, w')) ->
             d <> None).
Proof.
  intros Hts. unfold estimate_table_costs.
  destruct (estimate_table_costs_loop_counted ts [] st) as (ds & st' & Hall & Hloop).
  exists (zip ts ds), st'. split; [|split].
  - rewrite Hloop, assign_all_new; [done | done |]. intros t _ [].
  - apply fst_zip. by rewrite (Forall2_length _ _ _ Hall).
  - intros t d Hin. pose proof (Forall2_zip_In _ _ _ _ _ Hall Hin) as Hc.
    split; intros Hw; [by eapply counted_failing | by eapply counted_succeeding].
Qed.

(** X7.  When a [PRAGMA table_info] statement raises, for the left table or,
    after the left one was read, for the right table, [estimate_join_cost]
    goes on with no column at all and times the bounded cross probe; after a
    failure for the left table the right one is not asked. *)
Theorem join_cost_without_schema (l r : string) (st : state) (e : exn) (w : world) :
  (run_statement ("PRAGMA table_info(" +:+ l +:+ ")") (conn st) = (inr e, w)
   \/ exists lrows w1,
        run_statement ("PRAGMA table_info(" +:+ l +:+ ")") (conn st) = (inl lrows, w1)
        /\ List.Forall (fun row => (2 <= List.length row)%nat) lrows
        /\ run_statement ("PRAGMA table_info(" +:+ r +:+ ")") w1 = (inr e, w)) ->
  table_columns l r st = (Ret ([], []), State w (stdout st))
  /\ estimate_join_cost l r None st
     = bind (time_query ("SELECT COUNT(*) FROM " +:+ l +:+ ", " +:+ r +:+ " LIMIT 1000") true 1)
            (fun res => ret (fst res)) (State w (stdout st)).
Proof.
  intros Hfail.
  assert (Hc : table_columns l r st = (Ret ([], []), State w (stdout st))).
  { unfold table_columns, try_except.
    destruct Hfail as [Hl|(lrows & w1 & Hl & Hw & Hr)].
    - unfold bind at 1. unfold execute_fetchall at 1. by rewrite Hl.
    - unfold bind at 1. unfold execute_fetchall at 1. rewrite Hl.
      erewrite bind_ret by (by apply column_names_wide).
      unfold bind at 1. unfold execute_fetchall at 1. simpl conn. by rewrite Hr. }
  split; [exact Hc|].
  unfold estimate_join_cost. erewrite bind_ret by exact Hc.
  unfold join_probe_sql. simpl fst. simpl snd. cbn [truthy].
  assert (He : (list_to_set [] ∩ list_to_set [] : gset string) = ∅)
    by apply (left_absorb_L ∅ (∩)).
  by rewrite He, set_iter_empty.
Qed.

End EstimatorMore.

Lemma table_costs_isolated_witness :
  exists costs st',
    estimate_table_costs ["customers"; "ghosts"] Sample.start = (Ret costs, st')
    /\ map fst costs = ["customers"; "ghosts"]
    /\ forall t d, In (t, d) costs ->
         ((forall w, exists e w',
              run_statement ("SELECT COUNT(*) FROM " +:+ t) w = (inr e, w')) -> d = None)
         /\ ((forall w, exists rows w',
                run_statement ("SELECT COUNT(*) FROM " +:+ t) w = (inl rows, w')) ->
             d <> None).
Proof.
  apply (table_costs_isolated ["customers"; "ghosts"] Sample.start).
  eapply bool_decide_unpack. vm_compute. exact I.
Defined.

Lemma join_cost_without_schema_witness :
  table_columns "nowhere" "orders" Sample.start = (Ret ([], []), State 1%Z [])
  /\ estimate_join_cost "nowhere" "orders" None Sample.start
     = bind (time_query "SELECT COUNT(*) FROM nowhere, orders LIMIT 1000" true 1)
            (fun res => ret (fst res)) (State 1%Z []).
Proof.
  apply (join_cost_without_schema "nowhere" "orders" Sample.start
           (Exn DatabaseError "cannot run: PRAGMA table_info(nowhere)") 1%Z).
  left. reflexivity.
Defined.

(* ===================================================================== *)
(** ** More about the report of [analyze_query] *)
(* ===================================================================== *)

Section ReportMore.
Context `{Engine} `{parser : SqlParse} `{SetOrder}.

Lemma descending_positive_prefix (l : list Step) :
  descending l ->
  List.filter positive_duration l
  = take (List.length (List.filter positive_duration l)) l.
Proof.
  unfold descending. induction 1 as [|x l Hl IH Hx]; [done|]. simpl.
  destruct (positive_duration x) eqn:Hp; simpl; [by rewrite <- IH|].
  rewrite filter_none; [done|]. intros y Hy.
  rewrite List.Forall_forall in Hx. specialize (Hx _ Hy).
  destruct (positive_duration y) eqn:Hpy; [|done].
  apply positive_duration_key in Hpy.
  assert (Hpx : positive_duration x = true)
    by (apply positive_duration_key; by eapply Qlt_le_trans).
  congruence.
Qed.

Lemma select_bottlenecks_prefix (tl : list Step) :
  descending tl ->
  select_bottlenecks tl
  = take (Nat.min 5 (List.length (List.filter positive_duration tl))) tl.
Proof.
  intros Hd. unfold select_bottlenecks.
  rewrite (List.filter_ext _ _ is_bottleneck_positive).
  rewrite descending_filter_take by done.
  rewrite (descending_positive_prefix _ Hd) at 1.
  by rewrite take_take.
Qed.

(** X8.  The bottlenecks of a report are the first steps of its ranked
    timeline, as many as there are steps of positive duration, and five at
    most: no step of positive duration among the first five is left out,
    and the order is that of the timeline. *)
Theorem bottlenecks_are_top_of_timeline (sql : string) (st : state) :
  parses sql ->
  plan_readable sql (conn st) ->
  exists r st',
    analyze_query sql st = (Ret r, st')
    /\ bottlenecks r
       = take (Nat.min 5 (List.length (List.filter positive_duration (timeline r))))
              (timeline r).
Proof.
  intros Hparse Hplan.
  destruct (plan_readable_returns _ _ Hplan) as (rows & st1 & Hexp).
  destruct (analyze_query_timeline_spec _ _ _ _ Hparse Hexp)
    as (r & pre & st' & p & st2 & Hrun & _ & _ & Hshape).
  exists r, st'. unfold analyze_query. erewrite bind_ret by exact Hrun.
  split; [reflexivity|].
  destruct Hshape as (tds & jds & sds & _ & _ & _ & _ & _ & _ & _ & _ & Ht & ->).
  apply select_bottlenecks_prefix. rewrite Ht. apply sorted_desc_descending.
Qed.

Lemma count_type_perm (t : step_type) (l k : list Step) :
  l ≡ₚ k -> count_type t l = count_type t k.
Proof.
  unfold count_type. induction 1 as [|x l k Hlk IH|x y l|l k m _ IH1 _ IH2]; simpl.
  - done.
  - destruct (same_type (type x) t); simpl; by rewrite IH.
  - by destruct (same_type (type x) t), (same_type (type y) t).
  - by rewrite IH1.
Qed.

Lemma count_type_app (t : step_type) (l k : list Step) :
  count_type t (l ++ k) = (count_type t l + count_type t k)%nat.
Proof. unfold count_type. by rewrite List.filter_app, length_app. Qed.

Lemma count_type_uniform (t t0 : step_type) (l : list Step) :
  List.Forall (fun s => type s = t0) l ->
  count_type t l = if same_type t0 t then List.length l else 0%nat.
Proof.
  unfold count_type. induction 1 as [|x l Hx Hl IH]; simpl.
  - by destruct (same_type t0 t).
  - rewrite Hx. destruct (same_type t0 t); simpl; [by rewrite IH | exact IH].
Qed.

Lemma zip_with_uniform {A B} (f : A -> B -> Step) (t0 : step_type)
    (l : list A) (k : list B) :
  (forall a b, type (f a b) = t0) ->
  List.Forall (fun s => type s = t0) (zip_with f l k).
Proof.
  intros Hf. apply List.Forall_forall. intros s Hs.
  apply list_elem_of_In, elem_of_zip_with in Hs as (a & b & -> & _). apply Hf.
Qed.

Lemma pairs_for_length (n k : nat) :
  (k <= n)%nat ->
  (2 * List.length (pairs_for n (seq (n - k) k)) = k * (k - 1))%nat.
Proof.
  induction k as [|k IH]; intros Hk; [done|].
  cbn [seq pairs_for flat_map]. rewrite length_app, length_map, length_seq.
  replace (S (n - S k)) with (n - k)%nat by lia.
  fold (pairs_for n (seq (n - k) k)).
  specialize (IH ltac:(lia)). nia.
Qed.

Lemma pair_indices_length (n : nat) :
  List.length (pair_indices n) = (n * (n - 1) / 2)%nat.
Proof.
  pose proof (pairs_for_length n n (le_n n)) as Hl.
  rewrite Nat.sub_diag in Hl. fold (pair_indices n) in Hl.
  rewrite <- Hl, Nat.mul_comm. symmetry. by apply Nat.div_mul.
Qed.

(** X9.  The timeline of a report holds one step per plan row, one per
    table, one per pair of tables, one per fragment and one for the full
    query, each under its own type: with [n] tables that is
    [n * (n - 1) / 2] join steps. *)
Theorem timeline_census (sql : string) (st : state) :
  parses sql ->
  plan_readable sql (conn st) ->
  exists r st',
    analyze_query sql st = (Ret r, st')
    /\ let n := List.length (tables r) in
       let m := List.length (extract_subqueries (normalized sql)) in
       count_type explain_step (timeline r) = List.length (explain r)
       /\ count_type table_scan (timeline r) = n
       /\ count_type join (timeline r) = (n * (n - 1) / 2)%nat
       /\ count_type subquery (timeline r) = m
       /\ count_type query (timeline r) = 1%nat
       /\ List.length (timeline r)
          = (List.length (explain r) + n + n * (n - 1) / 2 + m + 1)%nat.
Proof.
  intros Hparse Hplan.
  destruct (plan_readable_returns _ _ Hplan) as (rows & st1 & Hexp).
  destruct (analyze_query_timeline_spec _ _ _ _ Hparse Hexp)
    as (r & pre & st' & p & st2 & Hrun & _ & _ & Hshape).
  exists r, st'. unfold analyze_query. erewrite bind_ret by exact Hrun.
  split; [reflexivity|].
  destruct Hshape as (tds & jds & sds & Htl & Hjl & Hsl & _ & _ & _ & _ & Hpre & Ht & _).
  assert (He : List.Forall (fun s => type s = explain_step) (map plan_step (explain r))).
  { apply List.Forall_forall. by intros s (x & <- & _)%in_map_iff. }
  pose proof (zip_with_uniform table_step table_scan (tables r) tds
                (fun _ _ => eq_refl)) as Hta.
  pose proof (zip_with_uniform (join_step (tables r)) join
                (pair_indices (List.length (tables r))) jds (fun _ _ => eq_refl)) as Hj.
  pose proof (zip_with_uniform subquery_step subquery
                (numbered (extract_subqueries (normalized sql))) sds
                (fun _ _ => eq_refl)) as Hs.
  assert (Hle : List.length (map plan_step (explain r)) = List.length (explain r))
    by apply length_map.
  assert (Hlt : List.length (zip_with table_step (tables r) tds) = List.length (tables r)).
  { rewrite length_zip_with. lia. }
  assert (Hlj : List.length (zip_with (join_step (tables r))
                               (pair_indices (List.length (tables r))) jds)
                = (List.length (tables r) * (List.length (tables r) - 1) / 2)%nat).
  { rewrite length_zip_with, Hjl, pair_indices_length. lia. }
  assert (Hls : List.length (zip_with subquery_step
                               (numbered (extract_subqueries (normalized sql))) sds)
                = List.length (extract_subqueries (normalized sql))).
  { rewrite length_zip_with. unfold numbered. rewrite length_zip, length_seq. lia. }
  assert (Hcount : forall t, count_type t (timeline r) = count_type t pre)
    by (intros t; apply count_type_perm; rewrite Ht; apply sorted_desc_perm).
  assert (Hlen : List.length (timeline r) = List.length pre)
    by (rewrite Ht; apply Permutation_length, sorted_desc_perm).
  assert (Hf : List.Forall (fun s => type s = query)
                 [full_step (normalized sql) (full_query_duration_s r)])
    by (by repeat constructor).
  cbv zeta. rewrite !Hcount, Hlen, Hpre, !count_type_app, !length_app.
  rewrite !(count_type_uniform _ _ _ He), !(count_type_uniform _ _ _ Hta),
    !(count_type_uniform _ _ _ Hj), !(count_type_uniform _ _ _ Hs),
    !(count_type_uniform _ _ _ Hf).
  rewrite Hle, Hlt, Hlj, Hls.
  generalize (List.length (tables r) * (List.length (tables r) - 1) / 2)%nat as pairs.
  intros pairs. simpl. repeat split; lia.
Qed.

(** X10.  When the [sqlparse] block raises on the text the analysis works
    on, [extract_table_names] returns no names and [analyze_query] stops
    with that exception at once: nothing has been printed and no statement
    has been run. *)
Theorem analyze_query_stops_on_parse_error (sql : string) (st : state) (e : exn) :
  sqlparse_block (normalized sql) = Some e ->
  extract_table_names (normalized sql) = Raise e
  /\ analyze_query sql st = (Raise e, st).
Proof.
  intros Hparse. split; [by apply extract_table_names_raises|].
  unfold analyze_query.
  by erewrite bind_raise by (by apply analyze_query_timeline_parse_error).
Qed.

End ReportMore.

Lemma bottlenecks_are_top_of_timeline_witness :
  exists r st',
    analyze_query "SELECT name FROM customers" Sample.start = (Ret r, st')
    /\ bottlenecks r
       = take (Nat.min 5 (List.length (List.filter positive_duration (timeline r))))
              (timeline r).
Proof.
  apply (bottlenecks_are_top_of_timeline "SELECT name FROM customers" Sample.start).
  - reflexivity.
  - exact I.
Defined.

Lemma timeline_census_witness :
  exists r st',
    analyze_query "SELECT name FROM customers" Sample.start = (Ret r, st')
    /\ let n := List.length (tables r) in
       let m := List.length (extract_subqueries (normalized "SELECT name FROM customers")) in
       count_type explain_step (timeline r) = List.length (explain r)
       /\ count_type table_scan (timeline r) = n
       /\ count_type join (timeline r) = (n * (n - 1) / 2)%nat
       /\ count_type subquery (timeline r) = m
       /\ count_type query (timeline r) = 1%nat
       /\ List.length (timeline r)
          = (List.length (explain r) + n + n * (n - 1) / 2 + m + 1)%nat.
Proof.
  apply (timeline_census "SELECT name FROM customers" Sample.start).
  - reflexivity.
  - exact I.
Defined.

Lemma analyze_query_stops_on_parse_error_witness :
  @extract_table_names (Nesting.sqlparse 5) _ "SELECT ((((((1))))))"
  = Raise (Exn OtherException "Maximum recursion depth exceeded")
  /\ @analyze_query _ (Nesting.sqlparse 5) _ " SELECT ((((((1)))))); " Sample.start
     = (Raise (Exn OtherException "Maximum recursion depth exceeded"), Sample.start).
Proof.
  apply (@analyze_query_stops_on_parse_error _ (Nesting.sqlparse 5) _
           " SELECT ((((((1)))))); " Sample.start).
  reflexivity.
Defined.

(* ===================================================================== *)
(** ** The report printer *)
(* ===================================================================== *)

Section PrinterFacts.
Context `{Engine} `{parser : SqlParse} `{SetOrder} `{Formatting}.

Lemma bind_ret_inv {A B} (m : M A) (k : A -> M B) (st st' : state) (b : B) :
  bind m k st = (Ret b, st') ->
  exists a st1, m st = (Ret a, st1) /\ k a st1 = (Ret b, st').
Proof.
  unfold bind. destruct (m st) as [[a|e] st1]; [eauto | done].
Qed.

Lemma print_timeline_ok (steps : list Step) (st : state) :
  List.Forall has_duration steps ->
  exists lines,
    print_timeline steps st = (Ret tt, State (conn st) (stdout st ++ lines))
    /\ List.length lines = List.length steps.
Proof.
  intros Hall. revert st. induction Hall as [|s steps Hs Hall IH]; intros st.
  - exists []. simpl. rewrite app_nil_r. by destruct st.
  - cbn [print_timeline]. unfold has_duration in Hs.
    destruct (duration_s s) as [q|]; [|done]. cbn [format_duration].
    erewrite bind_ret by apply print_eq.
    edestruct IH as (lines & Hrun & Hlen). rewrite Hrun. simpl.
    eexists (_ :: lines). rewrite <- app_assoc. split; [reflexivity | simpl; lia].
Qed.

Lemma print_timeline_inv (steps : list Step) (st st' : state) :
  print_timeline steps st = (Ret tt, st') -> List.Forall has_duration steps.
Proof.
  revert st. induction steps as [|s steps IH]; intros st; [constructor|].
  cbn [print_timeline]. unfold has_duration.
  destruct (duration_s s) as [q|] eqn:Hd; cbn [format_duration]; [|done].
  intros (u & st1 & _ & Hrest)%bind_ret_inv.
  constructor; [by rewrite Hd | by eapply IH].
Qed.

Lemma print_bottlenecks_ok (steps : list Step) (st : state) :
  List.Forall has_duration steps ->
  exists lines,
    print_bottlenecks steps st = (Ret tt, State (conn st) (stdout st ++ lines))
    /\ List.length lines = List.length steps.
Proof.
  intros Hall. revert st. induction Hall as [|s steps Hs Hall IH]; intros st.
  - exists []. simpl. rewrite app_nil_r. by destruct st.
  - cbn [print_bottlenecks]. unfold has_duration in Hs.
    destruct (duration_s s) as [q|]; [|done]. cbn [format_duration].
    erewrite bind_ret by apply print_eq.
    edestruct IH as (lines & Hrun & Hlen). rewrite Hrun. simpl.
    eexists (_ :: lines). rewrite <- app_assoc. split; [reflexivity | simpl; lia].
Qed.

Lemma print_bottlenecks_inv (steps : list Step) (st st' : state) :
  print_bottlenecks steps st = (Ret tt, st') -> List.Forall has_duration steps.
Proof.
  revert st. induction steps as [|s steps IH]; intros st; [constructor|].
  cbn [print_bottlenecks]. unfold has_duration.
  destruct (duration_s s) as [q|] eqn:Hd; cbn [format_duration]; [|done].
  intros (u & st1 & _ & Hrest)%bind_ret_inv.
  constructor; [by rewrite Hd | by eapply IH].
Qed.

Lemma print_rows_ok (rows : list row) (st : state) :
  exists lines,
    print_rows rows st = (Ret tt, State (conn st) (stdout st ++ lines))
    /\ List.length lines = List.length rows.
Proof.
  revert st. induction rows as [|r rows IH]; intros st.
  - exists []. simpl. rewrite app_nil_r. by destruct st.
  - cbn [print_rows]. erewrite bind_ret by apply print_eq.
    edestruct IH as (lines & Hrun & Hlen). rewrite Hrun. simpl.
    eexists (_ :: lines). rewrite <- app_assoc. split; [reflexivity | simpl; lia].
Qed.

Lemma print_report_ok (report : Report) (st : state) :
  List.Forall has_duration (take 10 (timeline report)) ->
  List.Forall has_duration (bottlenecks report) ->
  exists lines,
    print_report report st = (Ret tt, State (conn st) (stdout st ++ lines))
    /\ List.length lines
       = (9 + Nat.min 10 (List.length (timeline report))
          + List.length (bottlenecks report) + List.length (explain report))%nat.
Proof.
  intros Ht Hb. unfold print_report.
  do 6 (erewrite bind_ret by apply print_eq). simpl conn. simpl stdout.
  match goal with |- context [bind (print_timeline ?s) _ ?st0] =>
    destruct (print_timeline_ok s st0 Ht) as (l1 & Hr1 & Hl1) end.
  erewrite bind_ret by exact Hr1.
  erewrite bind_ret by apply print_eq. simpl conn. simpl stdout.
  match goal with |- context [bind (print_bottlenecks ?s) _ ?st0] =>
    destruct (print_bottlenecks_ok s st0 Hb) as (l2 & Hr2 & Hl2) end.
  erewrite bind_ret by exact Hr2.
  erewrite bind_ret by apply print_eq. simpl conn. simpl stdout.
  match goal with |- context [bind (print_rows ?s) _ ?st0] =>
    destruct (print_rows_ok s st0) as (l3 & Hr3 & Hl3) end.
  erewrite bind_ret by exact Hr3.
  rewrite print_eq. simpl conn. simpl stdout.
  eexists. split.
  - rewrite <- !app_assoc. reflexivity.
  - rewrite !length_app, Hl1, Hl2, Hl3, length_take. simpl. lia.
Qed.

Lemma print_report_inv (report : Report) (st st' : state) :
  print_report report st = (Ret tt, st') ->
  List.Forall has_duration (take 10 (timeline report))
  /\ List.Forall has_duration (bottlenecks report).
Proof.
  intros Hrun. unfold print_report in Hrun.
  do 6 (apply bind_ret_inv in Hrun as (? & ? & _ & Hrun)).
  apply bind_ret_inv in Hrun as (u1 & ? & Ht & Hrun).
  apply bind_ret_inv in Hrun as (? & ? & _ & Hrun).
  apply bind_ret_inv in Hrun as (u2 & ? & Hb & Hrun).
  destruct u1, u2.
  split; [by eapply print_timeline_inv | by eapply print_bottlenecks_inv].
Qed.

(** X11.  [print_report] fails, with the [TypeError] of formatting [None]
    as a float, exactly when one of the first ten steps of the timeline or
    one of the bottlenecks has a null duration.  Otherwise it leaves the
    connection alone and prints nine fixed lines, one line for each of the
    first ten steps, one for each bottleneck and one for each plan row. *)
Theorem print_report_outcome (report : Report) (st : state) :
  ((exists st', print_report report st = (Ret tt, st'))
   <-> List.Forall has_duration (take 10 (timeline report))
       /\ List.Forall has_duration (bottlenecks report))
  /\ forall st',
       print_report report st = (Ret tt, st') ->
       conn st' = conn st
       /\ exists lines,
            stdout st' = stdout st ++ lines
            /\ List.length lines
               = (9 + Nat.min 10 (List.length (timeline report))
                  + List.length (bottlenecks report) + List.length (explain report))%nat.
Proof.
  split; [split|].
  - intros [st' Hrun]. by eapply print_report_inv.
  - intros [Ht Hb]. destruct (print_report_ok report st Ht Hb) as (lines & Hrun & _). eauto.
  - intros st' Hrun. destruct (print_report_inv _ _ _ Hrun) as [Ht Hb].
    destruct (print_report_ok report st Ht Hb) as (lines & Hrun' & Hlen).
    rewrite Hrun' in Hrun. inversion Hrun; subst. simpl. eauto.
Qed.

(** X12.  A report made by [analyze_query] is always printed in full: none
    of its steps has a null duration, so [print_report] raises nothing. *)
Theorem analysis_report_prints (sql : string) (st : state) :
  parses sql ->
  plan_readable sql (conn st) ->
  exists r st1 st2,
    analyze_query sql st = (Ret r, st1)
    /\ List.Forall has_duration (timeline r)
    /\ List.Forall has_duration (bottlenecks r)
    /\ print_report r st1 = (Ret tt, st2).
Proof.
  intros Hparse Hplan.
  destruct (plan_readable_returns _ _ Hplan) as (rows & st1 & Hexp).
  destruct (analyze_query_timeline_spec _ _ _ _ Hparse Hexp)
    as (r & pre & st' & p & st2 & Hrun & _ & _ & Hshape).
  assert (Ht : List.Forall has_duration (timeline r)).
  { pose proof (shape_durations _ _ _ Hshape) as Hd.
    destruct Hshape as (tds & jds & sds & _ & _ & _ & _ & _ & _ & _ & _ & -> & _).
    eapply Permutation_Forall; [symmetry; apply sorted_desc_perm|].
    eapply List.Forall_impl; [|exact Hd]. intros s [q Hq]. unfold has_duration. congruence. }
  assert (Hb : List.Forall has_duration (bottlenecks r)).
  { destruct Hshape as (tds & jds & sds & _ & _ & _ & _ & _ & _ & _ & _ & _ & ->).
    unfold select_bottlenecks. apply List.Forall_forall.
    intros s [Hs _]%List.filter_In.
    rewrite List.Forall_forall in Ht. apply Ht.
    apply list_elem_of_In. eapply subseteq_take. by apply list_elem_of_In. }
  assert (Ht10 : List.Forall has_duration (take 10 (timeline r))).
  { apply List.Forall_forall. intros s Hs. rewrite List.Forall_forall in Ht. apply Ht.
    apply list_elem_of_In. eapply subseteq_take. by apply list_elem_of_In. }
  destruct (print_report_ok r st' Ht10 Hb) as (lines & Hp & _).
  exists r, st', (State (conn st') (stdout st' ++ lines)). unfold analyze_query. erewrite bind_ret by exact Hrun.
  by repeat split.
Qed.

End PrinterFacts.

Lemma print_report_outcome_witness :
  exists st',
    print_report (mkReport 0 0 [] [] None Sample.ranked (take 2 Sample.ranked) [] [] [])
      Sample.start = (Ret tt, st')
    /\ conn st' = conn Sample.start
    /\ exists lines,
         stdout st' = stdout Sample.start ++ lines
         /\ List.length lines = (9 + Nat.min 10 3 + 2 + 0)%nat.
Proof.
  set (r := mkReport 0 0 [] [] None Sample.ranked (take 2 Sample.ranked) [] [] []).
  destruct (print_report_outcome r Sample.start) as [[_ Hret] Hlines].
  destruct Hret as [st' Hrun].
  { split; repeat constructor; discriminate. }
  exists st'. split; [exact Hrun|]. exact (Hlines st' Hrun).
Defined.

Lemma analysis_report_prints_witness :
  exists r st1 st2,
    analyze_query "SELECT 1 FROM ghosts" Sample.start = (Ret r, st1)
    /\ List.Forall has_duration (timeline r)
    /\ List.Forall has_duration (bottlenecks r)
    /\ print_report r st1 = (Ret tt, st2).
Proof.
  apply (analysis_report_prints "SELECT 1 FROM ghosts" Sample.start).
  - reflexivity.
  - reflexivity.
Defined.

(* ===================================================================== *)
(** ** The pages of [generate_pdf] *)
(* ===================================================================== *)

Section PdfFacts.
Context `{Engine} `{Formatting}.
Variable height : Q.
Hypothesis tall : (90 <= height)%Q.

Lemma draw_items_inside {A} (fmt : A -> outcome string) (refont : bool)
    (items : list A) :
  forall y ops,
    (y <= height - 50)%Q ->
    draw_items height fmt refont y items = Ret ops ->
    List.Forall (inside_margins height) ops
    /\ List.length (List.filter is_draw ops) = List.length items.
Proof.
  induction items as [|item items IH]; intros y ops Hy; cbn [draw_items].
  - intros [= <-]. split; [constructor | done].
  - destruct (fmt item) as [line|e]; [|done].
    destruct (Qle_bool 40 y) eqn:Hb; cbn [negb].
    + destruct (draw_items height fmt refont (y - 15) items) as [ops'|e] eqn:Hd; [|done].
      intros [= <-]. apply Qle_bool_iff in Hb.
      assert (Hy' : (y - 15 <= height - 50)%Q) by lra.
      destruct (IH _ _ Hy' Hd) as [Hin Hlen].
      split; [|simpl; by rewrite Hlen].
      constructor; [|exact Hin]. simpl. split; [reflexivity | lra].
    + destruct (draw_items height fmt refont (height - 50 - 15) items)
        as [ops'|e] eqn:Hd; [|done].
      intros [= <-].
      assert (Hy' : (height - 50 - 15 <= height - 50)%Q) by lra.
      destruct (IH _ _ Hy' Hd) as [Hin Hlen].
      split.
      * assert (Hdraw : inside_margins height (DrawString 50 (height - 50) line))
          by (simpl; split; [reflexivity | lra]).
        destruct refont; simpl; repeat (apply Forall_cons_2; [done|]); exact Hin.
      * destruct refont; simpl; by rewrite Hlen.
Qed.

(** X13.  On a page at least 90 points high, whenever [generate_pdf] gets
    to save the file, every text it drew is at x = 50 and between the
    bottom margin y = 40 and the top line y = height - 50; it drew the
    three titles and one line for each line of the report text, each step
    of the timeline and each plan row; saving is its last operation. *)
Theorem pdf_text_inside_margins (report_text : string) (timeline : list Step)
    (explain_rows : list row) (ops : list canvas_op) :
  generate_pdf height report_text timeline explain_rows = Ret ops ->
  List.Forall (inside_margins height) ops
  /\ List.length (List.filter is_draw ops)
     = (3 + List.length (split_lines report_text) + List.length timeline
        + List.length explain_rows)%nat
  /\ last ops = Some Save.
Proof.
  unfold generate_pdf.
  destruct (draw_items height Ret true (height - 50 - 40) (split_lines report_text))
    as [a|e] eqn:Ha; [|done].
  destruct (draw_items height timeline_line true (height - 80) timeline)
    as [b|e] eqn:Hb; [|done].
  destruct (draw_items height (fun r => Ret (str_row r)) false (height - 80) explain_rows)
    as [c|e] eqn:Hc; [|done].
  intros [= <-].
  assert (Hy1 : (height - 50 - 40 <= height - 50)%Q) by lra.
  assert (Hy2 : (height - 80 <= height - 50)%Q) by lra.
  destruct (draw_items_inside _ _ _ _ _ Hy1 Ha) as [Hia Hla].
  destruct (draw_items_inside _ _ _ _ _ Hy2 Hb) as [Hib Hlb].
  destruct (draw_items_inside _ _ _ _ _ Hy2 Hc) as [Hic Hlc].
  assert (Htitle : forall title, inside_margins height (DrawString 50 (height - 50) title)).
  { intros title. simpl. split; [reflexivity | lra]. }
  split; [|split].
  - repeat (apply Forall_app_2 || apply Forall_cons_2 || apply Forall_nil_2);
      try done; apply Htitle.
  - cbn [app List.filter is_draw length].
    rewrite !List.filter_app, !length_app. cbn [app List.filter is_draw length].
    rewrite !List.filter_app, !length_app. cbn [app List.filter is_draw length].
    rewrite !List.filter_app, !length_app, Hla, Hlb, Hlc. simpl. lia.
  - repeat (rewrite last_app || rewrite last_cons). reflexivity.
Qed.

End PdfFacts.

Lemma pdf_text_inside_margins_witness :
  exists ops,
    generate_pdf 792 ("a" +:+ newline +:+ "b") Sample.ranked [["2"; "SCAN t"]] = Ret ops
    /\ List.Forall (inside_margins 792) ops
    /\ List.length (List.filter is_draw ops)
       = (3 + List.length (split_lines ("a" +:+ newline +:+ "b"))
          + List.length Sample.ranked + 1)%nat
    /\ last ops = Some Save.
Proof.
  eexists. split; [vm_compute; reflexivity|].
  refine (pdf_text_inside_margins 792 _ ("a" +:+ newline +:+ "b") Sample.ranked
            [["2"; "SCAN t"]] _ _); [unfold Qle; simpl; lia|].
  vm_compute. reflexivity.
Defined.

(* ===================================================================== *)
(** ** More about the desktop front-end *)
(* ===================================================================== *)

Section GuiMore.
Context `{Engine} `{SetOrder}.

Lemma gui_statement_time_failure (sql : string) (st : state) (e : exn) (w : world) :
  run_statement sql (snd (wall_clock (conn st))) = (inr e, w) ->
  Gui.statement_time sql st = (Ret 0%Q, State w (stdout st)).
Proof.
  intros Hr. unfold Gui.statement_time, try_except, bind at 1, time_now.
  destruct (wall_clock (conn st)) as [t0 w0]. simpl in Hr.
  unfold bind at 1, execute_fetchall. simpl conn. by rewrite Hr.
Qed.

Lemma gui_statement_time_success (sql : string) (st : state) (rows : list row) (w : world) :
  run_statement sql (snd (wall_clock (conn st))) = (inl rows, w) ->
  Gui.statement_time sql st
  = (Ret (fst (wall_clock w) - fst (wall_clock (conn st)))%Q,
     State (snd (wall_clock w)) (stdout st)).
Proof.
  intros Hr. unfold Gui.statement_time, try_except, bind at 1, time_now.
  destruct (wall_clock (conn st)) as [t0 w0]. simpl in Hr.
  unfold bind at 1, execute_fetchall. simpl conn. rewrite Hr.
  unfold bind at 1. simpl conn. by destruct (wall_clock w) as [t1 w1].
Qed.

Lemma gui_statement_time_total (sql : string) (st : state) :
  exists d st', Gui.statement_time sql st = (Ret d, st').
Proof.
  destruct (run_statement sql (snd (wall_clock (conn st)))) as [[rows|e] w] eqn:Hr.
  - eexists _, _. by eapply gui_statement_time_success.
  - eexists _, _. by eapply gui_statement_time_failure.
Qed.

(** X14.  The two probes of the front-end raise nothing.  [table_scan_time]
    times the count of one table and [join_cost] the count of the cross
    product of two tables, limited to 2000 rows, between two readings of
    the wall clock; when the statement fails the result is the number 0,
    not a null. *)
Theorem gui_probes (t1 t2 : string) (st : state) :
  let scan := "SELECT COUNT(*) FROM " +:+ t1 in
  let cross := "SELECT COUNT(*) FROM " +:+ t1 +:+ ", " +:+ t2 +:+ " LIMIT 2000" in
  let w0 := snd (wall_clock (conn st)) in
  let t0 := fst (wall_clock (conn st)) in
  (forall e w, run_statement scan w0 = (inr e, w) ->
     Gui.table_scan_time t1 st = (Ret 0%Q, State w (stdout st)))
  /\ (forall rows w, run_statement scan w0 = (inl rows, w) ->
        Gui.table_scan_time t1 st
        = (Ret (fst (wall_clock w) - t0)%Q, State (snd (wall_clock w)) (stdout st)))
  /\ (forall e w, run_statement cross w0 = (inr e, w) ->
        Gui.join_cost t1 t2 st = (Ret 0%Q, State w (stdout st)))
  /\ (forall rows w, run_statement cross w0 = (inl rows, w) ->
        Gui.join_cost t1 t2 st
        = (Ret (fst (wall_clock w) - t0)%Q, State (snd (wall_clock w)) (stdout st))).
Proof.
  cbv zeta. unfold Gui.table_scan_time, Gui.join_cost. repeat split; intros.
  - by eapply gui_statement_time_failure.
  - by eapply gui_statement_time_success.
  - by eapply gui_statement_time_failure.
  - by eapply gui_statement_time_success.
Qed.

Lemma gui_time_query_success (sql : string) (st : state) (rows : list row) (w : world) :
  run_statement sql (snd (wall_clock (conn st))) = (inl rows, w) ->
  Gui.time_query sql st
  = (Ret (Some (fst (wall_clock w) - fst (wall_clock (conn st)))%Q, None),
     State (snd (wall_clock w)) (stdout st)).
Proof.
  intros Hr. unfold Gui.time_query, bind at 1, time_now.
  destruct (wall_clock (conn st)) as [t0 w0]. simpl in Hr.
  unfold try_except, bind at 1, execute_fetchall. simpl conn. rewrite Hr.
  unfold bind at 1. simpl conn. by destruct (wall_clock w) as [t1 w1].
Qed.

(** X15.  The front-end refuses two inputs with an error dialog and goes no
    further: a blank text, for which it does not touch the connection, and
    a query that fails with an error text, for which it shows that text
    and runs no probe after the failed execution. *)
Theorem gui_refusals (text : string) (st : state) :
  (strip text = EmptyString ->
   Gui.analyze_sql text st = (Ret (ShowError "Error" "Please enter SQL query."), st))
  /\ (strip text <> EmptyString ->
      forall rows st1 e w,
        Gui.explain_query (strip text) st = (Ret rows, st1) ->
        run_statement (strip text) (snd (wall_clock (conn st1))) = (inr e, w) ->
        exn_msg e <> EmptyString ->
        Gui.analyze_sql text st
        = (Ret (ShowError "SQL Error" (exn_msg e)), State w (stdout st1))).
Proof.
  unfold Gui.analyze_sql. split.
  - by intros ->.
  - intros Hne rows st1 e w Hexp Hr Hmsg.
    destruct (strip text) as [|c sql] eqn:Hs; [done|].
    erewrite bind_ret by exact Hexp.
    erewrite bind_ret by (apply gui_time_query_failure; exact Hr).
    cbv beta iota. unfold truthy. by destruct (exn_msg e).
Qed.

Lemma gui_table_loop_spec (ts : list string) :
  forall tl st,
    exists steps st',
      Gui.table_loop ts tl st = (Ret (tl ++ steps), st')
      /\ List.length steps = List.length ts
      /\ List.Forall has_duration steps.
Proof.
  induction ts as [|t ts IH]; intros tl st.
  - exists [], st. by rewrite app_nil_r.
  - cbn [Gui.table_loop].
    destruct (gui_statement_time_total ("SELECT COUNT(*) FROM " +:+ t) st)
      as (d & st1 & Hd).
    unfold Gui.table_scan_time. erewrite bind_ret by exact Hd.
    edestruct IH as (steps & st' & Hrun & Hlen & Hall). rewrite Hrun.
    eexists (_ :: steps), st'. rewrite <- app_assoc. split; [reflexivity|].
    split; [simpl; lia|]. constructor; [done | exact Hall].
Qed.

Lemma gui_join_inner_loop_spec (tables : list string) (i : nat) (js : list nat) :
  (i < List.length tables)%nat ->
  List.Forall (fun j => (j < List.length tables)%nat) js ->
  forall tl st,
    exists steps st',
      Gui.join_inner_loop tables i js tl st = (Ret (tl ++ steps), st')
      /\ List.length steps = List.length js
      /\ List.Forall has_duration steps.
Proof.
  intros Hi. induction 1 as [|j js Hj Hjs IH]; intros tl st.
  - exists [], st. by rewrite app_nil_r.
  - cbn [Gui.join_inner_loop].
    erewrite bind_ret by (by apply index_lt).
    erewrite bind_ret by (by apply index_lt).
    edestruct gui_statement_time_total as (d & st1 & Hd).
    unfold Gui.join_cost. erewrite bind_ret by exact Hd.
    edestruct IH as (steps & st' & Hrun & Hlen & Hall). rewrite Hrun.
    eexists (_ :: steps), st'. rewrite <- app_assoc. split; [reflexivity|].
    split; [simpl; lia|]. constructor; [done | exact Hall].
Qed.

Lemma gui_join_outer_loop_spec (tables : list string) (rows_i : list nat) :
  List.Forall (fun i => (i < List.length tables)%nat) rows_i ->
  forall tl st,
    exists steps st',
      Gui.join_outer_loop tables rows_i tl st = (Ret (tl ++ steps), st')
      /\ List.length steps = List.length (pairs_for (List.length tables) rows_i)
      /\ List.Forall has_duration steps.
Proof.
  induction 1 as [|i rows_i Hi Hrows IH]; intros tl st.
  - exists [], st. by rewrite app_nil_r.
  - cbn [Gui.join_outer_loop].
    edestruct (gui_join_inner_loop_spec tables i
                 (seq (i + 1) (List.length tables - (i + 1))) Hi)
      as (s1 & st1 & H1 & Hl1 & Ha1).
    { apply List.Forall_forall. intros j Hj%in_seq. lia. }
    erewrite bind_ret by exact H1.
    edestruct IH as (s2 & st' & H2 & Hl2 & Ha2). rewrite H2.
    exists (s1 ++ s2), st'. rewrite <- app_assoc. split; [reflexivity|].
    split; [|by apply Forall_app_2].
    unfold pairs_for in *. simpl. rewrite !length_app, Hl1, Hl2, length_map. done.
Qed.


End GuiMore.

Lemma gui_probes_witness :
  Gui.table_scan_time "ghosts" Sample.start = (Ret 0%Q, State 2%Z [])
  /\ Gui.table_scan_time "customers" Sample.start
     = (Ret ((21 # 1000) - (0 # 1000))%Q, State 22%Z [])
  /\ Gui.join_cost "customers" "products" Sample.start = (Ret 0%Q, State 2%Z []).
Proof.
  destruct (gui_probes "ghosts" "x" Sample.start) as (Hfail & _).
  destruct (gui_probes "customers" "products" Sample.start) as (_ & Hok & Hcross & _).
  split; [|split].
  - apply (Hfail (Exn DatabaseError "cannot run: SELECT COUNT(*) FROM ghosts") 2%Z).
    reflexivity.
  - apply (Hok [["200"]] 21%Z). reflexivity.
  - apply (Hcross (Exn DatabaseError
                     "cannot run: SELECT COUNT(*) FROM customers, products LIMIT 2000") 2%Z).
    reflexivity.
Defined.

Lemma gui_refusals_witness :
  Gui.analyze_sql "   " Sample.start
  = (Ret (ShowError "Error" "Please enter SQL query."), Sample.start)
  /\ Gui.analyze_sql " SELECT nope FROM customers " Sample.start
     = (Ret (ShowError "SQL Error" "cannot run: SELECT nope FROM customers"),
        State 3%Z []).
Proof.
  destruct (gui_refusals "   " Sample.start) as [Hblank _].
  destruct (gui_refusals " SELECT nope FROM customers " Sample.start) as [_ Hfail].
  split; [by apply Hblank|].
  apply (Hfail ltac:(discriminate)
           [["EXPLAIN FAILED"; "cannot run: EXPLAIN QUERY PLAN SELECT nope FROM customers"]]
           (@State Sample.engine 1%Z [])
           (Exn DatabaseError "cannot run: SELECT nope FROM customers") 3%Z);
    [reflexivity | reflexivity | discriminate].
Defined.


(* ===================================================================== *)
(** ** The rows of the sample database *)
(* ===================================================================== *)

Section SeedFacts.

Lemma count_by_app {A} (f : A -> nat) (x : nat) (l k : list A) :
  count_by f x (l ++ k) = (count_by f x l + count_by f x k)%nat.
Proof. unfold count_by. by rewrite List.filter_app, length_app. Qed.

Lemma count_by_uniform {A} (f : A -> nat) (x y : nat) (l : list A) :
  List.Forall (fun a => f a = y) l ->
  count_by f x l = if (y =? x)%nat then List.length l else 0%nat.
Proof.
  unfold count_by. induction 1 as [|a l Ha Hl IH]; simpl.
  - by destruct (y =? x)%nat.
  - rewrite Ha. destruct (y =? x)%nat; simpl; [by rewrite IH | exact IH].
Qed.

Lemma orders_inner_spec (cust : nat) (js : list nat) :
  forall orders oid,
    exists news,
      orders_inner cust js (orders, oid) = (orders ++ news, (oid + List.length js)%nat)
      /\ map order_id news = seq oid (List.length js)
      /\ List.Forall (fun o => order_customer o = cust) news.
Proof.
  induction js as [|j js IH]; intros orders oid.
  - exists []. rewrite app_nil_r, Nat.add_0_r. by repeat split.
  - cbn [orders_inner].
    destruct (IH (orders ++ [(oid, cust, "2025-11-" +:+ two_digits ((j mod 28) + 1), 0%Q)])
                 (S oid)) as (news & Hrun & Hids & Hc).
    eexists (_ :: news). rewrite Hrun, <- app_assoc. split; [f_equal; simpl; lia|].
    split; [simpl; by rewrite Hids|]. by constructor.
Qed.

Lemma orders_outer_spec (custs : list nat) :
  NoDup custs ->
  forall orders oid,
    exists news,
      orders_outer custs (orders, oid) = (orders ++ news, (oid + List.length news)%nat)
      /\ map order_id news = seq oid (List.length news)
      /\ List.Forall (fun o => In (order_customer o) custs) news
      /\ forall c, count_by order_customer c news
                   = if bool_decide (c ∈ custs) then ((c mod 5) + 1)%nat else 0%nat.
Proof.
  induction 1 as [|cust custs Hn Hd IH]; intros orders oid.
  - exists []. rewrite app_nil_r, Nat.add_0_r. repeat split; try done.
  - cbn [orders_outer].
    destruct (orders_inner_spec cust (range 0 ((cust mod 5) + 1)) orders oid)
      as (n1 & H1 & Hi1 & Hc1).
    rewrite H1.
    destruct (IH (orders ++ n1) (oid + List.length (range 0 ((cust mod 5) + 1)))%nat)
      as (n2 & H2 & Hi2 & Hc2 & Hk2).
    assert (Hl1 : List.length n1 = ((cust mod 5) + 1)%nat).
    { rewrite <- (length_map order_id), Hi1, length_seq. unfold range.
      rewrite length_seq. lia. }
    assert (Hr : List.length (range 0 ((cust mod 5) + 1)) = ((cust mod 5) + 1)%nat).
    { unfold range. rewrite length_seq. lia. }
    rewrite Hr in *.
    exists (n1 ++ n2). rewrite H2, <- app_assoc, length_app, Hl1.
    split; [f_equal; lia|]. split; [|split].
    + rewrite map_app, Hi1, Hi2. by rewrite <- seq_app.
    + apply Forall_app_2.
      * eapply List.Forall_impl; [|exact Hc1]. intros o ->. by left.
      * eapply List.Forall_impl; [|exact Hc2]. intros o Ho. by right.
    + intros c. rewrite count_by_app, (count_by_uniform _ _ _ _ Hc1), Hk2, Hl1.
      destruct (Nat.eqb_spec cust c) as [->|Hne].
      * rewrite (bool_decide_eq_true_2 (c ∈ c :: custs)) by (by left).
        rewrite bool_decide_eq_false_2; [lia|done].
      * destruct (bool_decide (c ∈ custs)) eqn:Hb.
        -- apply bool_decide_eq_true_1 in Hb.
           rewrite (bool_decide_eq_true_2 (c ∈ cust :: custs)) by (by right). lia.
        -- apply bool_decide_eq_false_1 in Hb.
           rewrite (bool_decide_eq_false_2 (c ∈ cust :: custs)); [lia|].
           intros [?|?]%elem_of_cons; congruence.
Qed.

(** X17.  The order rows that the loops of [create_sample_db] build for
    pairwise distinct customers are numbered consecutively from 1, each
    belongs to one of the customers, and customer [c] gets [c % 5 + 1] of
    them. *)
Theorem seed_orders_of (custs : list nat) :
  NoDup custs ->
  let orders := fst (orders_outer custs ([], 1%nat)) in
  map order_id orders = seq 1 (List.length orders)
  /\ snd (orders_outer custs ([], 1%nat)) = (1 + List.length orders)%nat
  /\ List.Forall (fun o => In (order_customer o) custs) orders
  /\ forall c, In c custs ->
       count_by order_customer c orders = ((c mod 5) + 1)%nat.
Proof.
  intros Hd.
  destruct (orders_outer_spec custs Hd [] 1%nat) as (news & Hrun & Hids & Hc & Hk).
  cbv zeta. rewrite Hrun. simpl fst. simpl snd.
  repeat split; try done.
  intros c Hin. rewrite Hk, bool_decide_eq_true_2; [done|]. by apply list_elem_of_In.
Qed.

Variable randint : nat -> nat -> nat -> nat.
Hypothesis randint_range :
  forall k lo hi, (lo <= hi)%nat -> (lo <= randint k lo hi <= hi)%nat.

Lemma items_inner_spec (order : nat) (ks : list nat) :
  forall items oitem_id calls,
    exists news,
      items_inner randint order ks (items, oitem_id, calls)
      = (items ++ news, (oitem_id + List.length ks)%nat,
         (calls + 2 * List.length ks)%nat)
      /\ map item_id news = seq oitem_id (List.length ks)
      /\ List.Forall (fun i => item_order i = order) news
      /\ List.Forall item_sound news.
Proof.
  induction ks as [|k ks IH]; intros items oitem_id calls.
  - exists []. rewrite app_nil_r, !Nat.add_0_r. by repeat split.
  - cbn [items_inner].
    edestruct IH as (news & Hrun & Hids & Ho & Hs).
    exists ((oitem_id, order, randint calls 1 500, randint (S calls) 1 5,
             listed_price (randint calls 1 500)) :: news).
    rewrite Hrun, <- app_assoc.
    split.
    { f_equal; [f_equal|]; try reflexivity; simpl; lia. }
    split; [simpl; by rewrite Hids|]. split; [by constructor|].
    constructor; [|exact Hs].
    unfold item_sound, item_product, item_quantity, item_price. cbn [fst snd].
    assert (H500 : (1 <= 500)%nat) by lia. assert (H5 : (1 <= 5)%nat) by lia.
    pose proof (randint_range calls 1 500 H500).
    pose proof (randint_range (S calls) 1 5 H5).
    repeat split; lia.
Qed.

Lemma items_outer_spec (orders : list nat) :
  NoDup orders ->
  forall items oitem_id calls,
    exists news,
      fst (fst (items_outer randint orders (items, oitem_id, calls))) = items ++ news
      /\ map item_id news = seq oitem_id (List.length news)
      /\ List.Forall (fun i => In (item_order i) orders) news
      /\ List.Forall item_sound news
      /\ forall o, count_by item_order o news
                   = if bool_decide (o ∈ orders) then (o mod 6)%nat else 0%nat.
Proof.
  induction 1 as [|order orders Hn Hd IH]; intros items oitem_id calls.
  - exists []. rewrite app_nil_r. repeat split; try done.
  - cbn [items_outer].
    destruct (items_inner_spec order (range 1 ((order mod 6) + 1)) items oitem_id calls)
      as (n1 & H1 & Hi1 & Ho1 & Hs1).
    rewrite H1.
    edestruct IH as (n2 & H2 & Hi2 & Ho2 & Hs2 & Hk2).
    assert (Hl1 : List.length n1 = (order mod 6)%nat).
    { rewrite <- (length_map item_id), Hi1, length_seq. unfold range.
      rewrite length_seq. lia. }
    exists (n1 ++ n2). rewrite H2, <- app_assoc, length_app.
    split; [done|]. split; [|split; [|split]].
    + rewrite map_app, Hi1, Hi2. unfold range. rewrite length_seq, Hl1.
      replace (order mod 6 + 1 - 1)%nat with (order mod 6)%nat by lia.
      by rewrite <- seq_app.
    + apply Forall_app_2.
      * eapply List.Forall_impl; [|exact Ho1]. intros i ->. by left.
      * eapply List.Forall_impl; [|exact Ho2]. intros i Hi. by right.
    + by apply Forall_app_2.
    + intros o. rewrite count_by_app, (count_by_uniform _ _ _ _ Ho1), Hk2, Hl1.
      destruct (Nat.eqb_spec order o) as [->|Hne].
      * rewrite (bool_decide_eq_true_2 (o ∈ o :: orders)) by (by left).
        rewrite bool_decide_eq_false_2; [lia|done].
      * destruct (bool_decide (o ∈ orders)) eqn:Hb.
        -- apply bool_decide_eq_true_1 in Hb.
           rewrite (bool_decide_eq_true_2 (o ∈ order :: orders)) by (by right). lia.
        -- apply bool_decide_eq_false_1 in Hb.
           rewrite (bool_decide_eq_false_2 (o ∈ order :: orders)); [lia|].
           intros [?|?]%elem_of_cons; congruence.
Qed.

Lemma listed_product (pid : nat) :
  (1 <= pid <= 500)%nat ->
  In (pid, "Prod_" +:+ of_nat pid, listed_price pid) seed_products.
Proof.
  intros Hp. unfold seed_products. apply in_map_iff. exists pid.
  split; [done|]. unfold range. apply in_seq. lia.
Qed.

(** X18.  Whatever numbers [randint] draws within its bounds, the item rows
    of [create_sample_db] are numbered consecutively from 1; each belongs to
    one of the 600 orders, names one of the 500 products with the price
    listed for that product, and has a quantity from 1 to 5.  Order [o] gets
    [o % 6] items: the orders whose number is a multiple of 6 get none. *)
Theorem seed_order_items_sound :
  let items := seed_order_items randint in
  map item_id items = seq 1 (List.length items)
  /\ List.Forall (fun i => (1 <= item_order i <= 600)%nat) items
  /\ List.Forall (fun i =>
        In (item_product i, "Prod_" +:+ of_nat (item_product i), item_price i)
           seed_products
        /\ (1 <= item_quantity i <= 5)%nat) items
  /\ (forall o, (1 <= o <= 600)%nat -> count_by item_order o items = (o mod 6)%nat)
  /\ (forall o, (1 <= o <= 600)%nat -> (o mod 6 = 0)%nat ->
        forall i, In i items -> item_order i <> o).
Proof.
  assert (Hoid : snd seed_orders_state = 601%nat) by (vm_compute; reflexivity).
  assert (Hnd : NoDup (range 1 601)) by apply NoDup_seq.
  destruct (items_outer_spec (range 1 601) Hnd [] 1%nat 0%nat)
    as (news & Hrun & Hids & Ho & Hs & Hk).
  cbv zeta. unfold seed_order_items. rewrite Hoid, Hrun. simpl app.
  assert (Hcount : forall o, (1 <= o <= 600)%nat ->
                     count_by item_order o news = (o mod 6)%nat).
  { intros o Hr. rewrite Hk, bool_decide_eq_true_2; [done|].
    apply list_elem_of_In. unfold range. apply in_seq. lia. }
  split; [exact Hids|]. split; [|split; [|split]].
  - eapply List.Forall_impl; [|exact Ho]. intros i Hi. unfold range in Hi.
    apply in_seq in Hi. lia.
  - eapply List.Forall_impl; [|exact Hs]. intros i (Hp & Hq & Hprice).
    split; [|exact Hq]. rewrite Hprice. by apply listed_product.
  - exact Hcount.
  - intros o Hr Hz i Hin Heq.
    specialize (Hcount o Hr). rewrite Hz in Hcount.
    unfold count_by in Hcount. apply length_zero_iff_nil in Hcount.
    assert (Hf : In i (List.filter (fun a => (item_order a =? o)%nat) news)).
    { apply List.filter_In. split; [done|]. by apply Nat.eqb_eq. }
    by rewrite Hcount in Hf.
Qed.

End SeedFacts.

Lemma seed_orders_of_witness :
  map order_id seed_orders = seq 1 (List.length seed_orders)
  /\ snd seed_orders_state = (1 + List.length seed_orders)%nat
  /\ List.Forall (fun o => In (order_customer o) (range 1 201)) seed_orders
  /\ forall c, In c (range 1 201) ->
       count_by order_customer c seed_orders = ((c mod 5) + 1)%nat.
Proof.
  apply (seed_orders_of (range 1 201)). apply NoDup_seq.
Defined.

Lemma seed_order_items_sound_witness :
  let items := seed_order_items (fun _ lo _ => lo) in
  map item_id items = seq 1 (List.length items)
  /\ List.Forall (fun i => (1 <= item_order i <= 600)%nat) items
  /\ List.Forall (fun i =>
        In (item_product i, "Prod_" +:+ of_nat (item_product i), item_price i)
           seed_products
        /\ (1 <= item_quantity i <= 5)%nat) items
  /\ (forall o, (1 <= o <= 600)%nat -> count_by item_order o items = (o mod 6)%nat)
  /\ (forall o, (1 <= o <= 600)%nat -> (o mod 6 = 0)%nat ->
        forall i, In i items -> item_order i <> o).
Proof.
  apply (seed_order_items_sound (fun _ lo _ => lo)). intros k lo hi Hle. lia.
Defined.

Section GuiSilent.
Context `{Engine} `{SetOrder}.


End GuiSilent.


Section GuiTables.
Context `{SetOrder}.

Lemma gui_keyword_token_group (kw : string) (p : option ascii) (s : string)
    (n : nat) (g : string) :
  Gui.keyword_token kw p s = Some (n, g) ->
  g <> EmptyString
  /\ all_chars (fun c => negb (is_space c || Ascii.eqb c ";")) g = true.
Proof.
  unfold Gui.keyword_token. destruct (lit_ci kw s) as [s1|]; [|done].
  destruct (span is_space s1) as [ws s2].
  pose proof (all_chars_span (fun _ => true)
                (fun c => negb (is_space c || Ascii.eqb c ";")) s2
                (all_chars_true _)) as [_ Ht].
  destruct (span (fun c => negb (is_space c || Ascii.eqb c ";")) s2) as [tok rest].
  simpl in Ht.
  destruct ws; [done|]. destruct tok; [done|]. by intros [= _ <-].
Qed.

(** X20.  The table names of the front-end's [extract_tables] are pairwise
    distinct; each is the token captured by a match of one of the two
    patterns, taken as it is: it is not empty and holds neither white space
    nor a semicolon. *)
Theorem gui_table_names (sql : string) :
  NoDup (Gui.extract_tables sql)
  /\ forall t, In t (Gui.extract_tables sql) ->
       t <> EmptyString
       /\ all_chars (fun c => negb (is_space c || Ascii.eqb c ";")) t = true
       /\ exists kw i n, (kw = "FROM" \/ kw = "JOIN")
                         /\ In (i, n, t) (finditer (Gui.keyword_token kw) sql).
Proof.
  split.
  { unfold Gui.extract_tables. rewrite set_iter_perm. apply NoDup_elements. }
  intros t Ht. unfold Gui.extract_tables in Ht.
  apply list_elem_of_In in Ht. rewrite set_iter_perm in Ht.
  apply elem_of_elements in Ht.
  assert (Hm : exists kw m, (kw = "FROM" \/ kw = "JOIN")
                            /\ In m (finditer (Gui.keyword_token kw) sql) /\ t = snd m).
  { apply elem_of_union in Ht as [Ht|Ht].
    - apply elem_of_list_to_set, list_elem_of_In, in_map_iff in Ht as (m & <- & Hm).
      exists "JOIN", m. auto.
    - apply elem_of_union in Ht as [Ht|Ht]; [|by apply not_elem_of_empty in Ht].
      apply elem_of_list_to_set, list_elem_of_In, in_map_iff in Ht as (m & <- & Hm).
      exists "FROM", m. auto. }
  destruct Hm as (kw & [[i n] g] & Hkw & Hin & ->). simpl.
  destruct (ExtractorFacts.finditer_from_In _ _ _ _ _ _ _ _ Hin) as [_ [p Hp]].
  apply gui_keyword_token_group in Hp as [Hne Hall].
  split; [done|]. split; [done|]. by exists kw, i, n.
Qed.

End GuiTables.

Lemma gui_table_names_witness :
  "orders" <> EmptyString
  /\ all_chars (fun c => negb (is_space c || Ascii.eqb c ";")) "orders" = true
  /\ exists kw i n, (kw = "FROM" \/ kw = "JOIN")
       /\ In (i, n, "orders")
             (finditer (Gui.keyword_token kw) "SELECT * FROM orders JOIN customers;").
Proof.
  apply (proj2 (gui_table_names "SELECT * FROM orders JOIN customers;")).
  vm_compute. tauto.
Defined.

(* ===================================================================== *)
(** ** Every closed marker yields a fragment *)
(* ===================================================================== *)

Section NestedFragments.
Import StrFacts ExtractorFacts.

Lemma span_split (f : ascii -> bool) (s : string) :
  s = fst (span f s) +:+ snd (span f s) /\ all_chars f (fst (span f s)) = true.
Proof.
  induction s as [|c s [IH1 IH2]]; simpl; [done|].
  destruct (f c) eqn:Hc; [|done].
  destruct (span f s) as [a b]. simpl in *.
  rewrite str_app_cons, <- IH1. by rewrite Hc, IH2.
Qed.

Lemma all_chars_app (f : ascii -> bool) (a b : string) :
  all_chars f (a +:+ b) = all_chars f a && all_chars f b.
Proof.
  induction a as [|c a IH]; rewrite ?str_app_cons, ?str_app_nil_l; simpl; [done|].
  by rewrite IH, andb_assoc.
Qed.

Lemma all_chars_impl (f g : ascii -> bool) (s : string) :
  (forall c, f c = true -> g c = true) ->
  all_chars f s = true -> all_chars g s = true.
Proof.
  intros Hfg. induction s as [|c s IH]; simpl; [done|].
  intros [Hc Hs]%andb_prop. by rewrite (Hfg _ Hc), IH.
Qed.

Lemma substring_0_app_more (a b : string) (n : nat) :
  substring 0 (String.length a + n) (a +:+ b) = a +:+ substring 0 n b.
Proof.
  induction a as [|c a IH]; rewrite ?str_app_cons, ?str_app_nil_l; [done|].
  cbn [String.length Nat.add]. by rewrite substring_0_S, IH.
Qed.

(** The letters of a word matched without regard to case are not
    parentheses when the letters of the pattern are not. *)
Lemma lit_ci_not_open (p s rest : string) :
  all_chars (fun a => negb (ci_eqb a "(")) p = true ->
  lit_ci p s = Some rest ->
  all_chars not_open (substring 0 (String.length p) s) = true.
Proof.
  revert s. induction p as [|a p IH]; intros s Hp.
  - intros _. by rewrite substring_0_0.
  - simpl in Hp. apply andb_prop in Hp as [Ha Hp].
    destruct s as [|c s]; [done|]. cbn [lit_ci].
    destruct (ci_eqb a c) eqn:Hc; [|done]. intros Hl.
    cbn [String.length]. rewrite substring_0_S. cbn [all_chars].
    rewrite (IH _ Hp Hl), andb_true_r. unfold not_open.
    destruct (Ascii.eqb_spec c "(") as [->|]; [|done].
    by rewrite Hc in Ha.
Qed.

(** The text of a match of the marker holds no parenthesis after its
    first character. *)
Lemma open_select_span (p : option ascii) (c : ascii) (s1 : string) (n : nat) (g : string) :
  open_select p (String c s1) = Some (n, g) ->
  all_chars not_open (substring 0 (n - 1) s1) = true.
Proof.
  unfold open_select. destruct (Ascii.eqb c "("); [|done].
  destruct (span_split is_space s1) as [Hs Hw].
  destruct (span is_space s1) as [ws s2]. simpl in Hs, Hw.
  destruct (lit_ci "SELECT" s2) as [rest|] eqn:Hl; [|done].
  intros [= <- _].
  replace (S (String.length ws + 6) - 1)%nat with (String.length ws + 6)%nat by lia.
  rewrite Hs, substring_0_app_more, all_chars_app.
  apply andb_true_intro. split.
  - eapply all_chars_impl; [|exact Hw]. intros x Hx. unfold not_open.
    destruct (Ascii.eqb_spec x "(") as [->|]; [by vm_compute in Hx | done].
  - by apply (lit_ci_not_open "SELECT" s2 rest).
Qed.

Lemma substring_0_nil (n : nat) : substring 0 n EmptyString = EmptyString.
Proof. by destruct n. Qed.

(** [finditer] misses no match of the marker: a match cannot start inside
    the text of another one. *)
Lemma finditer_open_select_complete (s : string) :
  forall prev i0 skip m n g,
    all_chars not_open (substring 0 skip s) = true ->
    open_select None (drop m s) = Some (n, g) ->
    In ((i0 + m)%nat, n, g) (finditer_from open_select prev s i0 skip).
Proof.
  induction s as [|c s IH]; intros prev i0 skip m n g Hskip Hm.
  - by destruct m.
  - cbn [finditer_from]. destruct skip as [|k].
    + change (open_select prev (String c s)) with (open_select None (String c s)).
      destruct m as [|m].
      * cbn [drop] in Hm. rewrite Hm. left. f_equal. f_equal. lia.
      * cbn [drop] in Hm.
        replace (i0 + S m)%nat with (S i0 + m)%nat by lia.
        destruct (open_select None (String c s)) as [[n' g']|] eqn:Hc.
        -- right. apply IH; [|exact Hm]. by eapply open_select_span.
        -- apply IH; [|exact Hm]. by rewrite substring_0_0.
    + rewrite substring_0_S in Hskip. cbn [all_chars] in Hskip.
      apply andb_prop in Hskip as [Hc Hskip].
      destruct m as [|m].
      * cbn [drop] in Hm. apply open_select_head in Hm as [s' [= -> _]]. done.
      * cbn [drop] in Hm. replace (i0 + S m)%nat with (S i0 + m)%nat by lia.
        by apply IH.
Qed.

(** A balanced text is what the scan of [extract_subqueries] stops at. *)
Lemma find_close_of_balanced (s : string) :
  forall i d len,
    (1 <= d)%Z -> (0 < len <= String.length s)%nat ->
    paren_depth (substring 0 len s) d = 0%Z ->
    (forall k, (k < len)%nat -> (1 <= paren_depth (substring 0 k s) d)%Z) ->
    find_close s i d = Some (i + len - 1)%nat.
Proof.
  induction s as [|c s IH]; intros i d len Hd Hlen Hz Hpos; [simpl in Hlen; lia|].
  destruct len as [|len]; [lia|].
  rewrite substring_0_S in Hz. cbn [paren_depth] in Hz.
  cbn [find_close].
  destruct len as [|len].
  - rewrite substring_0_0 in Hz. cbn [paren_depth] in Hz.
    destruct (Ascii.eqb c "("); [lia|].
    destruct (Ascii.eqb c ")"); [|lia].
    apply Z.eqb_eq in Hz. rewrite Hz. f_equal. lia.
  - assert (H1 := Hpos 1%nat ltac:(lia)).
    rewrite substring_0_S, substring_0_0 in H1. cbn [paren_depth] in H1.
    assert (Hrec : forall d', (1 <= d')%Z ->
              d' = (if Ascii.eqb c "(" then d + 1
                    else if Ascii.eqb c ")" then d - 1 else d)%Z ->
              find_close s (S i) d' = Some (i + S (S len) - 1)%nat).
    { intros d' Hd' Heq.
      replace (i + S (S len) - 1)%nat with (S i + S len - 1)%nat by lia.
      apply IH; [done | simpl in Hlen; lia | by rewrite Heq |].
      intros k Hk. specialize (Hpos (S k) ltac:(lia)).
      rewrite substring_0_S in Hpos. cbn [paren_depth] in Hpos. by rewrite Heq. }
    destruct (Ascii.eqb c "("); [by apply Hrec|].
    destruct (Ascii.eqb c ")"); [|by apply Hrec].
    destruct (d - 1 =? 0)%Z eqn:He; [apply Z.eqb_eq in He; lia|].
    by apply Hrec.
Qed.

(** From a smaller depth the scan stops no later. *)
Lemma find_close_lower (s : string) :
  forall i d e j,
    (1 <= d)%Z -> (0 <= e)%Z ->
    find_close s i (d + e) = Some j ->
    exists j', find_close s i d = Some j' /\ (j' <= j)%nat /\ ((0 < e)%Z -> (j' < j)%nat).
Proof.
  induction s as [|c s IH]; intros i d e j Hd He; cbn [find_close]; [done|].
  destruct (Ascii.eqb c "(").
  - replace (d + e + 1)%Z with ((d + 1) + e)%Z by lia. apply IH; lia.
  - destruct (Ascii.eqb c ")"); [|by apply IH].
    destruct (d + e - 1 =? 0)%Z eqn:H1.
    + apply Z.eqb_eq in H1. intros [= <-].
      assert (d - 1 = 0)%Z as -> by lia. simpl. exists i. split; [done|]. lia.
    + intros Hf. destruct (find_close_spec _ _ _ _ Hf) as [Hle _].
      destruct (d - 1 =? 0)%Z eqn:H2.
      * exists i. split; [done|]. lia.
      * apply Z.eqb_neq in H2.
        replace (d + e - 1)%Z with ((d - 1) + e)%Z in Hf by lia.
        apply IH in Hf; [done | lia | lia].
Qed.

(** The scan can be taken up at any position it passes: the depth there
    is still positive. *)
Lemma find_close_resume (m : nat) :
  forall s i d j,
    (1 <= d)%Z -> find_close s i d = Some j -> (i + m <= j)%nat ->
    exists d', (1 <= d')%Z /\ find_close (drop m s) (i + m) d' = Some j.
Proof.
  induction m as [|m IH]; intros s i d j Hd Hf Hm.
  - exists d. by rewrite Nat.add_0_r.
  - destruct s as [|c s]; [done|]. cbn [find_close] in Hf. cbn [drop].
    replace (i + S m)%nat with (S i + m)%nat in * by lia.
    destruct (Ascii.eqb c "("); [eapply IH; [|exact Hf|]; lia|].
    destruct (Ascii.eqb c ")"); [|eapply IH; [|exact Hf|]; lia].
    destruct (d - 1 =? 0)%Z eqn:H1.
    + injection Hf as <-. lia.
    + apply Z.eqb_neq in H1. eapply IH; [|exact Hf|]; lia.
Qed.

Lemma substring_0_full_length (n : nat) (s : string) :
  (n <= String.length s)%nat -> String.length (substring 0 n s) = n.
Proof.
  revert s. induction n as [|n IH]; intros s Hn; [by rewrite substring_0_0|].
  destruct s as [|c s]; simpl in Hn; [lia|].
  rewrite substring_0_S. simpl. f_equal. apply IH. lia.
Qed.

Lemma slice_length (a b : nat) (s : string) :
  (a <= b <= String.length s)%nat -> String.length (slice a b s) = (b - a)%nat.
Proof.
  intros Hab. unfold slice. rewrite substring_drop.
  apply substring_0_full_length. rewrite drop_length. lia.
Qed.

Lemma drop_S (i : nat) (s r : string) (c : ascii) :
  drop i s = String c r -> drop (S i) s = r.
Proof.
  intros Hd. replace (S i) with (i + 1)%nat by lia.
  by rewrite <- drop_drop, Hd.
Qed.

Lemma marker_at_head (sql : string) (i : nat) :
  marker_at sql i = true ->
  exists r n g, drop i sql = String "(" r /\ open_select None (drop i sql) = Some (n, g).
Proof.
  unfold marker_at. destruct (open_select None (drop i sql)) as [[n g]|] eqn:Hm; [|done].
  intros _. destruct (open_select_head _ _ _ Hm) as [r Hr]. eauto.
Qed.

(** The scan from a marker stops at [j] exactly when the piece from the
    marker to [j] is closed. *)
Lemma closed_piece_scan (sql : string) (i j : nat) (r : string) :
  drop i sql = String "(" r ->
  closed_piece sql i j = true ->
  find_close r (S i) 1 = Some j.
Proof.
  intros Hd. unfold closed_piece. cbv zeta.
  intros [[[Hij Hj]%andb_prop Hz]%andb_prop Hpos]%andb_prop.
  apply Nat.ltb_lt in Hij, Hj. apply Z.eqb_eq in Hz.
  rewrite forallb_forall in Hpos.
  pose proof (drop_cons_length _ _ _ _ Hd) as Hlen.
  assert (Hpiece : slice i (j + 1) sql = String "(" (substring 0 (j - i) r)).
  { unfold slice. rewrite substring_drop, Hd.
    replace (j + 1 - i)%nat with (S (j - i)) by lia. apply substring_0_S. }
  rewrite Hpiece in Hz, Hpos. rewrite paren_depth_open in Hz.
  change (0 + 1)%Z with 1%Z in Hz.
  assert (Hfc : find_close r (S i) 1 = Some (S i + (j - i) - 1)%nat).
  2: { replace (S i + (j - i) - 1)%nat with j in Hfc by lia. exact Hfc. }
  apply find_close_of_balanced; [lia | lia | exact Hz |].
  intros k Hk.
  destruct k as [|k]; [rewrite substring_0_0; simpl; lia|].
  specialize (Hpos (S (S k))). 
  assert (Hin : In (S (S k)) (seq 1 (j - i))) by (apply in_seq; lia).
  apply Hpos, Z.ltb_lt in Hin.
  unfold prefix in Hin. rewrite substring_0_S, paren_depth_open in Hin.
  rewrite substring_0_substring in Hin by lia.
  change (0 + 1)%Z with 1%Z in Hin. lia.
Qed.

Lemma scan_closed_piece (sql : string) (i j : nat) (r : string) :
  drop i sql = String "(" r ->
  find_close r (S i) 1 = Some j ->
  closed_piece sql i j = true.
Proof.
  intros Hd Hf.
  destruct (find_close_spec _ _ _ _ Hf) as [Hle _].
  assert (H1 : (1 <= 1)%Z) by lia.
  destruct (find_close_balanced _ _ _ _ H1 Hf) as (Hz & Hpos & Hlen).
  pose proof (drop_cons_length _ _ _ _ Hd) as Hsl.
  assert (Hpiece : slice i (j + 1) sql = String "(" (substring 0 (S j - S i) r)).
  { unfold slice. rewrite substring_drop, Hd.
    replace (j + 1 - i)%nat with (S (S j - S i)) by lia. apply substring_0_S. }
  unfold closed_piece. cbv zeta. rewrite Hpiece, paren_depth_open.
  change (0 + 1)%Z with 1%Z.
  apply andb_true_intro. split; [apply andb_true_intro; split;
    [apply andb_true_intro; split|]|].
  - apply Nat.ltb_lt. lia.
  - apply Nat.ltb_lt. lia.
  - apply Z.eqb_eq. exact Hz.
  - apply forallb_forall. intros k Hk%in_seq. apply Z.ltb_lt.
    destruct k as [|k]; [lia|]. unfold prefix.
    rewrite substring_0_S, paren_depth_open.
    rewrite substring_0_substring by lia.
    specialize (Hpos k ltac:(lia)). change (0 + 1)%Z with 1%Z. lia.
Qed.

Lemma closed_marker_fragment (sql : string) (i j : nat) :
  marker_at sql i = true ->
  closed_piece sql i j = true ->
  fragment_at sql i = [slice i (j + 1) sql]
  /\ In (slice i (j + 1) sql) (extract_subqueries sql).
Proof.
  intros Hm Hc. destruct (marker_at_head _ _ Hm) as (r & n & g & Hd & Ho).
  pose proof (closed_piece_scan _ _ _ _ Hd Hc) as Hf.
  assert (Hfrag : fragment_at sql i = [slice i (j + 1) sql]).
  { unfold fragment_at. rewrite Hd. cbn [find_close Ascii.eqb Bool.eqb].
    change (0 + 1)%Z with 1%Z. by rewrite Hf. }
  split; [exact Hfrag|].
  unfold extract_subqueries. apply in_flat_map. exists (i, n, g).
  split; [|simpl; rewrite Hfrag; by left].
  apply (finditer_open_select_complete sql None 0 0 i n g); [|exact Ho].
  by rewrite substring_0_0.
Qed.

Lemma two_members {A} (x y : A) (l : list A) :
  In x l -> In y l -> x <> y -> (2 <= List.length l)%nat.
Proof.
  destruct l as [|a [|b l]]; simpl; [done | | lia].
  intros [<-|[]] [<-|[]] Hne. done.
Qed.

(** C4, amended: every occurrence of the opening marker whose parenthesis
    is closed yields its own fragment, from that parenthesis to the one
    that closes it.  In a query with a nested subquery the outer expression
    is emitted in full, and every marker inside it is closed inside it and
    is emitted as a fragment of its own: the extraction returns at least
    two fragments, never exactly one. *)
Theorem closed_markers_yield_fragments (sql : string) (i j : nat) :
  marker_at sql i = true ->
  closed_piece sql i j = true ->
  In (slice i (j + 1) sql) (extract_subqueries sql)
  /\ forall k, (i < k < j)%nat -> marker_at sql k = true ->
       exists j', (k < j' < j)%nat
         /\ closed_piece sql k j' = true
         /\ In (slice k (j' + 1) sql) (extract_subqueries sql)
         /\ slice k (j' + 1) sql <> slice i (j + 1) sql
         /\ (2 <= List.length (extract_subqueries sql))%nat.
Proof.
  intros Hm Hc.
  destruct (closed_marker_fragment _ _ _ Hm Hc) as [_ Hout].
  split; [exact Hout|]. intros k Hk Hmk.
  destruct (marker_at_head _ _ Hm) as (r & n & g & Hd & _).
  destruct (marker_at_head _ _ Hmk) as (r' & n' & g' & Hd' & _).
  pose proof (closed_piece_scan _ _ _ _ Hd Hc) as Hf.
  assert (H1 : (1 <= 1)%Z) by lia.
  assert (Hki : (S i + (k - S i) <= j)%nat) by lia.
  destruct (find_close_resume (k - S i) r (S i) 1 j H1 Hf Hki)
    as (d' & Hd1 & Hres).
  replace (S i + (k - S i))%nat with k in Hres by lia.
  assert (Hdk : drop (k - S i) r = String "(" r').
  { rewrite <- (drop_S _ _ _ _ Hd), drop_drop.
    replace (S i + (k - S i))%nat with k by lia. exact Hd'. }
  rewrite Hdk in Hres. cbn [find_close Ascii.eqb Bool.eqb] in Hres.
  replace (d' + 1)%Z with (1 + d')%Z in Hres by lia.
  assert (Hd0 : (0 <= d')%Z) by lia.
  destruct (find_close_lower _ _ _ _ _ H1 Hd0 Hres)
    as (j' & Hin & _ & Hlt).
  specialize (Hlt ltac:(lia)).
  destruct (find_close_spec _ _ _ _ Hin) as [Hle _].
  pose proof (scan_closed_piece _ _ _ _ Hd' Hin) as Hc'.
  destruct (closed_marker_fragment _ _ _ Hmk Hc') as [_ Hinner].
  assert (Hj : (j < String.length sql)%nat).
  { unfold closed_piece in Hc. cbv zeta in Hc.
    apply andb_prop in Hc as [[[_ Hj%Nat.ltb_lt]%andb_prop _]%andb_prop _]. exact Hj. }
  assert (Hne : slice k (j' + 1) sql <> slice i (j + 1) sql).
  { intros Heq. apply (f_equal String.length) in Heq.
    rewrite !slice_length in Heq by lia. lia. }
  exists j'. split; [lia|]. split; [exact Hc'|]. split; [exact Hinner|].
  split; [exact Hne|]. exact (two_members _ _ _ Hinner Hout Hne).
Qed.

End NestedFragments.

Lemma closed_markers_yield_fragments_witness :
  let sql := "select a from ( select x from (SELECT y FROM (Select z from t)) u) v" in
  In "( select x from (SELECT y FROM (Select z from t)) u)" (extract_subqueries sql)
  /\ (exists j', (30 < j' < 65)%nat
        /\ closed_piece sql 30 j' = true
        /\ In (slice 30 (j' + 1) sql) (extract_subqueries sql)
        /\ slice 30 (j' + 1) sql <> slice 14 (65 + 1) sql
        /\ (2 <= List.length (extract_subqueries sql))%nat)
  /\ (exists j', (45 < j' < 65)%nat
        /\ closed_piece sql 45 j' = true
        /\ In (slice 45 (j' + 1) sql) (extract_subqueries sql)
        /\ slice 45 (j' + 1) sql <> slice 14 (65 + 1) sql
        /\ (2 <= List.length (extract_subqueries sql))%nat).
Proof.
  cbv zeta.
  destruct (closed_markers_yield_fragments
              "select a from ( select x from (SELECT y FROM (Select z from t)) u) v"
              14 65 eq_refl eq_refl) as [Hout Hin].
  split; [exact Hout|]. split.
  - apply (Hin 30); [lia | reflexivity].
  - apply (Hin 45); [lia | reflexivity].
Defined.

(* ===================================================================== *)
(** ** The bottlenecks of the desktop front-end *)
(* ===================================================================== *)

Section GuiBottlenecks.
Context `{Engine} `{SetOrder}.

(** A table whose count statement cannot run gets a step of duration 0. *)
Lemma gui_table_loop_failing (ts : list string) (t : string) :
  In t ts ->
  (forall w, exists e w', run_statement ("SELECT COUNT(*) FROM " +:+ t) w = (inr e, w')) ->
  forall tl st,
    exists steps st',
      Gui.table_loop ts tl st = (Ret (tl ++ steps), st')
      /\ List.length steps = List.length ts
      /\ In (Gui.step ("Table scan: " +:+ t) table_scan 0%Q) steps.
Proof.
  intros Hin Hfail. induction ts as [|t0 ts IH]; [done|]. intros tl st.
  cbn [Gui.table_loop].
  destruct (decide (t0 = t)) as [->|Hne].
  - destruct (Hfail (snd (wall_clock (conn st)))) as (e & w' & He).
    unfold Gui.table_scan_time.
    erewrite bind_ret by (eapply gui_statement_time_failure; exact He).
    edestruct (gui_table_loop_spec ts) as (steps & st' & Hrun & Hlen & _).
    rewrite Hrun. eexists (_ :: steps), st'. rewrite <- app_assoc.
    split; [reflexivity|]. split; [simpl; lia|]. by left.
  - destruct Hin as [Heq|Hin]; [done|].
    destruct (gui_statement_time_total ("SELECT COUNT(*) FROM " +:+ t0) st)
      as (d & st1 & Hd).
    unfold Gui.table_scan_time. erewrite bind_ret by exact Hd.
    edestruct (IH Hin) as (steps & st' & Hrun & Hlen & Hstep). rewrite Hrun.
    eexists (_ :: steps), st'. rewrite <- app_assoc.
    split; [reflexivity|]. split; [simpl; lia|]. by right.
Qed.

(** C3 fails on the front-end.  [analyze_sql] takes the first five steps
    of its sorted timeline as bottlenecks without looking at their
    durations.  When the query runs, names at most two tables, and the
    count statement of one of them cannot run, the step of that table has
    duration 0 and is returned among the bottlenecks, although its duration
    is not greater than 0. *)
Theorem gui_bottlenecks_not_filtered (text t : string) (st : state) :
  strip text <> EmptyString ->
  (forall w, exists rows w', run_statement (strip text) w = (inl rows, w')) ->
  In t (Gui.extract_tables (strip text)) ->
  (List.length (Gui.extract_tables (strip text)) <= 2)%nat ->
  (forall w, exists e w', run_statement ("SELECT COUNT(*) FROM " +:+ t) w = (inr e, w')) ->
  exists rows d tl bn st' b,
    Gui.analyze_sql text st
    = (Ret (Analysed (Gui.extract_tables (strip text)) rows (Some d) tl bn), st')
    /\ bn = take 5 tl
    /\ In b bn
    /\ b = Gui.step ("Table scan: " +:+ t) table_scan 0%Q
    /\ duration_s b = Some 0%Q
    /\ positive_duration b = false.
Proof.
  intros Hne Hok Hin Hfew Hfail. unfold Gui.analyze_sql.
  destruct (strip text) as [|c sql] eqn:Hs; [done|].
  set (q := String c sql) in *.
  destruct (gui_explain_query_total q st) as (rows & st1 & Hexp).
  erewrite bind_ret by exact Hexp.
  destruct (Hok (snd (wall_clock (conn st1)))) as (qrows & w' & Hr).
  erewrite bind_ret by (eapply gui_time_query_success; exact Hr).
  cbv beta iota. cbn [truthy].
  edestruct (gui_table_loop_failing (Gui.extract_tables q) t Hin Hfail [])
    as (s1 & st2 & H1 & Hl1 & Hstep).
  erewrite bind_ret by exact H1.
  edestruct (gui_join_outer_loop_spec (Gui.extract_tables q)
               (seq 0 (List.length (Gui.extract_tables q))))
    as (s2 & st3 & H2 & Hl2 & _).
  { apply List.Forall_forall. intros i Hi%in_seq. lia. }
  erewrite bind_ret by exact H2.
  unfold ret. eexists rows, _, _, _, st3, _. split; [reflexivity|].
  split; [reflexivity|]. split; [|by repeat split].
  rewrite take_ge.
  - apply list_elem_of_In. rewrite sorted_desc_perm.
    apply list_elem_of_In. rewrite !in_app_iff. left. left. by right.
  - rewrite (Permutation_length (sorted_desc_perm _)).
    rewrite !length_app, Hl1, Hl2.
    fold (pair_indices (List.length (Gui.extract_tables q))).
    rewrite pair_indices_length. simpl.
    destruct (List.length (Gui.extract_tables q)) as [|[|[|n]]]; simpl; lia.
Qed.

End GuiBottlenecks.

(** The failing input of C3: on the sample database the front-end returns
    the steps of the mangled table name [orders)] among its bottlenecks,
    with duration 0. *)
Lemma gui_bottlenecks_not_filtered_witness :
  exists rows d tl bn st' b,
    Gui.analyze_sql
      "SELECT name FROM customers WHERE customer_id IN (SELECT customer_id FROM orders)"
      Sample.start
    = (Ret (Analysed
              (Gui.extract_tables
                 (strip "SELECT name FROM customers WHERE customer_id IN (SELECT customer_id FROM orders)"))
              rows (Some d) tl bn), st')
    /\ bn = take 5 tl
    /\ In b bn
    /\ b = Gui.step "Table scan: orders)" table_scan 0%Q
    /\ duration_s b = Some 0%Q
    /\ positive_duration b = false.
Proof.
  apply (gui_bottlenecks_not_filtered
           "SELECT name FROM customers WHERE customer_id IN (SELECT customer_id FROM orders)"
           "orders)" Sample.start).
  - discriminate.
  - intros w. eexists _, _. reflexivity.
  - vm_compute. tauto.
  - vm_compute. lia.
  - intros w. eexists _, _. reflexivity.
Defined.
